(** * Rabbit-in-a-Blender: the ETL orchestration core

    A shallow embedding of
    - [src/src/riab/etl/etl_base.py] (class [EtlBase]: the field catalog, the
      NOTE_NLP override, the foreign-key dependency resolver, the primary-key
      queries),
    - [src/omop-etl/etl/etl.py] (class [Etl]: the pipeline driver [run],
      [_process_omop_folder] and [cleanup]),
    - [src/omop-etl/etl/bigquery/bigquery.py] (class [BigQuery]: the storage
      specific [_is_pk_auto_numbering] and the custom-concept id request),
    followed by the properties of the specification that are settled on it. *)

From Stdlib Require Import Ascii String.
From stdpp Require Import base decidable option list sorting relations
  gmap fin_sets fin_maps strings.

(** ** Python values used by the sources *)

(** The exceptions the modelled code raises.  [Exception msg] is the builtin
    base class with its message (the resolver raises it; collaborators may
    raise it too); [IndexError] is raised by an index out of range,
    [AttributeError name] by reading a missing attribute [name]. *)
Inductive pyexn : Type :=
  | Exception (msg : string)
  | IndexError
  | AttributeError (name : string).

(** The outcome of a call: a returned value or a raised exception. *)
Inductive result (A : Type) : Type :=
  | Return (a : A)
  | Raise (e : pyexn).
Arguments Return {A} a.
Arguments Raise {A} e.

#[global] Instance pyexn_eq_dec : EqDecision pyexn.
Proof. solve_decision. Defined.

#[global] Instance result_eq_dec {A} `{EqDecision A} : EqDecision (result A).
Proof. solve_decision. Defined.

(** *** Strings *)

Module PyStr.

(** [str.lower] and [str.upper] on the ASCII range (the table and column
    names of the catalog are ASCII identifiers). *)
Definition lower_ascii (c : ascii) : ascii :=
  let n := nat_of_ascii c in
  if (65 <=? n)%nat && (n <=? 90)%nat then ascii_of_nat (n + 32) else c.

Definition upper_ascii (c : ascii) : ascii :=
  let n := nat_of_ascii c in
  if (97 <=? n)%nat && (n <=? 122)%nat then ascii_of_nat (n - 32) else c.

Fixpoint lower (s : string) : string :=
  match s with
  | EmptyString => EmptyString
  | String c r => String (lower_ascii c) (lower r)
  end.

Fixpoint upper (s : string) : string :=
  match s with
  | EmptyString => EmptyString
  | String c r => String (upper_ascii c) (upper r)
  end.

(** [s.startswith(p)] *)
Fixpoint startswith (s p : string) : bool :=
  match p, s with
  | EmptyString, _ => true
  | String _ _, EmptyString => false
  | String a p', String b s' => if Ascii.eqb a b then startswith s' p' else false
  end.

(** [needle in hay] *)
Fixpoint contains (needle hay : string) : bool :=
  startswith hay needle ||
  match hay with
  | EmptyString => false
  | String _ hay' => contains needle hay'
  end.

Definition rev (s : string) : string :=
  string_of_list_ascii (List.rev (list_ascii_of_string s)).

(** [s.endswith(p)] *)
Definition endswith (s p : string) : bool := startswith (rev s) (rev p).

(** [s.removesuffix(p)] *)
Definition removesuffix (s p : string) : string :=
  if endswith s p then String.substring 0 (String.length s - String.length p) s
  else s.

(** [s.split("__")]: the pieces between the non-overlapping occurrences
    of the separator, scanned from the left. *)
Fixpoint split_dunder_aux (s : string) (cur : string) : list string :=
  match s with
  | EmptyString => [rev cur]
  | String c r =>
      match r with
      | String c' r' =>
          if Ascii.eqb c "_" && Ascii.eqb c' "_"
          then rev cur :: split_dunder_aux r' EmptyString
          else split_dunder_aux r (String c cur)
      | EmptyString => [rev (String c cur)]
      end
  end.

Definition split_dunder (s : string) : list string := split_dunder_aux s EmptyString.

(** [sorted(t)] for a set of strings: ascending in the lexicographic
    order by character code ([String.le] is [String.leb]). *)
Definition sorted (t : gset string) : list string :=
  merge_sort String.le (elements t).

End PyStr.

(** ** The field catalog ([EtlBase._df_omop_fields]) *)

(** A cell of a text column of the data frame; [None] is polars' null. *)
Definition cell : Type := option string.

(** [pl.col(c) == s]: a null cell never satisfies the comparison. *)
Definition cell_is (c : cell) (s : string) : bool :=
  match c with
  | Some x => String.eqb x s
  | None => false
  end.

(** One row of [OMOP_CDMv*_Field_Level.csv], restricted to the columns the
    sources read.  The row number added by [with_row_count] is the position
    of the row in the list. *)
Record FieldRow : Type := mkFieldRow {
  cdmTableName : string;
  cdmFieldName : string;
  isRequired : cell;
  cdmDatatype : cell;
  isPrimaryKey : cell;
  isForeignKey : cell;
  fkTableName : cell;
  fkFieldName : cell;
}.

#[global] Instance FieldRow_eq_dec : EqDecision FieldRow.
Proof. solve_decision. Defined.

(** ** The dependency resolver ([_build_fk_dependency_tree_of_tables]) *)

Module Resolver.

(** [tables_with_fks]: table name to the set of referenced table names. *)
Abbreviation graph := (gmap string (gset string)).

(** The polars filter of lines 143-146: the row belongs to a table of the
    working set and its foreign-key target is null or in the working set
    (both tests are case sensitive). *)
Definition fk_row_selected (tables : list string) (r : FieldRow) : bool :=
  bool_decide (cdmTableName r ∈ tables) &&
  match fkTableName r with
  | None => true
  | Some fk => bool_decide (fk ∈ tables)
  end.

(** [.group_by("cdmTableName").agg(pl.col("fkTableName"))] followed by
    [.list.drop_nulls()] and [iter_rows()]: one pair per table name that
    has a selected row, with the non-null targets of its selected rows.
    polars leaves the order of the groups unspecified, and it changes from
    one call to the next; [grouped] lists the pairs in the order of first
    appearance, which is one of the listings polars may return.  The
    listings polars may return are the permutations of [grouped]; the
    resolver on an arbitrary listing is [build_tree_from] below. *)
Definition grouped (fields : list FieldRow) (tables : list string)
  : list (string * list string) :=
  let selected := List.filter (fk_row_selected tables) fields in
  (fun k => (k, omap fkTableName
                  (List.filter (fun r => String.eqb (cdmTableName r) k) selected)))
    <$> remove_dups (cdmTableName <$> selected).

(** Lines 154-156, [dict((k.lower(), set(v.lower() for v in v) - set([k.lower()])) ...)]:
    a later pair overwrites an earlier one with the same lower-cased key. *)
Definition lowered (groups : list (string * list string)) : graph :=
  foldl (fun d kv =>
           <[PyStr.lower kv.1 :=
               list_to_set (PyStr.lower <$> kv.2) ∖ {[PyStr.lower kv.1]}]> d)
        ∅ groups.

(** The dependency graph the peeling starts from (self references removed). *)
Definition fk_graph (fields : list FieldRow) (tables : list string) : graph :=
  lowered (grouped fields tables).

(** [set(fk for fks in tables_with_fks.values() for fk in fks)] *)
Definition values_union (d : graph) : gset string :=
  ⋃ (snd <$> map_to_list d).

(** [set(k for k, v in d.items() if not v)] *)
Definition keys_without_fks (d : graph) : gset string :=
  dom (filter (fun kv => kv.2 = ∅) d).

(** Line 166 and 168: the next tier. *)
Definition next_tier (d : graph) : gset string :=
  (values_union d ∖ dom d) ∪ keys_without_fks d.

(** Line 174: [dict(((k, set(v) - t) for k, v in d.items() if v))] *)
Definition cleaned_up (d : graph) (t : gset string) : graph :=
  (fun v => v ∖ t) <$> filter (fun kv => kv.2 ≠ ∅) d.

(** Lines 160-162: [dict(((k, set(v) - no) for k, v in d.items() if k not in no))] *)
Definition without_tables (d : graph) (no : gset string) : graph :=
  (fun v => v ∖ no) <$> filter (fun kv => kv.1 ∉ no) d.

Definition circular_reference : pyexn :=
  Exception "Circular reference in FKs dependency graph".

(** The [while tables_with_fks:] loop of lines 164-174.  [fuel] bounds the
    number of iterations; [None] means the bound was reached
    ([peel_enough_fuel] shows it never is from [loop_bound]). *)
Fixpoint peel (fuel : nat) (d : graph) (tree : list (list string))
  : option (result (list (list string))) :=
  match fuel with
  | O => None
  | S fuel' =>
      if decide (d = ∅) then Some (Return tree)
      else
        let t := next_tier d in
        if decide (t = ∅) then Some (Raise circular_reference)
        else peel fuel' (cleaned_up d t) (tree ++ [PyStr.sorted t])
  end.

Definition loop_bound (d : graph) : nat :=
  S (size (dom d) + size (values_union d)).

(** Lines 158-176 on the dependency graph. *)
Definition resolve_graph (g : graph) : option (result (list (list string))) :=
  let tables_with_no_fks := keys_without_fks g in
  let tree := [PyStr.sorted tables_with_no_fks] in
  let d := without_tables g tables_with_no_fks in
  peel (loop_bound d) d tree.

(** Lines 154-176 on the groups as polars listed them for this call. *)
Definition build_tree_from (groups : list (string * list string))
  : option (result (list (list string))) :=
  resolve_graph (lowered groups).

(** The whole body of [_build_fk_dependency_tree_of_tables] as a function
    of the data frame it reads and of its argument, the groups being listed
    in the order of first appearance. *)
Definition build_tree (fields : list FieldRow) (tables : list string)
  : option (result (list (list string))) :=
  resolve_graph (fk_graph fields tables).

End Resolver.

(** A field row with only the columns of the resolver filled in. *)
Definition fk_row (table field : string) (fk : cell) : FieldRow :=
  {| cdmTableName := table; cdmFieldName := field; isRequired := None;
     cdmDatatype := None; isPrimaryKey := None;
     isForeignKey := if fk is Some _ then Some "Yes" else Some "No";
     fkTableName := fk; fkFieldName := None |}.

(** Scenario A of the specification. *)
Definition scenario_A_fields : list FieldRow :=
  [ fk_row "PERSON" "person_id" None;
    fk_row "VISIT_OCCURRENCE" "visit_occurrence_id" None;
    fk_row "VISIT_OCCURRENCE" "person_id" (Some "PERSON");
    fk_row "VISIT_OCCURRENCE" "preceding_visit_occurrence_id" (Some "VISIT_OCCURRENCE");
    fk_row "CONDITION_OCCURRENCE" "condition_occurrence_id" None;
    fk_row "CONDITION_OCCURRENCE" "person_id" (Some "PERSON");
    fk_row "CONDITION_OCCURRENCE" "condition_concept_id" (Some "CONCEPT");
    fk_row "CONDITION_OCCURRENCE" "visit_occurrence_id" (Some "VISIT_OCCURRENCE") ].

Definition scenario_A_tables : list string :=
  ["PERSON"; "VISIT_OCCURRENCE"; "CONDITION_OCCURRENCE"].

Definition cyclic_fields : list FieldRow :=
  [ fk_row "PERSON" "person_id" None;
    fk_row "PERSON" "last_visit_id" (Some "VISIT_OCCURRENCE");
    fk_row "VISIT_OCCURRENCE" "person_id" (Some "PERSON");
    fk_row "CARE_SITE" "care_site_id" None ].

Definition cyclic_tables : list string := ["PERSON"; "VISIT_OCCURRENCE"; "CARE_SITE"].


(** *** The notions the resolver's properties are stated with *)

Module Graph.
Import Resolver.

(** The pair a group of [grouped] contributes to the dictionary of
    [lowered]. *)
Definition lowered_item (kv : string * list string) : string * gset string :=
  (PyStr.lower kv.1, list_to_set (PyStr.lower <$> kv.2) ∖ {[PyStr.lower kv.1]}).

(** The foreign keys of a table in the dependency graph. *)
Definition fks_of (g : graph) (x : string) : gset string := default ∅ (g !! x).

(** [edge g a b]: table [a] has a foreign key to table [b]. *)
Definition edge (g : graph) : relation string := fun a b => b ∈ fks_of g a.

#[global] Instance edge_dec g : RelDecision (edge g).
Proof. intros a b. unfold edge. apply _. Defined.

(** No table reaches itself along one or more foreign keys. *)
Definition acyclic (g : graph) : Prop := ∀ x, ¬ tc (edge g) x x.

(** Table [x] lies on a cycle of foreign keys. *)
Definition on_cycle (g : graph) (x : string) : Prop := tc (edge g) x x.

(** Table [x] belongs to the graph: it has an entry, or some table has a
    foreign key to it. *)
Definition vertex (g : graph) (x : string) : Prop :=
  x ∈ dom g ∨ ∃ k, edge g k x.

(** Table [x] is listed in tier number [i] (counted from 0). *)
Definition in_tier (tree : list (list string)) (i : nat) (x : string) : Prop :=
  ∃ tier, tree !! i = Some tier ∧ x ∈ tier.

(** The tables listed in some tier. *)
Definition placed (tree : list (list string)) : gset string :=
  list_to_set (mjoin tree).

(** What the tier list built so far guarantees with respect to the graph
    [g0] the resolver started from. *)
Record tiers_ok (g0 : graph) (tree : list (list string)) : Prop := {
  tiers_nodup : NoDup (mjoin tree);
  tiers_fk_earlier :
    ∀ i x fk, in_tier tree i x → fk ∈ fks_of g0 x →
              ∃ j, j < i ∧ in_tier tree j fk;
  tiers_vertices : ∀ i x, in_tier tree i x → vertex g0 x;
}.

(** The loop invariant: [d] is [g0] without the tables placed so far, each
    remaining table keeping exactly its foreign keys not placed yet. *)
Record peel_inv (g0 : graph) (P : gset string) (d : graph) : Prop := {
  inv_lookup : ∀ k s, d !! k = Some s → ∃ s0, g0 !! k = Some s0 ∧ s = s0 ∖ P;
  inv_keys : ∀ k, k ∈ dom g0 → k ∉ P → k ∈ dom d;
  inv_fresh : ∀ k, k ∈ dom d → k ∉ P;
}.

End Graph.

(** ** The class [EtlBase] *)

(** One row of [OMOP_CDMv*_Table_Level.csv]. *)
Record TableRow : Type := mkTableRow {
  tl_cdmTableName : string;
  tl_schema : cell;
}.

Module EtlBase.

(** The attributes of the object that the modelled methods read or write. *)
Record t : Type := mk {
  _df_omop_tables : list TableRow;
  _omop_cdm_tables : list string;
  _omop_etl_tables : list string;
  _df_omop_fields : list FieldRow;
  _cdm_tables_fks_dependencies_resolved : list (list string);
}.

#[global] Instance TableRow_eq_dec : EqDecision TableRow.
Proof. solve_decision. Defined.

#[global] Instance t_eq_dec : EqDecision t.
Proof. solve_decision. Defined.

(** A method: the value it returns or the exception it raises ([None]: the
    iteration bound of the resolver loop was reached), and the object after
    the call. *)
Definition method (A : Type) : Type := t → option (result A) * t.

(** [_build_fk_dependency_tree_of_tables(self, tables)], lines 138-176.
    The method only reads [self._df_omop_fields].  The groups are taken in
    the order of first appearance; [Resolver.build_tree_from] gives the
    result for any other order in which polars may list them. *)
Definition _build_fk_dependency_tree_of_tables (tables : list string)
  : method (list (list string)) :=
  fun self => (Resolver.build_tree (_df_omop_fields self) tables, self).

(** The working table set of [_resolve_cdm_tables_fks_dependencies],
    lines 123-129. *)
Definition resolver_tables (self : t) : list string :=
  tl_cdmTableName <$>
    List.filter (fun r => cell_is (tl_schema r) "CDM"
                          || bool_decide (tl_cdmTableName r ∈ ["CDM_SOURCE"; "VOCABULARY"]))
                (_df_omop_tables self).

(** [_resolve_cdm_tables_fks_dependencies(self)], lines 121-136 (the debug
    log is left out). *)
Definition _resolve_cdm_tables_fks_dependencies : method unit :=
  fun self =>
    match _build_fk_dependency_tree_of_tables (resolver_tables self) self with
    | (Some (Return tree), self') =>
        (Some (Return tt),
         {| _df_omop_tables := _df_omop_tables self';
            _omop_cdm_tables := _omop_cdm_tables self';
            _omop_etl_tables := _omop_etl_tables self';
            _df_omop_fields := _df_omop_fields self';
            _cdm_tables_fks_dependencies_resolved := tree |})
    | (Some (Raise e), self') => (Some (Raise e), self')
    | (None, self') => (None, self')
    end.

(** The row filter of lines 93-96. *)
Definition is_note_nlp_note_id (r : FieldRow) : Prop :=
  PyStr.upper (cdmTableName r) = "NOTE_NLP" ∧ PyStr.upper (cdmFieldName r) = "NOTE_ID".

#[global] Instance is_note_nlp_note_id_dec r : Decision (is_note_nlp_note_id r).
Proof. unfold is_note_nlp_note_id. apply _. Defined.

(** The three cell assignments of lines 97-99 on one row. *)
Definition set_fk_to_note (r : FieldRow) : FieldRow :=
  {| cdmTableName := cdmTableName r; cdmFieldName := cdmFieldName r;
     isRequired := isRequired r; cdmDatatype := cdmDatatype r;
     isPrimaryKey := isPrimaryKey r;
     isForeignKey := Some "Yes"; fkTableName := Some "NOTE";
     fkFieldName := Some "NOTE_ID" |}.

(** Lines 92-99: the row number of the first row of NOTE_NLP.NOTE_ID
    ([...["row_nr"][0]] raises [IndexError] when no row matches), then the
    assignments at that row. *)
Definition note_nlp_override (fields : list FieldRow) : result (list FieldRow) :=
  match list_find is_note_nlp_note_id fields with
  | None => Raise IndexError
  | Some (row_nr, _) => Return (alter set_fk_to_note row_nr fields)
  end.

(** [__init__], lines 55-101, from the two data frames read from the CSV
    files of the CommonDataModel library (the template environment and the
    event-fields JSON, which the modelled methods do not use, are left out). *)
Definition __init__ (table_level : list TableRow) (field_level : list FieldRow)
  : option (result t) :=
  let omop_cdm_tables :=
    (fun r => PyStr.lower (tl_cdmTableName r)) <$>
      List.filter (fun r => cell_is (tl_schema r) "CDM") table_level in
  let omop_etl_tables :=
    (fun r => PyStr.lower (tl_cdmTableName r)) <$>
      List.filter (fun r => cell_is (tl_schema r) "CDM"
                            || String.eqb (PyStr.lower (tl_cdmTableName r)) "vocabulary")
                  table_level in
  match note_nlp_override field_level with
  | Raise e => Some (Raise e)
  | Return fields =>
      let self := {| _df_omop_tables := table_level;
                     _omop_cdm_tables := omop_cdm_tables;
                     _omop_etl_tables := omop_etl_tables;
                     _df_omop_fields := fields;
                     _cdm_tables_fks_dependencies_resolved := [] |} in
      match _resolve_cdm_tables_fks_dependencies self with
      | (Some (Return _), self') => Some (Return self')
      | (Some (Raise e), _) => Some (Raise e)
      | (None, _) => None
      end
  end.

(** The rows of a table declared as primary key, the filter shared by
    [_is_pk_auto_numbering] and [_get_pk]. *)
Definition is_pk_row (omop_table_name : string) (r : FieldRow) : bool :=
  String.eqb (PyStr.lower (cdmTableName r)) omop_table_name
  && cell_is (isPrimaryKey r) "Yes".

(** [_is_pk_auto_numbering(self, omop_table_name)], lines 218-239. *)
Definition _is_pk_auto_numbering (self : t) (omop_table_name : string) : bool :=
  0 <? length (List.filter
                 (fun r => is_pk_row omop_table_name r
                           && cell_is (cdmDatatype r) "integer")
                 (_df_omop_fields self)).

(** [_get_pk(self, omop_table_name)], lines 241-258:
    [len(fks) > 0 and fks[0] or None]. *)
Definition _get_pk (self : t) (omop_table_name : string) : option string :=
  match cdmFieldName <$> List.filter (is_pk_row omop_table_name) (_df_omop_fields self) with
  | [] => None
  | pk :: _ => if String.eqb pk EmptyString then None else Some pk
  end.

End EtlBase.

Definition scenario_A_table_level : list TableRow :=
  [ mkTableRow "PERSON" (Some "CDM");
    mkTableRow "VISIT_OCCURRENCE" (Some "CDM");
    mkTableRow "CONDITION_OCCURRENCE" (Some "CDM");
    mkTableRow "NOTE" (Some "CDM");
    mkTableRow "NOTE_NLP" (Some "CDM");
    mkTableRow "CONCEPT" (Some "VOCAB") ].

(** Scenario A with the two note tables; NOTE_NLP.NOTE_ID is declared
    without its foreign key, as in the published catalog. *)
Definition note_field_level : list FieldRow :=
  scenario_A_fields ++
  [ fk_row "NOTE" "note_id" None;
    fk_row "NOTE" "person_id" (Some "PERSON");
    fk_row "NOTE_NLP" "note_nlp_id" None;
    fk_row "NOTE_NLP" "note_id" None ].

(** An [EtlBase] object holding the given catalog, before the resolver ran. *)
Definition etl_base_of (table_level : list TableRow) (field_level : list FieldRow)
  : EtlBase.t :=
  EtlBase.mk table_level [] [] field_level [].

Definition scenario_A_self : EtlBase.t :=
  etl_base_of scenario_A_table_level scenario_A_fields.

Definition cyclic_self : EtlBase.t :=
  etl_base_of [ mkTableRow "PERSON" (Some "CDM");
                mkTableRow "VISIT_OCCURRENCE" (Some "CDM");
                mkTableRow "CARE_SITE" (Some "CDM") ] cyclic_fields.

(** ** The class [Etl]: the pipeline driver *)

Module Etl.

(** A foreign key of the schema file: column name to (table, column). *)
Definition fk_columns : Type := list (string * (string * string)).

(** The properties of one table in [cdm_5.4_schema.json]
    ([None]: the attribute is absent). *)
Record table_props : Type := mk_props {
  pk : option string;
  fks : option fk_columns;
  concepts : option (list string);
}.

(** The attributes of the object set by [__init__], lines 41-56.
    [_omop_tables] lists the tables in the order of the schema file. *)
Record t : Type := mk {
  _only_omop_table : option string;
  _skip_usagi_and_custom_concept_upload : option bool;
  _omop_tables : list (string * table_props);
}.

(** The arguments shared by the key-swap stage and the merge stage. *)
Record stage_args : Type := mk_stage {
  sql_file : string;
  omop_table : string;
  columns : list string;
  pk_swap_table_name : option string;
  primary_key_column : option string;
  pk_auto_numbering : bool;
  foreign_key_columns : fk_columns;
  concept_id_columns : list string;
}.

(** The calls the driver makes to its collaborators: the abstract methods
    implemented by the storage-specific subclass, the file system, the
    clock, and the stages of [Etl] whose bodies only upload files and run
    templated queries ([_upload_custom_concepts], [_apply_usagi_mapping],
    [_execute_query_from_sql_file_and_store_results_in_work_table],
    [_swap_primary_key_auto_numbering_column]).  Logging is left out. *)
Inductive call : Type :=
  | date_today
  | _get_column_names (omop_table_name : string)
  | _is_pk_auto_numbering (omop_table_name : string) (omop_table_props : table_props)
  | _upload_custom_concepts (omop_table concept_id_column : string)
  | _apply_usagi_mapping (omop_table concept_id_column : string)
  | glob_glob (omop_table_name pattern : string)
  | _execute_query_from_sql_file_and_store_results_in_work_table
      (sql_file omop_table : string)
  | _swap_primary_key_auto_numbering_column (args : stage_args)
  | _merge_into_omop_table (args : stage_args)
  | _source_to_concept_map_update_invalid_reason (etl_start : nat)
  | _get_work_tables
  | _truncate_omop_table (table_name : string)
  | _remove_custom_concepts_from_concept_table
  | _remove_custom_concepts_from_concept_relationship_table
  | _remove_custom_concepts_from_concept_ancestor_table
  | _remove_custom_concepts_from_concept_table_using_usagi_table
      (omop_table concept_id_column : string)
  | _remove_custom_concepts_from_concept_relationship_table_using_usagi_table
      (omop_table concept_id_column : string)
  | _remove_custom_concepts_from_concept_ancestor_table_using_usagi_table
      (omop_table concept_id_column : string)
  | _remove_source_to_concept_map_using_usagi_table
      (omop_table concept_id_column : string)
  | _delete_work_table (work_table : string).

(** What a call returns. *)
Definition answer (c : call) : Type :=
  match c with
  | date_today => nat
  | _get_column_names _ => list string
  | _is_pk_auto_numbering _ _ => bool
  | glob_glob _ _ => list string
  | _get_work_tables => list string
  | _ => unit
  end.

#[global] Instance table_props_eq_dec : EqDecision table_props.
Proof. solve_decision. Defined.

#[global] Instance stage_args_eq_dec : EqDecision stage_args.
Proof. solve_decision. Defined.

#[global] Instance call_eq_dec : EqDecision call.
Proof. solve_decision. Defined.

(** Python truthiness of the two optional attributes. *)
Definition truthy_str (s : option string) : bool :=
  match s with
  | Some s => negb (String.eqb s EmptyString)
  | None => false
  end.

Definition truthy_bool (b : option bool) : bool := default false b.

(** [sorted(glob.glob(...))] on a list of paths. *)
Definition sorted_list (l : list string) : list string := merge_sort String.le l.

(** Line 112: the columns that get concept mapping. *)
Definition is_concept_column (column : string) : bool :=
  PyStr.contains "concept_id" column && negb (PyStr.contains "source_concept_id" column).

(** The tables of lines 171 and 187-192, whose foreign keys depend on the
    name of the query file. *)
Definition polymorphic_fk_tables : list string :=
  ["fact_relationship"; "measurement"; "observation"; "cost"; "episode_event"].

Section Driver.
(** The state of the collaborators (warehouse, bucket, file system). *)
Context {W : Type}.
(** How they answer a call: the new state and the returned value, or the
    exception raised. *)
Variable handler : ∀ c : call, W → W * result (answer c).
(** Lines 171-239 for a table of [polymorphic_fk_tables]: the foreign
    keys given to the merge for one query file, the declared ones
    overridden by what the file name says (regular expressions on the
    base name of the file; reading the groups of a failed match raises).
    The properties stated below do not depend on these keys; the update in
    place of the declared keys of lines 229-230 is not followed from one
    query file to the next. *)
Variable infer_foreign_key_columns : string → string → fk_columns → result fk_columns.
(** The attributes that the object read from the schema file has besides
    its entries: those of every Python object ([__class__], [__dict__],
    [__doc__], the special methods).  None of them has a [pk], [fks] or
    [concepts] attribute. *)
Variable object_attribute : string → bool.

(** A computation of the driver: from the state of the collaborators to
    their new state, the calls made in order, and the outcome. *)
Definition M (A : Type) : Type := W → W * list call * result A.

Definition ret {A} (a : A) : M A := fun w => (w, [], Return a).

Definition raise {A} (e : pyexn) : M A := fun w => (w, [], Raise e).

Definition bind {A B} (m : M A) (f : A → M B) : M B :=
  fun w =>
    match m w with
    | (w1, tr1, Return a) =>
        match f a w1 with
        | (w2, tr2, r) => (w2, tr1 ++ tr2, r)
        end
    | (w1, tr1, Raise e) => (w1, tr1, Raise e)
    end.

Definition perform (c : call) : M (answer c) :=
  fun w => match handler c w with (w', r) => (w', [c], r) end.

Definition lift {A} (r : result A) : M A := fun w => (w, [], r).

(** [for x in l: body(x)] *)
Fixpoint for_ {A} (l : list A) (body : A → M unit) : M unit :=
  match l with
  | [] => ret tt
  | x :: l' => bind (body x) (fun _ => for_ l' body)
  end.

(** [if c: body] *)
Definition when (c : bool) (body : M unit) : M unit :=
  if c then body else ret tt.

(** Reading an attribute that may be absent. *)
Definition getattr {A} (name : string) (o : option A) : M A :=
  match o with
  | Some a => ret a
  | None => raise (AttributeError name)
  end.

(** The body of the loop over the query files, lines 141-251. *)
Definition process_sql_file (omop_table_name : string) (omop_table_props : table_props)
    (columns : list string) (pk_auto_numbering : bool) (sql_file : string)
  : M unit :=
  bind (perform (_execute_query_from_sql_file_and_store_results_in_work_table
                   sql_file omop_table_name)) (fun _ =>
  let foreign_key_columns := default [] (fks omop_table_props) in
  let pk_swap_table_name :=
    if String.eqb omop_table_name "death" then Some "death_id"
    else pk omop_table_props in
  bind (when pk_auto_numbering
          (bind (getattr "pk" (pk omop_table_props)) (fun pk_column =>
           perform (_swap_primary_key_auto_numbering_column
                      (mk_stage sql_file omop_table_name columns pk_swap_table_name
                         (Some pk_column) pk_auto_numbering foreign_key_columns
                         (default [] (concepts omop_table_props))))))) (fun _ =>
  bind (if bool_decide (omop_table_name ∈ polymorphic_fk_tables)
        then lift (infer_foreign_key_columns omop_table_name sql_file
                     foreign_key_columns)
        else ret foreign_key_columns)
       (fun foreign_key_columns =>
  perform (_merge_into_omop_table
             (mk_stage sql_file omop_table_name columns pk_swap_table_name
                (pk omop_table_props) pk_auto_numbering foreign_key_columns
                (default [] (concepts omop_table_props))))))).

(** [_process_omop_folder(self, omop_table_name, omop_table_props)],
    lines 99-251. *)
Definition _process_omop_folder (self : t) (omop_table_name : string)
    (omop_table_props : table_props) : M unit :=
  bind (perform (_get_column_names omop_table_name)) (fun columns =>
  let concept_columns := List.filter is_concept_column columns in
  bind (perform (_is_pk_auto_numbering omop_table_name omop_table_props))
       (fun pk_auto_numbering =>
  bind (when (negb (truthy_bool (_skip_usagi_and_custom_concept_upload self)))
          (for_ concept_columns (fun concept_id_column =>
             bind (perform (_upload_custom_concepts omop_table_name
                              (PyStr.lower concept_id_column))) (fun _ =>
             perform (_apply_usagi_mapping omop_table_name
                        (PyStr.lower concept_id_column)))))) (fun _ =>
  bind (perform (glob_glob omop_table_name "*.sql")) (fun sql =>
  bind (perform (glob_glob omop_table_name "*.sql.jinja")) (fun sql_jinja =>
  for_ (sorted_list sql ++ sorted_list sql_jinja)
       (process_sql_file omop_table_name omop_table_props columns
          pk_auto_numbering)))))).

(** The entry of the schema file for a table name. *)
Definition omop_table_props_of (self : t) (name : string) : option table_props :=
  snd <$> List.find (fun kv => String.eqb kv.1 name) (_omop_tables self).

(** [getattr(self._omop_tables, name)]: the entry of the schema file; for a
    name that is no entry, the attribute of that name that every object
    has, which has none of the properties of a table; [AttributeError] when
    there is no such attribute either. *)
Definition getattr_omop_tables (self : t) (name : string) : M table_props :=
  match omop_table_props_of self name with
  | Some props => ret props
  | None =>
      if object_attribute name then ret (mk_props None None None)
      else raise (AttributeError name)
  end.

(** [run(self)], lines 62-97. *)
Definition run (self : t) : M unit :=
  bind (perform date_today) (fun etl_start =>
  bind (if truthy_str (_only_omop_table self)
        then
          let only := default EmptyString (_only_omop_table self) in
          bind (getattr_omop_tables self only) (fun props =>
          _process_omop_folder self only props)
        else
          for_ (_omop_tables self) (fun kv => _process_omop_folder self kv.1 kv.2))
       (fun _ =>
  perform (_source_to_concept_map_update_invalid_reason etl_start))).

(** [l[i]] on a list, raising [IndexError] out of range. *)
Definition index {A} (l : list A) (i : nat) : M A :=
  match l !! i with
  | Some a => ret a
  | None => raise IndexError
  end.

(** The body of the loop of lines 597-643, for a table name of the work
    dataset. *)
Definition cleanup_work_table (cleanup_table table_name : string) : M unit :=
  if PyStr.startswith table_name cleanup_table && PyStr.endswith table_name "_concept"
  then
    bind (index (PyStr.split_dunder table_name) 0) (fun omop_table =>
    bind (index (PyStr.split_dunder table_name) 1) (fun second =>
    let concept_id_column := PyStr.removesuffix second "_concept" in
    bind (perform (_remove_custom_concepts_from_concept_table_using_usagi_table
                     omop_table concept_id_column)) (fun _ =>
    bind (perform (_remove_custom_concepts_from_concept_relationship_table_using_usagi_table
                     omop_table concept_id_column)) (fun _ =>
    perform (_remove_custom_concepts_from_concept_ancestor_table_using_usagi_table
               omop_table concept_id_column)))))
  else if PyStr.startswith table_name cleanup_table && PyStr.endswith table_name "_usagi"
  then
    bind (index (PyStr.split_dunder table_name) 0) (fun omop_table =>
    bind (index (PyStr.split_dunder table_name) 1) (fun second =>
    let concept_id_column := PyStr.removesuffix second "_usagi" in
    perform (_remove_source_to_concept_map_using_usagi_table
               omop_table concept_id_column)))
  else ret tt.

(** [cleanup(self, cleanup_table)], lines 568-657. *)
Definition cleanup (self : t) (cleanup_table : string) : M unit :=
  bind (perform _get_work_tables) (fun work_tables =>
  bind (if String.eqb cleanup_table "all"
        then
          bind (perform (_truncate_omop_table "source_to_concept_map")) (fun _ =>
          bind (perform _remove_custom_concepts_from_concept_table) (fun _ =>
          bind (perform _remove_custom_concepts_from_concept_relationship_table) (fun _ =>
          perform _remove_custom_concepts_from_concept_ancestor_table)))
        else for_ work_tables (cleanup_work_table cleanup_table)) (fun _ =>
  bind (for_ work_tables (fun table_name =>
          when (String.eqb cleanup_table "all"
                || PyStr.startswith table_name cleanup_table)
               (perform (_delete_work_table table_name)))) (fun _ =>
  for_ (List.filter (fun x => negb (String.eqb x "vocabulary"))
          (fst <$> _omop_tables self))
       (fun table_name =>
          when (String.eqb cleanup_table "all" || String.eqb table_name cleanup_table)
               (perform (_truncate_omop_table table_name)))))).

End Driver.

(** *** Observations on a computation of the driver *)

(** The calls made from state [w], in order. *)
Definition trace {W A} (m : @M W A) (w : W) : list call := (m w).1.2.

(** How the computation ends from state [w]. *)
Definition outcome {W A} (m : @M W A) (w : W) : result A := (m w).2.

(** Every call the computation can make satisfies [P]. *)
Definition calls_satisfy {W A} (P : call → Prop) (m : @M W A) : Prop :=
  ∀ w, Forall P (trace m w).

(** The two concept-mapping stages. *)
Definition is_concept_call (c : call) : bool :=
  match c with
  | _upload_custom_concepts _ _ | _apply_usagi_mapping _ _ => true
  | _ => false
  end.

(** The concept-mapping calls for the given columns of a table, in order. *)
Definition concept_calls (omop_table_name : string) (columns : list string) : list call :=
  flat_map (fun c => [_upload_custom_concepts omop_table_name (PyStr.lower c);
                      _apply_usagi_mapping omop_table_name (PyStr.lower c)])
           columns.

(** *** A collaborator for the examples: no state; every call succeeds
    with the configured answer unless [fails] says it raises. *)
Definition example_handler (column_names : string → list string)
    (auto_numbering : string → bool) (files : string → string → list string)
    (work_tables : list string) (fails : call → option pyexn)
  : ∀ c : call, unit → unit * result (answer c) :=
  fun c w =>
    match fails c with
    | Some e => (w, Raise e)
    | None =>
        (w, match c return result (answer c) with
            | date_today => Return 0
            | _get_column_names t => Return (column_names t)
            | _is_pk_auto_numbering t _ => Return (auto_numbering t)
            | glob_glob t e => Return (files t e)
            | _get_work_tables => Return work_tables
            | _upload_custom_concepts _ _ | _apply_usagi_mapping _ _
            | _execute_query_from_sql_file_and_store_results_in_work_table _ _
            | _swap_primary_key_auto_numbering_column _ | _merge_into_omop_table _
            | _source_to_concept_map_update_invalid_reason _
            | _truncate_omop_table _
            | _remove_custom_concepts_from_concept_table
            | _remove_custom_concepts_from_concept_relationship_table
            | _remove_custom_concepts_from_concept_ancestor_table
            | _remove_custom_concepts_from_concept_table_using_usagi_table _ _
            | _remove_custom_concepts_from_concept_relationship_table_using_usagi_table _ _
            | _remove_custom_concepts_from_concept_ancestor_table_using_usagi_table _ _
            | _remove_source_to_concept_map_using_usagi_table _ _
            | _delete_work_table _ => Return tt
            end)
    end.

Definition example_infer : string → string → fk_columns → result fk_columns :=
  fun _ _ fks => Return fks.

(** Three of the attributes every object has. *)
Definition example_object_attribute : string → bool :=
  fun name => bool_decide (name ∈ ["__class__"; "__dict__"; "__doc__"]).

End Etl.

(** A three-table schema file and a run over it. *)
Definition example_omop_tables : list (string * Etl.table_props) :=
  [ ("person", Etl.mk_props (Some "person_id") None None);
    ("vocabulary", Etl.mk_props (Some "vocabulary_id") None None);
    ("visit_occurrence",
      Etl.mk_props (Some "visit_occurrence_id")
        (Some [("person_id", ("person", "person_id"))]) None) ].

Definition example_etl (skip : option bool) : Etl.t :=
  Etl.mk None skip example_omop_tables.

Definition example_columns (t : string) : list string :=
  if String.eqb t "person"
  then ["person_id"; "gender_concept_id"; "gender_source_value"; "gender_source_concept_id"]
  else if String.eqb t "visit_occurrence"
  then ["visit_occurrence_id"; "person_id"; "visit_concept_id"]
  else ["vocabulary_id"; "vocabulary_concept_id"].

Definition example_files (t e : string) : list string :=
  if String.eqb e "*.sql" then [String.append t "/b.sql"; String.append t "/a.sql"] else [].

Definition example_auto_numbering (t : string) : bool :=
  negb (String.eqb t "vocabulary").

Definition no_failure : Etl.call → option pyexn := fun _ => None.

(** The warehouse rejects reading the columns of [vocabulary]. *)
Definition executor_error : Etl.call → option pyexn :=
  fun c =>
    match c with
    | Etl._get_column_names t =>
        if String.eqb t "vocabulary" then Some (Exception "executor error") else None
    | _ => None
    end.


(** *** The predicates the driver's properties are stated with *)

Module EtlSpec.
Import Etl.

(** What [cleanup] may truncate for the requested scope: never
    [vocabulary]; [source_to_concept_map] when everything is cleaned; and
    the tables of the schema file that the scope covers. *)
Definition truncation_allowed (self : t) (cleanup_table : string) (c : call) : Prop :=
  match c with
  | _truncate_omop_table table_name =>
      table_name ≠ "vocabulary" ∧
      ((cleanup_table = "all" ∧ table_name = "source_to_concept_map") ∨
       (table_name ∈ (fst <$> _omop_tables self) ∧
        (cleanup_table = "all" ∨ table_name = cleanup_table)))
  | _ => True
  end.


End EtlSpec.

(** ** The class [BigQuery] *)

Module BigQuery.

(** [_is_pk_auto_numbering(self, omop_table_name, omop_table_props)],
    lines 129-141.  [get_column_metadata table column] stands for
    [self._gcp.get_column_metadata(project, dataset, table, column)], the
    dictionary describing the column in the warehouse. *)
Definition _is_pk_auto_numbering
    (get_column_metadata : string → string → gmap string string)
    (omop_table_name : string) (omop_table_props : Etl.table_props) : result bool :=
  match Etl.pk omop_table_props with
  | None => Raise (AttributeError "pk")
  | Some pk =>
      let pk_column_metadata := get_column_metadata omop_table_name pk in
      Return (bool_decide (pk_column_metadata !! "data_type" = Some "INT64"))
  end.

End BigQuery.

(** The field catalog of the example: [vocabulary] has a text key. *)
Definition pk_row (table field datatype : string) : FieldRow :=
  {| cdmTableName := table; cdmFieldName := field; isRequired := Some "Yes";
     cdmDatatype := Some datatype; isPrimaryKey := Some "Yes";
     isForeignKey := Some "No"; fkTableName := None; fkFieldName := None |}.

Definition example_base : EtlBase.t :=
  etl_base_of [mkTableRow "PERSON" (Some "CDM"); mkTableRow "VOCABULARY" (Some "VOCAB")]
    [pk_row "PERSON" "person_id" "integer"; pk_row "VOCABULARY" "vocabulary_id" "varchar(20)"].


(** ** Custom concept identifiers *)

Module ConceptIds.

(** [Etl._CUSTOM_CONCEPT_IDS_START], passed to the id-assigning query as
    [min_custom_concept_id] (bigquery.py, line 182). *)
Definition _CUSTOM_CONCEPT_IDS_START : Z := 2000000000.

(** Modelled from the spec: the query [CONCEPT_ID_swap_merge.sql.jinja] run
    by [_give_custom_concepts_an_unique_id_above_2bilj], which is not among
    the sources.  The specification says of it ([registerCustomConcepts]):
    "assigns each record a new surrogate id strictly greater than all
    previously assigned ids in the reserved space and greater than
    2,000,000,000".  [assigned] holds the identifiers assigned so far. *)
Definition next_id (assigned : list Z) : Z :=
  (1 + foldr Z.max _CUSTOM_CONCEPT_IDS_START assigned)%Z.

(** Modelled from the spec: [registerCustomConcepts(records)], one record
    after the other; returns the records with their identifiers and the
    identifiers assigned so far. *)
Fixpoint registerCustomConcepts {R : Type} (records : list R) (assigned : list Z)
  : list (R * Z) * list Z :=
  match records with
  | [] => ([], assigned)
  | r :: records' =>
      let id := next_id assigned in
      let '(out, assigned') := registerCustomConcepts records' (id :: assigned) in
      ((r, id) :: out, assigned')
  end.

End ConceptIds.


(** ** Further notions for the resolver *)

Module Layers.
Import Resolver Graph.

(** No table is placed later than its foreign keys require: the first tier
    holds the tables with an entry and no foreign key, a table with an entry
    placed in a later tier has a foreign key to the tier just before, and a
    table without an entry (only referred to) is placed in the second tier. *)
Record tight (g0 : graph) (tree : list (list string)) : Prop := {
  tight_first : ∀ x, in_tier tree 0 x ↔ g0 !! x = Some ∅;
  tight_next : ∀ i x, in_tier tree (S i) x → x ∈ dom g0 →
                      ∃ fk, edge g0 x fk ∧ in_tier tree i fk;
  tight_targets : ∀ i x, in_tier tree i x → x ∉ dom g0 → i = 1;
}.

(** What the loop keeps for that: a table left without foreign key refers to
    the tier added last, and from the second iteration on every table still
    referred to has an entry. *)
Record peel_tight (g0 : graph) (tree : list (list string)) (d : graph) : Prop := {
  pt_last : ∀ k, d !! k = Some ∅ →
                 ∃ fk tier, edge g0 k fk ∧ last tree = Some tier ∧ fk ∈ tier;
  pt_values : 1 < length tree → ∀ k s x, d !! k = Some s → x ∈ s → x ∈ dom g0;
}.

(** The tiers after the first list at least one table each. *)
Definition later_tiers_nonempty (tree : list (list string)) : Prop :=
  ∀ i tier, tree !! S i = Some tier → tier ≠ [].

End Layers.

(** ** The catalog queries of [EtlBase] *)

(** polars data types named by [_get_polars_type]. *)
Inductive polars_type : Type := Int64 | Datetime | Utf8 | Float64.

#[global] Instance polars_type_eq_dec : EqDecision polars_type.
Proof. solve_decision. Defined.

(** The outcome of the two schema methods: a value, or [ValueError] with
    its message. *)
Inductive schema_result (A : Type) : Type :=
  | Ok (a : A)
  | ValueError (msg : string).
Arguments Ok {A} a.
Arguments ValueError {A} msg.

Module Catalog.

(** [pl.col("cdmTableName").str.to_lowercase() == omop_table_name], the
    row filter all the queries share. *)
Definition of_table (omop_table_name : string) (r : FieldRow) : bool :=
  String.eqb (PyStr.lower (cdmTableName r)) omop_table_name.

(** [_get_omop_column_names(self, omop_table_name)], lines 190-202. *)
Definition _get_omop_column_names (self : EtlBase.t) (omop_table_name : string)
  : list string :=
  cdmFieldName <$> List.filter (of_table omop_table_name) (EtlBase._df_omop_fields self).

(** [_get_required_omop_column_names(self, omop_table_name)], lines 204-216. *)
Definition _get_required_omop_column_names (self : EtlBase.t) (omop_table_name : string)
  : list string :=
  cdmFieldName <$>
    List.filter (fun r => of_table omop_table_name r && cell_is (isRequired r) "Yes")
      (EtlBase._df_omop_fields self).

(** [dict(rows)]: a later pair overwrites an earlier one with the same key. *)
Definition dict {V : Type} (rows : list (string * V)) : gmap string V :=
  foldl (fun d kv => <[kv.1 := kv.2]> d) ∅ rows.

(** The row filter of [_get_fks], lines 271-273.  A null [fkTableName]
    makes the third comparison null, and the filter drops the row. *)
Definition is_fk_row (omop_table_name : string) (r : FieldRow) : bool :=
  of_table omop_table_name r
  && cell_is (isForeignKey r) "Yes"
  && match fkTableName r with
     | Some fk => negb (String.eqb (PyStr.lower fk) "concept")
     | None => false
     end.

(** [_get_fks(self, omop_table_name)], lines 260-279: column name to the
    lower-cased name of the referenced table. *)
Definition _get_fks (self : EtlBase.t) (omop_table_name : string) : gmap string string :=
  dict (omap (fun r => (fun fk => (cdmFieldName r, PyStr.lower fk)) <$> fkTableName r)
          (List.filter (is_fk_row omop_table_name) (EtlBase._df_omop_fields self))).

(** The cases of [_get_polars_type], lines 308-349, in the order of the
    [match] statement. *)
Definition polars_types : list (string * polars_type) :=
  [ ("integer", Int64); ("datetime", Datetime); ("varchar(50)", Utf8);
    ("date", Utf8); ("Integer", Int64); ("varchar(20)", Utf8);
    ("float", Float64); ("varchar(MAX)", Utf8); ("varchar(255)", Utf8);
    ("varchar(10)", Utf8); ("varchar(60)", Utf8); ("varchar(250)", Utf8);
    ("varchar(1)", Utf8); ("varchar(2000)", Utf8); ("varchar(2)", Utf8);
    ("varchar(9)", Utf8); ("varchar(80)", Utf8); ("varchar(3)", Utf8);
    ("varchar(25)", Utf8); ("varchar(1000)", Utf8) ].

(** [f"{cdmDatatype}"]: a null cell is Python's [None]. *)
Definition str_of_cell (c : cell) : string := default "None" c.

(** [_get_polars_type(self, cdmDatatype)], lines 307-351: the first case
    that matches, [ValueError] when none does. *)
Definition _get_polars_type (cdmDatatype : cell) : schema_result polars_type :=
  match List.find (fun case => cell_is cdmDatatype case.1) polars_types with
  | Some case => Ok case.2
  | None => ValueError (String.append "Unknown cdmDatatype: " (str_of_cell cdmDatatype))
  end.

(** The loop of lines 360-361 over the rows of the table. *)
Fixpoint schema_of_rows (rows : list FieldRow) (polars_schema : gmap string polars_type)
  : schema_result (gmap string polars_type) :=
  match rows with
  | [] => Ok polars_schema
  | r :: rows' =>
      match _get_polars_type (cdmDatatype r) with
      | Ok ty => schema_of_rows rows' (<[cdmFieldName r := ty]> polars_schema)
      | ValueError msg => ValueError msg
      end
  end.

(** [_get_polars_schema_for_cdm_table(self, vocabulary_table)], lines 353-362. *)
Definition _get_polars_schema_for_cdm_table (self : EtlBase.t) (vocabulary_table : string)
  : schema_result (gmap string polars_type) :=
  schema_of_rows (List.filter (of_table vocabulary_table) (EtlBase._df_omop_fields self)) ∅.

(** [' ' * spacer] *)
Definition spaces (spacer : nat) : string :=
  string_of_list_ascii (replicate spacer " "%char).

(** One line of the printed tree, line 185. *)
Definition tree_line (spacer : nat) (last : bool) (table : string) : string :=
  String.append (spaces spacer)
    (String.append (if last then "└──" else "├──") (PyStr.lower table)).

(** The loop of lines 182-187: the lines of the levels from [spacer] on. *)
Fixpoint tree_lines (levels : list (list string)) (spacer : nat) : list string :=
  match levels with
  | [] => []
  | level :: levels' =>
      imap (fun idx table => tree_line spacer (bool_decide (idx = length level - 1)) table)
           level
      ++ tree_lines levels' (spacer + 2)
  end.

(** [print_cdm_tables_fks_dependencies_tree(self)], lines 178-188. *)
Definition print_cdm_tables_fks_dependencies_tree (self : EtlBase.t) : string :=
  String.concat (String "010" EmptyString)
    (tree_lines (EtlBase._cdm_tables_fks_dependencies_resolved self) 0).

End Catalog.

(** *** The catalog and the working set *)

Module Spelling.
Import Resolver.

(** No two tables of the working set differ by case only. *)
Definition case_unique (tables : list string) : Prop :=
  NoDup (PyStr.lower <$> tables).

(** The foreign keys the selected rows of the catalog declare for the
    table whose lower-cased name is [k], self references removed. *)
Definition declared_fks (fields : list FieldRow) (tables : list string) (k : string)
  : gset string :=
  list_to_set
    (PyStr.lower <$>
       omap fkTableName
         (List.filter (fun r => fk_row_selected tables r
                                && String.eqb (PyStr.lower (cdmTableName r)) k)
            fields))
  ∖ {[k]}.

(** Row [r] writes the table whose lower-cased name is [k] the way the
    working set does, as its own table and as the target of its foreign
    key. *)
Definition written_as_in (tables : list string) (k : string) (r : FieldRow) : Prop :=
  (PyStr.lower (cdmTableName r) = k → cdmTableName r ∈ tables) ∧
  (∀ fk, fkTableName r = Some fk → PyStr.lower fk = k → fk ∈ tables).

#[global] Instance written_as_in_dec tables k r : Decision (written_as_in tables k r).
Proof.
  unfold written_as_in. destruct (fkTableName r) as [fk|].
  - destruct (decide (PyStr.lower (cdmTableName r) = k → cdmTableName r ∈ tables));
      [|right; tauto].
    destruct (decide (PyStr.lower fk = k → fk ∈ tables)).
    + left. split; [done|]. by intros ? [= <-].
    + right. intros [_ H]. eauto.
  - destruct (decide (PyStr.lower (cdmTableName r) = k → cdmTableName r ∈ tables));
      [left|right; tauto].
    split; [done|]. by intros.
Defined.

End Spelling.

(** ** Observations on the calls of the driver *)

Module Observe.
Import Etl.

(** The work table a call deletes. *)
Definition deleted (c : call) : option string :=
  match c with
  | _delete_work_table work_table => Some work_table
  | _ => None
  end.

(** The table a call truncates. *)
Definition truncated (c : call) : option string :=
  match c with
  | _truncate_omop_table table_name => Some table_name
  | _ => None
  end.

(** The table whose columns a call reads. *)
Definition column_names_call (c : call) : option string :=
  match c with
  | _get_column_names omop_table_name => Some omop_table_name
  | _ => None
  end.

(** The table a call of [_process_omop_folder] is made for. *)
Definition call_table (c : call) : option string :=
  match c with
  | _get_column_names t | _is_pk_auto_numbering t _
  | _upload_custom_concepts t _ | _apply_usagi_mapping t _ | glob_glob t _
  | _execute_query_from_sql_file_and_store_results_in_work_table _ t => Some t
  | _swap_primary_key_auto_numbering_column args | _merge_into_omop_table args =>
      Some (omop_table args)
  | _ => None
  end.

(** The three stages a query file goes through. *)
Inductive stage : Type := Execute | Swap | Merge.

#[global] Instance stage_eq_dec : EqDecision stage.
Proof. solve_decision. Defined.

(** The stage a call runs, and the query file it runs it for. *)
Definition file_stage (c : call) : option (stage * string) :=
  match c with
  | _execute_query_from_sql_file_and_store_results_in_work_table f _ => Some (Execute, f)
  | _swap_primary_key_auto_numbering_column args => Some (Swap, sql_file args)
  | _merge_into_omop_table args => Some (Merge, sql_file args)
  | _ => None
  end.

(** The stages of one query file, with or without the key swap. *)
Definition file_stages (pk_auto_numbering : bool) (f : string) : list (stage * string) :=
  (Execute, f) :: (if pk_auto_numbering then [(Swap, f)] else []) ++ [(Merge, f)].


(** The tables the calls of a run are made for, in the order of the calls. *)
Definition table_sequence (tr : list call) : list string := omap call_table tr.

(** Every call for [t1] is made before every call for [t2]. *)
Definition precedes (t1 t2 : string) (ts : list string) : Prop :=
  ∀ i j, ts !! i = Some t2 → ts !! j = Some t1 → j < i.

(** The schema file declares a foreign key of table [t1] to table [t2]. *)
Definition depends_on (self : t) (t1 t2 : string) : Prop :=
  ∃ props column ref,
    (t1, props) ∈ _omop_tables self ∧ (column, (t2, ref)) ∈ default [] (fks props).

(** Line 647: the work tables the scope of [cleanup] covers. *)
Definition covers_work_table (cleanup_table table_name : string) : bool :=
  String.eqb cleanup_table "all" || PyStr.startswith table_name cleanup_table.

(** Line 652: the tables of the schema file the scope of [cleanup] covers. *)
Definition covers_omop_table (cleanup_table table_name : string) : bool :=
  String.eqb cleanup_table "all" || String.eqb table_name cleanup_table.

(** The calls of the loop of lines 597-643. *)
Definition is_removal (c : call) : bool :=
  match c with
  | _remove_custom_concepts_from_concept_table_using_usagi_table _ _
  | _remove_custom_concepts_from_concept_relationship_table_using_usagi_table _ _
  | _remove_custom_concepts_from_concept_ancestor_table_using_usagi_table _ _
  | _remove_source_to_concept_map_using_usagi_table _ _ => true
  | _ => false
  end.

End Observe.

(** The names [BigQuery] gives to the upload tables of the work dataset. *)
Module WorkTables.

(** bigquery.py, lines 149 and 170: [f"{omop_table}__{concept_id_column}_concept"]. *)
Definition custom_concept_upload_table (omop_table concept_id_column : string) : string :=
  omop_table +:+ "__" +:+ concept_id_column +:+ "_concept".

(** bigquery.py, lines 203 and 228: [f"{omop_table}__{concept_id_column}_usagi"]. *)
Definition usagi_upload_table (omop_table concept_id_column : string) : string :=
  omop_table +:+ "__" +:+ concept_id_column +:+ "_usagi".

End WorkTables.

(** A schema file and a run restricted to one table. *)
Definition example_etl_only (name : string) : Etl.t :=
  Etl.mk (Some name) None example_omop_tables.

Definition example_work_tables : list string :=
  [ "person_a"; "person__gender_concept_id_concept"; "person__gender_concept_id_usagi";
    "visit_occurrence_b" ].

(** ** The stages of [Etl] *)

(** The bodies of the stage methods of etl.py that the driver above treats
    as single calls.  Their collaborators are the abstract methods of the
    storage-specific subclass and the libraries [glob], [pyarrow] and
    [tempfile]. *)
Module Stage.

(** [os.path.join(d, f)] is kept as the pair of its two arguments. *)
Definition path : Type := string * string.

(** The arguments of [_execute_pk_auto_numbering_swap_query]. *)
Record swap_query_args : Type := mk_swap_query {
  sq_omop_table : string;
  sq_work_table : string;
  sq_columns : list string;
  sq_pk_swap_table_name : string;
  sq_primary_key_column : string;
  sq_pk_auto_numbering : bool;
  sq_foreign_key_columns : Etl.fk_columns;
  sq_concept_id_columns : list string;
}.

Section Stages.
(** A row of an Arrow table; an Arrow table is the list of its rows, and
    [pa.concat_tables] appends the rows. *)
Context {Row : Type}.

Inductive call : Type :=
  | _clear_custom_concept_upload_table (omop_table concept_id_column : string)
  | _create_custom_concept_id_swap_table
  | glob_glob (pattern : string)
  | _convert_concept_csv_to_arrow_table (concept_csv_file : string)
  | TemporaryDirectory
  | TemporaryDirectory_cleanup (temp_dir : string)
  | pq_write_table (ar_table : list Row) (parquet_file : path)
  | _load_custom_concepts_parquet_in_upload_table
      (parquet_file : path) (omop_table concept_id_column : string)
  | _give_custom_concepts_an_unique_id_above_2bilj (omop_table concept_id_column : string)
  | _merge_custom_concepts_with_the_omop_concepts (omop_table concept_id_column : string)
  | _clear_usagi_upload_table (omop_table concept_id_column : string)
  | _create_usagi_upload_table (omop_table concept_id_column : string)
  | _convert_usagi_csv_to_arrow_table (usagi_csv_file : string)
  | _load_usagi_parquet_in_upload_table
      (parquet_file : path) (omop_table concept_id_column : string)
  | _swap_usagi_source_value_for_concept_id (omop_table concept_id_column : string)
  | _store_usagi_source_value_to_concept_id_mapping (omop_table concept_id_column : string)
  | _get_query_from_sql_file (sql_file omop_table : string)
  | _query_into_work_table (work_table select_query : string)
  | _create_pk_auto_numbering_swap_table
      (pk_swap_table_name : string) (concept_id_columns : list string)
  | _execute_pk_auto_numbering_swap_query (args : swap_query_args).

(** What a call returns. *)
Definition answer (c : call) : Type :=
  match c with
  | glob_glob _ => list string
  | _convert_concept_csv_to_arrow_table _ | _convert_usagi_csv_to_arrow_table _ => list Row
  | TemporaryDirectory => string
  | _get_query_from_sql_file _ _ => string
  | _ => unit
  end.

(** The state of the collaborators and how they answer a call. *)
Context {W : Type}.
Variable handler : ∀ c : call, W → W * result (answer c).
(** [Path(Path(sql_file).stem).stem], the name of the query file without
    its directory and its (at most two) extensions. *)
Variable stem : string → string.

(** A computation of a stage: the new state of the collaborators, the
    calls made in order, and the outcome. *)
Definition M (A : Type) : Type := W → W * list call * result A.

Definition ret {A} (a : A) : M A := fun w => (w, [], Return a).

Definition bind {A B} (m : M A) (f : A → M B) : M B :=
  fun w =>
    match m w with
    | (w1, tr1, Return a) =>
        match f a w1 with
        | (w2, tr2, r) => (w2, tr1 ++ tr2, r)
        end
    | (w1, tr1, Raise e) => (w1, tr1, Raise e)
    end.

Definition perform (c : call) : M (answer c) :=
  fun w => match handler c w with (w', r) => (w', [c], r) end.

(** [with tempfile.TemporaryDirectory() as temp_dir: body]: the directory
    is removed when the block is left, also by an exception; an exception
    of the removal replaces the outcome of the block. *)
Definition with_TemporaryDirectory {A} (body : string → M A) : M A :=
  bind (perform TemporaryDirectory) (fun temp_dir =>
  fun w =>
    match body temp_dir w with
    | (w1, tr1, r) =>
        match perform (TemporaryDirectory_cleanup temp_dir) w1 with
        | (w2, tr2, Return _) => (w2, tr1 ++ tr2, r)
        | (w2, tr2, Raise e) => (w2, tr1 ++ tr2, Raise e)
        end
    end).

(** Python truthiness of [ar_table]: [None] is false, and so is an Arrow
    table without rows (its [__len__] is 0). *)
Definition truthy (ar_table : option (list Row)) : bool :=
  match ar_table with
  | Some (_ :: _) => true
  | _ => false
  end.

(** The loops of lines 275-294 and 350-369: every CSV file is converted
    and its table becomes [ar_table], or is concatenated to it. *)
Fixpoint concat_csv_files (convert : string → M (list Row)) (files : list string)
    (ar_table : option (list Row)) : M (option (list Row)) :=
  match files with
  | [] => ret ar_table
  | csv_file :: files' =>
      bind (convert csv_file) (fun ar_temp_table =>
      concat_csv_files convert files'
        (Some (if negb (truthy ar_table) then ar_temp_table
               else default [] ar_table ++ ar_temp_table)))
  end.

(** [_upload_custom_concepts(self, omop_table, concept_id_column)],
    lines 253-326 (logging left out). *)
Definition _upload_custom_concepts (omop_table concept_id_column : string) : M unit :=
  bind (perform (_clear_custom_concept_upload_table omop_table concept_id_column)) (fun _ =>
  bind (perform _create_custom_concept_id_swap_table) (fun _ =>
  bind (perform (glob_glob (omop_table +:+ "/" +:+ concept_id_column
                              +:+ "/custom/*_concept.csv"))) (fun files =>
  bind (concat_csv_files
          (fun concept_csv_file =>
             perform (_convert_concept_csv_to_arrow_table concept_csv_file))
          (Etl.sorted_list files) None) (fun ar_table =>
  if negb (truthy ar_table) then ret tt
  else
    bind (with_TemporaryDirectory (fun temp_dir =>
            let parquet_file :=
              (temp_dir, omop_table +:+ "__" +:+ concept_id_column +:+ "_concept.parquet") in
            bind (perform (pq_write_table (default [] ar_table) parquet_file)) (fun _ =>
            perform (_load_custom_concepts_parquet_in_upload_table
                       parquet_file omop_table concept_id_column)))) (fun _ =>
    bind (perform (_give_custom_concepts_an_unique_id_above_2bilj
                     omop_table concept_id_column)) (fun _ =>
    perform (_merge_custom_concepts_with_the_omop_concepts
               omop_table concept_id_column))))))).

(** [_apply_usagi_mapping(self, omop_table, concept_id_column)],
    lines 328-400 (logging left out). *)
Definition _apply_usagi_mapping (omop_table concept_id_column : string) : M unit :=
  bind (perform (_clear_usagi_upload_table omop_table concept_id_column)) (fun _ =>
  bind (perform (_create_usagi_upload_table omop_table concept_id_column)) (fun _ =>
  bind (perform (glob_glob (omop_table +:+ "/" +:+ concept_id_column
                              +:+ "/*_usagi.csv"))) (fun files =>
  bind (concat_csv_files
          (fun usagi_csv_file =>
             perform (_convert_usagi_csv_to_arrow_table usagi_csv_file))
          (Etl.sorted_list files) None) (fun ar_table =>
  if negb (truthy ar_table) then ret tt
  else
    bind (with_TemporaryDirectory (fun temp_dir =>
            let parquet_file :=
              (temp_dir, omop_table +:+ "__" +:+ concept_id_column +:+ "_usagi.parquet") in
            bind (perform (pq_write_table (default [] ar_table) parquet_file)) (fun _ =>
            perform (_load_usagi_parquet_in_upload_table
                       parquet_file omop_table concept_id_column)))) (fun _ =>
    bind (perform (_swap_usagi_source_value_for_concept_id
                     omop_table concept_id_column)) (fun _ =>
    perform (_store_usagi_source_value_to_concept_id_mapping
               omop_table concept_id_column))))))).

(** [f"{omop_table}_{Path(Path(sql_file).stem).stem}"], lines 424 and 456. *)
Definition work_table_of (omop_table sql_file : string) : string :=
  omop_table +:+ "_" +:+ stem sql_file.

(** [_execute_query_from_sql_file_and_store_results_in_work_table(self,
    sql_file, omop_table)], lines 402-425. *)
Definition _execute_query_from_sql_file_and_store_results_in_work_table
    (sql_file omop_table : string) : M unit :=
  bind (perform (_get_query_from_sql_file sql_file omop_table)) (fun select_query =>
  let work_table := work_table_of omop_table sql_file in
  perform (_query_into_work_table work_table select_query)).

(** [_swap_primary_key_auto_numbering_column(self, ...)], lines 427-466. *)
Definition _swap_primary_key_auto_numbering_column
    (sql_file omop_table : string) (columns : list string)
    (pk_swap_table_name primary_key_column : string) (pk_auto_numbering : bool)
    (foreign_key_columns : Etl.fk_columns) (concept_id_columns : list string) : M unit :=
  bind (perform (_create_pk_auto_numbering_swap_table
                   pk_swap_table_name concept_id_columns)) (fun _ =>
  let work_table := work_table_of omop_table sql_file in
  perform (_execute_pk_auto_numbering_swap_query
             (mk_swap_query omop_table work_table columns pk_swap_table_name
                primary_key_column pk_auto_numbering foreign_key_columns
                concept_id_columns))).

End Stages.

(** *** Observations on a computation of a stage *)

Definition trace {Row W A} (m : @M Row W A) (w : W) : list call := (m w).1.2.

Definition outcome {Row W A} (m : @M Row W A) (w : W) : result A := (m w).2.

(** The calls that prepare an upload: clearing and creating the tables,
    listing the CSV files and converting them. *)
Definition is_preparation {Row} (c : @call Row) : bool :=
  match c with
  | _clear_custom_concept_upload_table _ _ | _create_custom_concept_id_swap_table
  | glob_glob _ | _convert_concept_csv_to_arrow_table _
  | _clear_usagi_upload_table _ _ | _create_usagi_upload_table _ _
  | _convert_usagi_csv_to_arrow_table _ => true
  | _ => false
  end.

(** *** A collaborator for the examples: the file system lists [files],
    a CSV file is converted into the rows [content] gives for it, the
    temporary directory is "/tmp/x", and no call raises. *)
Definition example_handler (files : list string) (content : string → list string)
  : ∀ c : @call string, unit → unit * result (answer c) :=
  fun c w =>
    (w, match c return result (answer c) with
        | glob_glob _ => Return files
        | _convert_concept_csv_to_arrow_table f | _convert_usagi_csv_to_arrow_table f =>
            Return (content f)
        | TemporaryDirectory => Return "/tmp/x"
        | _get_query_from_sql_file _ _ => Return "select 1"
        | _clear_custom_concept_upload_table _ _ | _create_custom_concept_id_swap_table
        | TemporaryDirectory_cleanup _ | pq_write_table _ _
        | _load_custom_concepts_parquet_in_upload_table _ _ _
        | _give_custom_concepts_an_unique_id_above_2bilj _ _
        | _merge_custom_concepts_with_the_omop_concepts _ _
        | _clear_usagi_upload_table _ _ | _create_usagi_upload_table _ _
        | _load_usagi_parquet_in_upload_table _ _ _
        | _swap_usagi_source_value_for_concept_id _ _
        | _store_usagi_source_value_to_concept_id_mapping _ _
        | _query_into_work_table _ _ | _create_pk_auto_numbering_swap_table _ _
        | _execute_pk_auto_numbering_swap_query _ => Return tt
        end).

End Stage.

(** Two CSV files of custom concepts, the second listed first. *)
Definition example_csv_files : list string := ["b_concept.csv"; "a_concept.csv"].

Definition example_csv_content (f : string) : list string :=
  if String.eqb f "a_concept.csv" then ["sex/M"; "sex/F"]
  else if String.eqb f "b_concept.csv" then ["sex/U"]
  else [].

(** ** The foreign keys the catalog declares within a working set *)

Module Declared.

(** Row [r] is within the working set: it is a row of one of its tables,
    and the foreign key it declares, if any, refers to one of its tables
    (both written as the working set writes them). *)
Definition within (tables : list string) (r : FieldRow) : Prop :=
  cdmTableName r ∈ tables ∧ ∀ fk, fkTableName r = Some fk → fk ∈ tables.

(** The catalog has a row within the working set for the table whose
    lower-cased name is [x]. *)
Definition has_row (fields : list FieldRow) (tables : list string) (x : string) : Prop :=
  ∃ r, r ∈ fields ∧ within tables r ∧ PyStr.lower (cdmTableName r) = x.

(** [foreign_key fields tables a b]: a row within the working set declares a
    foreign key of table [a] to another table [b] (names in lower case). *)
Definition foreign_key (fields : list FieldRow) (tables : list string)
  : relation string :=
  fun a b =>
    a ≠ b ∧
    ∃ r fk, r ∈ fields ∧ within tables r ∧ PyStr.lower (cdmTableName r) = a ∧
            fkTableName r = Some fk ∧ PyStr.lower fk = b.

(** No table reaches itself along one or more declared foreign keys. *)
Definition acyclic (fields : list FieldRow) (tables : list string) : Prop :=
  ∀ x, ¬ tc (foreign_key fields tables) x x.

(** The tables the rows within the working set speak of: a table with such
    a row, or the target of a foreign key to another table. *)
Definition listed (fields : list FieldRow) (tables : list string) (x : string) : Prop :=
  has_row fields tables x ∨ ∃ a, foreign_key fields tables a x.

End Declared.

(** A working set of one table whose only row refers to a table outside
    the working set. *)
Definition outside_fields : list FieldRow :=
  [ fk_row "A" "x_concept_id" (Some "CONCEPT") ].

Definition outside_tables : list string := ["A"].

Definition outside_self : EtlBase.t :=
  etl_base_of [mkTableRow "A" (Some "CDM"); mkTableRow "CONCEPT" (Some "VOCAB")]
    outside_fields.

(** A working set with two tables whose names differ by case only. *)
Definition case_clash_fields : list FieldRow :=
  [ fk_row "A" "b_id" (Some "B");
    fk_row "a" "a_id" None;
    fk_row "B" "b_id" None ].

Definition case_clash_tables : list string := ["A"; "a"; "B"].

Definition case_clash_self : EtlBase.t :=
  etl_base_of [mkTableRow "A" (Some "CDM"); mkTableRow "a" (Some "CDM");
               mkTableRow "B" (Some "CDM")] case_clash_fields.


(** A schema file that lists [visit_occurrence] before [person], the table
    its foreign key refers to. *)
Definition dependent_first_tables : list (string * Etl.table_props) :=
  [ ("visit_occurrence",
      Etl.mk_props (Some "visit_occurrence_id")
        (Some [("person_id", ("person", "person_id"))]) None);
    ("person", Etl.mk_props (Some "person_id") None None) ].

Definition dependent_first_etl : Etl.t :=
  Etl.mk None None dependent_first_tables.
(** * Properties *)

(** ** The definitions on concrete inputs *)

Example lower_NOTE_NLP : PyStr.lower "NOTE_NLP" = "note_nlp".
Proof. reflexivity. Qed.

Example split_dunder_ex :
  PyStr.split_dunder "person__gender_concept_id_usagi" = ["person"; "gender_concept_id_usagi"].
Proof. reflexivity. Qed.

Example split_dunder_three : PyStr.split_dunder "a___b" = ["a"; "_b"].
Proof. reflexivity. Qed.

Example removesuffix_ex :
  PyStr.removesuffix "gender_concept_id_usagi" "_usagi" = "gender_concept_id".
Proof. reflexivity. Qed.

Example sorted_ex :
  PyStr.sorted {[ "visit_occurrence"; "person"; "care_site" ]}
  = ["care_site"; "person"; "visit_occurrence"].
Proof. vm_compute. reflexivity. Qed.

Example scenario_A :
  Resolver.build_tree scenario_A_fields scenario_A_tables
  = Some (Return [["person"]; ["visit_occurrence"]; ["condition_occurrence"]]).
Proof. vm_compute. reflexivity. Qed.

Example cyclic_raises :
  Resolver.build_tree cyclic_fields cyclic_tables
  = Some (Raise Resolver.circular_reference).
Proof. vm_compute. reflexivity. Qed.

Example init_note_tiers :
  (fun r => match r with
            | Some (Return self) => Some (EtlBase._cdm_tables_fks_dependencies_resolved self)
            | _ => None
            end) (EtlBase.__init__ scenario_A_table_level note_field_level)
  = Some [["person"]; ["note"; "visit_occurrence"]; ["condition_occurrence"; "note_nlp"]].
Proof. vm_compute. reflexivity. Qed.

Example run_example :
  Etl.trace (Etl.run (Etl.example_handler example_columns example_auto_numbering
                        (fun _ _ => []) [] no_failure)
               Etl.example_infer Etl.example_object_attribute (example_etl None)) tt
  = [ Etl.date_today;
      Etl._get_column_names "person";
      Etl._is_pk_auto_numbering "person" (Etl.mk_props (Some "person_id") None None);
      Etl._upload_custom_concepts "person" "gender_concept_id";
      Etl._apply_usagi_mapping "person" "gender_concept_id";
      Etl.glob_glob "person" "*.sql"; Etl.glob_glob "person" "*.sql.jinja";
      Etl._get_column_names "vocabulary";
      Etl._is_pk_auto_numbering "vocabulary" (Etl.mk_props (Some "vocabulary_id") None None);
      Etl._upload_custom_concepts "vocabulary" "vocabulary_concept_id";
      Etl._apply_usagi_mapping "vocabulary" "vocabulary_concept_id";
      Etl.glob_glob "vocabulary" "*.sql"; Etl.glob_glob "vocabulary" "*.sql.jinja";
      Etl._get_column_names "visit_occurrence";
      Etl._is_pk_auto_numbering "visit_occurrence"
        (Etl.mk_props (Some "visit_occurrence_id")
           (Some [("person_id", ("person", "person_id"))]) None);
      Etl._upload_custom_concepts "visit_occurrence" "visit_concept_id";
      Etl._apply_usagi_mapping "visit_occurrence" "visit_concept_id";
      Etl.glob_glob "visit_occurrence" "*.sql";
      Etl.glob_glob "visit_occurrence" "*.sql.jinja";
      Etl._source_to_concept_map_update_invalid_reason 0 ].
Proof. vm_compute. reflexivity. Qed.

Example scenario_B :
  (ConceptIds.registerCustomConcepts ["sex/M"; "sex/F"] []).1
  = [("sex/M", 2000000001%Z); ("sex/F", 2000000002%Z)].
Proof. reflexivity. Qed.

(** ** The order of [sorted] *)

Section Sorted.

Lemma sorted_Permutation (t : gset string) : PyStr.sorted t ≡ₚ elements t.
Proof. apply merge_sort_Permutation. Qed.

Lemma elem_of_sorted (t : gset string) (x : string) : x ∈ PyStr.sorted t ↔ x ∈ t.
Proof. by rewrite sorted_Permutation, elem_of_elements. Qed.

Lemma NoDup_sorted (t : gset string) : NoDup (PyStr.sorted t).
Proof. rewrite sorted_Permutation. apply NoDup_elements. Qed.

Lemma StronglySorted_sorted (t : gset string) :
  StronglySorted String.le (PyStr.sorted t).
Proof. apply (StronglySorted_merge_sort _). Qed.

Lemma list_to_set_sorted (t : gset string) :
  list_to_set (PyStr.sorted t) =@{gset string} t.
Proof. apply set_eq. intros x. by rewrite elem_of_list_to_set, elem_of_sorted. Qed.

End Sorted.

(** ** The dependency resolver *)

Section ResolverFacts.
Import Resolver Graph.
Implicit Types (d g : graph) (t P : gset string) (k x : string).

Lemma elem_of_values_union d x :
  x ∈ values_union d ↔ ∃ k s, d !! k = Some s ∧ x ∈ s.
Proof.
  unfold values_union. rewrite elem_of_union_list. split.
  - intros (s & Hs & Hx). apply list_elem_of_fmap in Hs as ([k s'] & -> & Hin).
    apply elem_of_map_to_list in Hin. eauto.
  - intros (k & s & Hk & Hx). exists s. split; [|done].
    apply list_elem_of_fmap. exists (k, s). split; [done|].
    by apply elem_of_map_to_list.
Qed.

Lemma elem_of_keys_without_fks d k :
  k ∈ keys_without_fks d ↔ d !! k = Some ∅.
Proof.
  unfold keys_without_fks. rewrite elem_of_dom. split.
  - intros [s Hs]. apply map_lookup_filter_Some in Hs as [Hs E]. simpl in E. by subst.
  - intros Hk. exists ∅. by apply map_lookup_filter_Some.
Qed.

Lemma lookup_cleaned_up_Some d t k s :
  cleaned_up d t !! k = Some s ↔ ∃ s', d !! k = Some s' ∧ s' ≠ ∅ ∧ s = s' ∖ t.
Proof.
  unfold cleaned_up. rewrite lookup_fmap, fmap_Some. split.
  - intros (s' & Hs' & ->). apply map_lookup_filter_Some in Hs' as [? ?]. eauto.
  - intros (s' & ? & ? & ->). exists s'. split; [|done].
    by apply map_lookup_filter_Some.
Qed.

Lemma lookup_without_tables_Some d no k s :
  without_tables d no !! k = Some s ↔ ∃ s', d !! k = Some s' ∧ (k ∉ no) ∧ s = s' ∖ no.
Proof.
  unfold without_tables. rewrite lookup_fmap, fmap_Some. split.
  - intros (s' & Hs' & ->). apply map_lookup_filter_Some in Hs' as [? ?]. eauto.
  - intros (s' & ? & ? & ->). exists s'. split; [|done].
    by apply map_lookup_filter_Some.
Qed.

Lemma elem_of_next_tier d x :
  x ∈ next_tier d ↔
    ((x ∉ dom d) ∧ ∃ k s, d !! k = Some s ∧ x ∈ s) ∨ d !! x = Some ∅.
Proof.
  unfold next_tier. rewrite elem_of_union, elem_of_difference,
    elem_of_values_union, elem_of_keys_without_fks. tauto.
Qed.

(** *** Termination of the loop *)

Lemma dom_cleaned_up_subseteq d t : dom (cleaned_up d t) ⊆ dom d.
Proof.
  intros k [s Hs]%elem_of_dom. apply lookup_cleaned_up_Some in Hs as (s' & ? & _).
  apply elem_of_dom. eauto.
Qed.

Lemma values_cleaned_up_subseteq d t :
  values_union (cleaned_up d t) ⊆ values_union d ∖ t.
Proof.
  intros x (k & s & Hs & Hx)%elem_of_values_union.
  apply lookup_cleaned_up_Some in Hs as (s' & ? & _ & ->).
  apply elem_of_difference in Hx as [? ?].
  apply elem_of_difference. split; [|done]. apply elem_of_values_union. eauto.
Qed.

Lemma loop_bound_cleaned_up d :
  next_tier d ≠ ∅ → loop_bound (cleaned_up d (next_tier d)) < loop_bound d.
Proof.
  intros Hne. apply set_choose_L in Hne as [x Hx]. unfold loop_bound.
  pose proof (dom_cleaned_up_subseteq d (next_tier d)) as Hk.
  pose proof (values_cleaned_up_subseteq d (next_tier d)) as Hv.
  apply elem_of_next_tier in Hx as Hx'. destruct Hx' as [[Hnk Hval]|Hemp].
  - apply elem_of_values_union in Hval.
    assert (values_union (cleaned_up d (next_tier d)) ⊂ values_union d) as Hlt.
    { split; [set_solver|]. intros Hsub. specialize (Hsub x Hval).
      apply Hv in Hsub. set_solver. }
    apply subset_size in Hlt. apply subseteq_size in Hk. lia.
  - assert (dom (cleaned_up d (next_tier d)) ⊂ dom d) as Hlt.
    { split; [done|]. intros Hsub.
      assert (x ∈ dom d) as Hd by (apply elem_of_dom; eauto).
      apply Hsub, elem_of_dom in Hd as [s Hs].
      apply lookup_cleaned_up_Some in Hs as (s' & ? & ? & _). congruence. }
    apply subset_size in Hlt.
    assert (size (values_union (cleaned_up d (next_tier d))) ≤ size (values_union d)).
    { apply subseteq_size. set_solver. }
    lia.
Qed.

(** From [loop_bound] on, more fuel never changes the outcome: the loop
    always ends, with a tier list or with the exception. *)
Lemma peel_enough_fuel fuel d tree :
  loop_bound d ≤ fuel → ∃ r, peel fuel d tree = Some r.
Proof.
  revert d tree. induction fuel as [|fuel IH]; intros d tree Hb.
  - unfold loop_bound in Hb. lia.
  - simpl. destruct (decide (d = ∅)); [eauto|].
    destruct (decide (next_tier d = ∅)); [eauto|].
    apply IH. pose proof (loop_bound_cleaned_up d ltac:(done)). lia.
Qed.

Lemma peel_raise fuel d tree e :
  peel fuel d tree = Some (Raise e) → e = circular_reference.
Proof.
  revert d tree. induction fuel as [|fuel IH]; intros d tree; simpl; [done|].
  destruct (decide (d = ∅)); [done|].
  destruct (decide (next_tier d = ∅)); [congruence|]. apply IH.
Qed.

End ResolverFacts.

(** *** Tier lists *)

Section Tiers.
Import Resolver Graph.
Implicit Types (tree : list (list string)) (x : string).

Lemma in_tier_placed tree i x : in_tier tree i x → x ∈ placed tree.
Proof.
  intros (tier & Hi & Hx). unfold placed. rewrite elem_of_list_to_set.
  apply list_elem_of_join. exists tier. split; [done|].
  by apply list_elem_of_lookup_2 in Hi.
Qed.

Lemma placed_in_tier tree x : x ∈ placed tree → ∃ i, in_tier tree i x.
Proof.
  unfold placed. rewrite elem_of_list_to_set. intros Hx.
  apply list_elem_of_join in Hx as (tier & Hx & Ht).
  apply list_elem_of_lookup_1 in Ht as [i Hi]. exists i, tier. done.
Qed.

Lemma in_tier_snoc tree tier i x :
  in_tier (tree ++ [tier]) i x ↔
    in_tier tree i x ∨ (i = length tree ∧ x ∈ tier).
Proof.
  unfold in_tier. split.
  - intros (a & Hi & Hx). apply lookup_app_Some in Hi as [Hi|[Hlen Hi]].
    + left. eauto.
    + right. apply list_lookup_singleton_Some in Hi as [Hz ->]. split; [lia|done].
  - intros [(a & Hi & Hx)|[-> Hx]].
    + exists a. split; [|done]. by apply lookup_app_l_Some.
    + exists tier. split; [|done]. rewrite lookup_app_r by lia.
      by replace (length tree - length tree) with 0 by lia.
Qed.

Lemma in_tier_lt tree i x : in_tier tree i x → i < length tree.
Proof. intros (tier & Hi & _). by apply lookup_lt_Some in Hi. Qed.

Lemma placed_snoc tree (t : gset string) :
  placed (tree ++ [PyStr.sorted t]) = placed tree ∪ t.
Proof.
  unfold placed. rewrite join_app, list_to_set_app_L. simpl.
  by rewrite app_nil_r, list_to_set_sorted.
Qed.

(** A table listed once over all tiers is in one tier only. *)
Lemma in_tier_unique tree i j x :
  NoDup (mjoin tree) → in_tier tree i x → in_tier tree j x → i = j.
Proof.
  revert i j. induction tree as [|a tree IH]; intros i j Hnd Hi Hj.
  - by destruct Hi as (? & ? & _).
  - simpl in Hnd. apply NoDup_app in Hnd as (_ & Hdisj & Hnd).
    assert (∀ n, in_tier (a :: tree) (S n) x → x ∈ mjoin tree) as Hrest.
    { intros n (b & Hb & Hx). apply list_elem_of_join. exists b.
      split; [done|]. simpl in Hb. by apply list_elem_of_lookup_2 in Hb. }
    destruct i as [|i], j as [|j]; [done| | |].
    + destruct Hi as (b & [= <-] & Hx). by destruct (Hdisj x Hx (Hrest j Hj)).
    + destruct Hj as (b & [= <-] & Hx). by destruct (Hdisj x Hx (Hrest i Hi)).
    + f_equal. apply IH; [done| |].
      * destruct Hi as (b & Hb & Hx). by exists b.
      * destruct Hj as (b & Hb & Hx). by exists b.
Qed.

End Tiers.

(** *** The loop invariant *)

Section PeelInvariant.
Import Resolver Graph.
Variable g0 : graph.
Implicit Types (d : graph) (t P : gset string) (k x : string)
  (tree : list (list string)).

Lemma fks_of_lookup (g : graph) x s : g !! x = Some s → fks_of g x = s.
Proof. unfold fks_of. by intros ->. Qed.

Lemma edge_lookup (g : graph) a b : edge g a b ↔ ∃ s, g !! a = Some s ∧ b ∈ s.
Proof.
  unfold edge, fks_of. destruct (g !! a) as [s|]; simpl.
  - split; [eauto|]. by intros (? & [= <-] & ?).
  - split; [set_solver|]. by intros (? & ? & _).
Qed.

Lemma peel_inv_init :
  peel_inv g0 (keys_without_fks g0) (without_tables g0 (keys_without_fks g0)).
Proof.
  split.
  - intros k s (s' & ? & _ & ->)%lookup_without_tables_Some. eauto.
  - intros k [s Hs]%elem_of_dom Hk. apply elem_of_dom. exists (s ∖ keys_without_fks g0).
    apply lookup_without_tables_Some. eauto.
  - intros k [s Hs]%elem_of_dom.
    by apply lookup_without_tables_Some in Hs as (? & _ & ? & _).
Qed.

Lemma peel_inv_step P d :
  peel_inv g0 P d → peel_inv g0 (P ∪ next_tier d) (cleaned_up d (next_tier d)).
Proof.
  intros [Hl Hk Hf]. split.
  - intros k s (s' & Hs' & _ & ->)%lookup_cleaned_up_Some.
    destruct (Hl k s' Hs') as (s0 & ? & ->). exists s0. split; [done|]. set_solver.
  - intros k Hk0 Hnot. apply not_elem_of_union in Hnot as [HP Ht].
    pose proof (Hk k Hk0 HP) as [s Hs]%elem_of_dom. apply elem_of_dom.
    exists (s ∖ next_tier d). apply lookup_cleaned_up_Some. exists s.
    split_and!; [done| |done]. intros ->. apply Ht, elem_of_next_tier. by right.
  - intros k [s Hs]%elem_of_dom.
    apply lookup_cleaned_up_Some in Hs as (s' & Hs' & Hne & _).
    assert (k ∈ dom d) as Hd by (apply elem_of_dom; eauto).
    apply not_elem_of_union. split; [by apply Hf|].
    intros [[? _]|?]%elem_of_next_tier; [done|congruence].
Qed.

(** A table of the next tier has not been placed before ... *)
Lemma next_tier_fresh P d x : peel_inv g0 P d → x ∈ next_tier d → x ∉ P.
Proof.
  intros [Hl Hk Hf] [[_ (k & s & Hs & Hx)]|He]%elem_of_next_tier.
  - destruct (Hl k s Hs) as (s0 & _ & ->). set_solver.
  - apply Hf, elem_of_dom. eauto.
Qed.

(** ... and all its foreign keys have been. *)
Lemma next_tier_fks_placed P d x :
  peel_inv g0 P d → x ∈ next_tier d → fks_of g0 x ⊆ P.
Proof.
  intros Hinv Hx. pose proof (next_tier_fresh P d x Hinv Hx) as HxP.
  destruct Hinv as [Hl Hk Hf].
  apply elem_of_next_tier in Hx as [[Hnd _]|He].
  - assert (g0 !! x = None) as Hnone.
    { apply not_elem_of_dom. intros Hd. by apply Hnd, Hk. }
    unfold fks_of. rewrite Hnone. set_solver.
  - destruct (Hl x ∅ He) as (s0 & Hs0 & Hemp).
    rewrite (fks_of_lookup _ _ _ Hs0). set_solver.
Qed.

Lemma tiers_ok_init : tiers_ok g0 [PyStr.sorted (keys_without_fks g0)].
Proof.
  split.
  - simpl. rewrite app_nil_r. apply NoDup_sorted.
  - intros i x fk (tier & Hi & Hx) Hfk.
    apply list_lookup_singleton_Some in Hi as [-> <-].
    apply elem_of_sorted, elem_of_keys_without_fks in Hx.
    rewrite (fks_of_lookup _ _ _ Hx) in Hfk. set_solver.
  - intros i x (tier & Hi & Hx).
    apply list_lookup_singleton_Some in Hi as [-> <-].
    apply elem_of_sorted, elem_of_keys_without_fks in Hx.
    left. apply elem_of_dom. eauto.
Qed.

(** A table of the next tier belongs to the graph the resolver started from. *)
Lemma next_tier_vertex P d x : peel_inv g0 P d → x ∈ next_tier d → vertex g0 x.
Proof.
  intros [Hl _ _] [[_ (k & s & Hs & Hx)]|He]%elem_of_next_tier.
  - destruct (Hl k s Hs) as (s0 & Hs0 & ->). right. exists k.
    apply edge_lookup. exists s0. set_solver.
  - destruct (Hl x ∅ He) as (s0 & Hs0 & _). left. apply elem_of_dom. eauto.
Qed.

Lemma tiers_ok_snoc tree t :
  tiers_ok g0 tree →
  (∀ x, x ∈ t → x ∉ placed tree) →
  (∀ x, x ∈ t → fks_of g0 x ⊆ placed tree) →
  (∀ x, x ∈ t → vertex g0 x) →
  tiers_ok g0 (tree ++ [PyStr.sorted t]).
Proof.
  intros [Hnd Hfk Hvx] Hfresh Hfks Hvt. split.
  - rewrite join_app. simpl. rewrite app_nil_r. apply NoDup_app.
    split_and!; [done| |apply NoDup_sorted].
    intros x Hx Hx'. apply elem_of_sorted in Hx'.
    apply (Hfresh x Hx'). unfold placed. by rewrite elem_of_list_to_set.
  - intros i x fk [Hi|[-> Hx]]%in_tier_snoc Hin.
    + destruct (Hfk i x fk Hi Hin) as (j & ? & Hj). exists j. split; [done|].
      apply in_tier_snoc. by left.
    + apply elem_of_sorted in Hx. apply (Hfks x Hx) in Hin.
      apply placed_in_tier in Hin as [j Hj]. exists j.
      split; [by eapply in_tier_lt|]. apply in_tier_snoc. by left.
  - intros i x [Hi|[-> Hx]]%in_tier_snoc; [by eapply Hvx|].
    apply Hvt. by apply elem_of_sorted in Hx.
Qed.

(** *** Progress: a stuck loop exhibits a cycle *)

Lemma tc_edge_values x y : tc (edge g0) x y → y ∈ values_union g0.
Proof.
  induction 1 as [x y Hxy|x y z _ _ IH]; [|done].
  apply edge_lookup in Hxy as (s & ? & ?). apply elem_of_values_union. eauto.
Qed.

Lemma acyclic_sn x : acyclic g0 → sn (edge g0) x.
Proof.
  intros Hac. apply tc_finite_sn.
  - intros y. apply Hac.
  - exists (elements (values_union g0)). intros y Hy.
    apply elem_of_elements. by eapply tc_edge_values.
Qed.

Lemma peel_progress P d :
  acyclic g0 → peel_inv g0 P d → d ≠ ∅ → next_tier d ≠ ∅.
Proof.
  intros Hac [Hl Hk Hf] Hne Hstuck.
  assert (∀ k, k ∈ dom d → ∃ k', edge g0 k k' ∧ k' ∈ dom d) as Hsucc.
  { intros k [s Hs]%elem_of_dom.
    destruct (decide (s = ∅)) as [->|Hs'].
    { assert (k ∈ next_tier d) by (apply elem_of_next_tier; by right). set_solver. }
    apply set_choose_L in Hs' as [k' Hk'].
    exists k'. destruct (Hl k s Hs) as (s0 & Hs0 & ->). split.
    - apply edge_lookup. exists s0. set_solver.
    - destruct (decide (k' ∈ dom d)) as [|Hnd]; [done|].
      assert (k' ∈ next_tier d); [|set_solver].
      apply elem_of_next_tier. left. eauto. }
  apply map_choose in Hne as (k & s & Hs).
  assert (k ∈ dom d) as Hd by (apply elem_of_dom; eauto).
  pose proof (acyclic_sn k Hac) as Hsn. clear s Hs.
  induction Hsn as [k _ IH].
  destruct (Hsucc k Hd) as (k' & He & Hd'). by apply (IH k').
Qed.

End PeelInvariant.

(** *** What the loop returns *)

Section ResolveGraph.
Import Resolver Graph.
Variable g0 : graph.
Implicit Types (d : graph) (x : string) (tree tiers : list (list string)).

Lemma peel_return fuel d tree tiers :
  peel_inv g0 (placed tree) d → tiers_ok g0 tree →
  peel fuel d tree = Some (Return tiers) →
  tiers_ok g0 tiers ∧ dom g0 ⊆ placed tiers.
Proof.
  revert d tree. induction fuel as [|fuel IH]; intros d tree Hinv Hok; simpl; [done|].
  destruct (decide (d = ∅)) as [->|Hne].
  - intros [= <-]. split; [done|]. intros k Hk.
    destruct (decide (k ∈ placed tree)) as [|Hnp]; [done|].
    pose proof (inv_keys _ _ _ Hinv k Hk Hnp) as Hd. set_solver.
  - destruct (decide (next_tier d = ∅)); [done|]. intros Hp.
    eapply IH; [| |exact Hp].
    + rewrite placed_snoc. by apply peel_inv_step.
    + apply tiers_ok_snoc; [done|..]; intros x Hx.
      * by eapply next_tier_fresh.
      * by eapply next_tier_fks_placed.
      * by eapply next_tier_vertex.
Qed.

Lemma peel_no_raise fuel d tree e :
  acyclic g0 → peel_inv g0 (placed tree) d → peel fuel d tree ≠ Some (Raise e).
Proof.
  intros Hac. revert d tree.
  induction fuel as [|fuel IH]; intros d tree Hinv; simpl; [done|].
  destruct (decide (d = ∅)); [done|].
  destruct (decide (next_tier d = ∅)) as [Hstuck|].
  - by destruct (peel_progress g0 _ d Hac Hinv).
  - apply IH. rewrite placed_snoc. by apply peel_inv_step.
Qed.

Lemma on_cycle_succ x : on_cycle g0 x → ∃ y, edge g0 x y ∧ on_cycle g0 y.
Proof.
  unfold on_cycle. intros Hc. inversion Hc as [? ? Hxx|? y ? Hxy Hyx]; subst.
  - exists x. split; [done|]. by apply tc_once.
  - exists y. split; [done|]. by eapply tc_r.
Qed.

(** A tier list in which every foreign key points to an earlier tier
    certifies that the graph has no cycle. *)
Lemma tiers_ok_acyclic tiers :
  tiers_ok g0 tiers → dom g0 ⊆ placed tiers → acyclic g0.
Proof.
  intros [_ Hfk _] Hall.
  assert (∀ n x, on_cycle g0 x → in_tier tiers n x → False) as Hrank.
  { intros n. induction (lt_wf n) as [n _ IH]. intros x Hc Hn.
    destruct (on_cycle_succ x Hc) as (y & He & Hcy).
    destruct (Hfk n x y Hn He) as (j & Hj & Hin). by apply (IH j Hj y). }
  intros x Hc. destruct (on_cycle_succ x Hc) as (y & He & _).
  apply edge_lookup in He as (s & Hs & _).
  assert (x ∈ placed tiers) as [n Hn]%placed_in_tier.
  { apply Hall, elem_of_dom. eauto. }
  by apply (Hrank n x).
Qed.

Lemma resolve_graph_total : ∃ r, resolve_graph g0 = Some r.
Proof. unfold resolve_graph. by apply peel_enough_fuel. Qed.

Lemma resolve_graph_return tiers :
  resolve_graph g0 = Some (Return tiers) →
  tiers_ok g0 tiers ∧ dom g0 ⊆ placed tiers.
Proof.
  unfold resolve_graph. apply peel_return.
  - replace (placed [PyStr.sorted (keys_without_fks g0)])
      with (keys_without_fks g0); [apply peel_inv_init|].
    unfold placed. simpl. by rewrite app_nil_r, list_to_set_sorted.
  - apply tiers_ok_init.
Qed.

Lemma resolve_graph_return_acyclic tiers :
  resolve_graph g0 = Some (Return tiers) → acyclic g0.
Proof. intros [? ?]%resolve_graph_return. by eapply tiers_ok_acyclic. Qed.

Lemma resolve_graph_acyclic :
  acyclic g0 → ∃ tiers, resolve_graph g0 = Some (Return tiers).
Proof.
  intros Hac. destruct resolve_graph_total as [[tiers|e] Hr]; [eauto|].
  exfalso. revert Hr. unfold resolve_graph. apply peel_no_raise; [done|].
  replace (placed [PyStr.sorted (keys_without_fks g0)])
    with (keys_without_fks g0); [apply peel_inv_init|].
  unfold placed. simpl. by rewrite app_nil_r, list_to_set_sorted.
Qed.

Lemma resolve_graph_cyclic x :
  on_cycle g0 x → resolve_graph g0 = Some (Raise circular_reference).
Proof.
  intros Hc. destruct resolve_graph_total as [[tiers|e] Hr].
  - by destruct (resolve_graph_return_acyclic tiers Hr x).
  - rewrite Hr. unfold resolve_graph in Hr. by apply peel_raise in Hr as ->.
Qed.

End ResolveGraph.

(** *** The dependency graph read from the field catalog *)

Section FkGraph.
Import Resolver Graph.

Lemma lowered_list_to_map (groups : list (string * list string)) :
  lowered groups = list_to_map (reverse (lowered_item <$> groups)).
Proof.
  unfold lowered. induction groups as [|kv groups IH] using rev_ind; [done|].
  rewrite foldl_app, fmap_app, reverse_app. simpl. by rewrite IH.
Qed.

(** The order in which polars lists the groups is immaterial as long as no
    two table names of the working set differ by case only. *)
Lemma lowered_independent_of_group_order (groups1 groups2 : list (string * list string)) :
  NoDup ((fun kv => PyStr.lower kv.1) <$> groups1) →
  groups1 ≡ₚ groups2 →
  lowered groups1 = lowered groups2.
Proof.
  intros Hnd Hp. rewrite !lowered_list_to_map. apply list_to_map_proper.
  - rewrite fmap_reverse, <- list_fmap_compose, reverse_Permutation.
    by replace (fst ∘ lowered_item) with (fun kv : string * list string => PyStr.lower kv.1).
  - by rewrite !reverse_Permutation, Hp.
Qed.

Lemma lowered_lookup_elem_of groups k s :
  lowered groups !! k = Some s → ∃ kv, kv ∈ groups ∧ lowered_item kv = (k, s).
Proof.
  rewrite lowered_list_to_map. intros H%elem_of_list_to_map_2.
  apply elem_of_reverse, list_elem_of_fmap in H as (kv & ? & ?). eauto.
Qed.

Lemma dom_lowered groups k :
  k ∈ dom (lowered groups) ↔ ∃ kv, kv ∈ groups ∧ PyStr.lower kv.1 = k.
Proof.
  rewrite lowered_list_to_map, dom_list_to_map_L, elem_of_list_to_set.
  rewrite fmap_reverse, elem_of_reverse, <- list_fmap_compose, list_elem_of_fmap.
  naive_solver.
Qed.

Lemma elem_of_grouped fields tables kv :
  kv ∈ grouped fields tables →
  ∃ r, r ∈ fields ∧ fk_row_selected tables r = true ∧ cdmTableName r = kv.1.
Proof.
  unfold grouped. intros (k & -> & Hk)%list_elem_of_fmap.
  apply elem_of_remove_dups, list_elem_of_fmap in Hk as (r & -> & Hr).
  apply list_elem_of_In, List.filter_In in Hr as [Hr Hsel].
  exists r. by rewrite list_elem_of_In.
Qed.

(** The tables of the graph are the lower-cased names of the working set
    that have at least one selected row in the field catalog. *)
Lemma dom_fk_graph fields tables k :
  k ∈ dom (fk_graph fields tables) ↔
    ∃ r, r ∈ fields ∧ fk_row_selected tables r = true ∧ PyStr.lower (cdmTableName r) = k.
Proof.
  unfold fk_graph. rewrite dom_lowered. split.
  - intros (kv & Hkv & <-). apply elem_of_grouped in Hkv as (r & ? & ? & <-). eauto.
  - intros (r & Hr & Hsel & <-).
    exists (cdmTableName r,
            omap fkTableName
              (List.filter (fun r' => String.eqb (cdmTableName r') (cdmTableName r))
                 (List.filter (fk_row_selected tables) fields))).
    split; [|done]. unfold grouped.
    apply (list_elem_of_fmap_2
             (fun k => (k, omap fkTableName
                             (List.filter (fun r' => String.eqb (cdmTableName r') k)
                                (List.filter (fk_row_selected tables) fields))))).
    apply elem_of_remove_dups, list_elem_of_fmap_2.
    apply list_elem_of_In, List.filter_In. by rewrite <- list_elem_of_In.
Qed.

(** Every foreign key of the graph is declared by a selected row of the
    catalog, and self references are gone. *)
Lemma edge_fk_graph fields tables a b :
  edge (fk_graph fields tables) a b →
  a ≠ b ∧
  ∃ r fk, r ∈ fields ∧ fk_row_selected tables r = true ∧
          PyStr.lower (cdmTableName r) = a ∧
          fkTableName r = Some fk ∧ PyStr.lower fk = b.
Proof.
  intros (s & Hs & Hb)%edge_lookup.
  apply lowered_lookup_elem_of in Hs as ([k v] & Hkv & [= <- <-]). simpl in *.
  apply elem_of_difference in Hb as [Hb Hne]. split; [set_solver|].
  apply elem_of_list_to_set, list_elem_of_fmap in Hb as (fk & -> & Hfk).
  unfold grouped in Hkv. apply list_elem_of_fmap in Hkv as (k' & [= -> ->] & _).
  apply list_elem_of_omap in Hfk as (r & Hr & Hfk).
  apply list_elem_of_In, List.filter_In in Hr as [Hr Heq].
  apply List.filter_In in Hr as [Hr Hsel]. apply String.eqb_eq in Heq as <-.
  exists r, fk. by rewrite list_elem_of_In.
Qed.

(** The graph only has tables of the working set. *)
Lemma vertex_fk_graph fields tables x :
  vertex (fk_graph fields tables) x → ∃ t0, t0 ∈ tables ∧ PyStr.lower t0 = x.
Proof.
  intros [Hd|[k He]].
  - apply dom_fk_graph in Hd as (r & _ & Hsel & <-).
    apply andb_true_iff in Hsel as [Ht%bool_decide_eq_true_1 _]. eauto.
  - apply edge_fk_graph in He as (_ & r & fk & _ & Hsel & _ & Hfk & <-).
    unfold fk_row_selected in Hsel. rewrite Hfk in Hsel.
    apply andb_true_iff in Hsel as [_ Hin%bool_decide_eq_true_1]. eauto.
Qed.

Lemma fk_graph_no_self_reference fields tables a :
  ¬ edge (fk_graph fields tables) a a.
Proof. by intros [? _]%edge_fk_graph. Qed.

End FkGraph.

(** ** The resolver as a method of [EtlBase] *)

Section ResolverClaims.
Import Resolver Graph.

Lemma peel_sorted fuel (d : graph) (tree tiers : list (list string)) :
  Forall (fun tier => StronglySorted String.le tier ∧ NoDup tier) tree →
  peel fuel d tree = Some (Return tiers) →
  Forall (fun tier => StronglySorted String.le tier ∧ NoDup tier) tiers.
Proof.
  revert d tree. induction fuel as [|fuel IH]; intros d tree Htree; simpl; [done|].
  destruct (decide (d = ∅)); [by intros [= <-]|].
  destruct (decide (next_tier d = ∅)); [done|].
  apply IH. apply Forall_app. split; [done|]. apply Forall_singleton.
  split; [apply StronglySorted_sorted|apply NoDup_sorted].
Qed.

Lemma resolve_graph_sorted (g : graph) tiers :
  resolve_graph g = Some (Return tiers) →
  Forall (fun tier => StronglySorted String.le tier ∧ NoDup tier) tiers.
Proof.
  unfold resolve_graph. apply peel_sorted, Forall_singleton.
  split; [apply StronglySorted_sorted|apply NoDup_sorted].
Qed.

Lemma build_tree_sorted fields tables tiers :
  build_tree fields tables = Some (Return tiers) →
  Forall (fun tier => StronglySorted String.le tier ∧ NoDup tier) tiers.
Proof.
  unfold build_tree, resolve_graph. apply peel_sorted, Forall_singleton.
  split; [apply StronglySorted_sorted|apply NoDup_sorted].
Qed.

Lemma edge_by_evaluation (g : graph) a b : bool_decide (edge g a b) = true → edge g a b.
Proof. apply bool_decide_eq_true_1. Qed.

End ResolverClaims.

(** C2, as amended.  When the foreign-key graph still has a cycle, the
    resolver raises the builtin [Exception] with the fixed message
    "Circular reference in FKs dependency graph" (which names no table) and
    returns no tier list; the method that stores the tier list then raises
    the same exception and leaves the object as it was. *)
Theorem resolver_raises_on_cycle (self : EtlBase.t) (tables : list string) (x : string) :
  Graph.on_cycle (Resolver.fk_graph (EtlBase._df_omop_fields self) tables) x →
  EtlBase._build_fk_dependency_tree_of_tables tables self
  = (Some (Raise (Exception "Circular reference in FKs dependency graph")), self) ∧
  (tables = EtlBase.resolver_tables self →
   EtlBase._resolve_cdm_tables_fks_dependencies self
   = (Some (Raise (Exception "Circular reference in FKs dependency graph")), self)).
Proof.
  intros Hc.
  assert (Resolver.build_tree (EtlBase._df_omop_fields self) tables
          = Some (Raise Resolver.circular_reference)) as Hb.
  { unfold Resolver.build_tree. by rewrite (resolve_graph_cyclic _ x Hc). }
  split.
  - unfold EtlBase._build_fk_dependency_tree_of_tables. by rewrite Hb.
  - intros ->. unfold EtlBase._resolve_cdm_tables_fks_dependencies,
      EtlBase._build_fk_dependency_tree_of_tables. by rewrite Hb.
Qed.

Lemma cyclic_person_on_cycle :
  Graph.on_cycle (Resolver.fk_graph (EtlBase._df_omop_fields cyclic_self) cyclic_tables)
    "person".
Proof.
  apply tc_l with "visit_occurrence"; [|apply tc_once];
    apply edge_by_evaluation; vm_compute; reflexivity.
Defined.

Lemma resolver_raises_on_cycle_witness :
  EtlBase._build_fk_dependency_tree_of_tables cyclic_tables cyclic_self
  = (Some (Raise (Exception "Circular reference in FKs dependency graph")), cyclic_self) ∧
  EtlBase._resolve_cdm_tables_fks_dependencies cyclic_self
  = (Some (Raise (Exception "Circular reference in FKs dependency graph")), cyclic_self).
Proof.
  destruct (resolver_raises_on_cycle cyclic_self cyclic_tables "person"
              cyclic_person_on_cycle) as [Hbuild Hresolve].
  split; [exact Hbuild|]. apply Hresolve. vm_compute. reflexivity.
Defined.

(** C2, as stated, fails on the cycle PERSON -> VISIT_OCCURRENCE -> PERSON:
    the raised error does not name the tables of the cycle. *)
Lemma resolver_error_names_no_table :
  ¬ (Graph.on_cycle (Resolver.fk_graph (EtlBase._df_omop_fields cyclic_self) cyclic_tables)
       "person" →
     ∃ msg,
       (EtlBase._build_fk_dependency_tree_of_tables cyclic_tables cyclic_self).1
       = Some (Raise (Exception msg)) ∧
       ∀ y, Graph.on_cycle
              (Resolver.fk_graph (EtlBase._df_omop_fields cyclic_self) cyclic_tables) y →
            PyStr.contains y msg = true).
Proof.
  intros H. destruct (H cyclic_person_on_cycle) as (msg & Hmsg & Hnames).
  vm_compute in Hmsg. injection Hmsg as <-.
  specialize (Hnames "person" cyclic_person_on_cycle). vm_compute in Hnames.
  discriminate.
Qed.

(** ** The catalog: the NOTE_NLP override and the primary-key queries *)

Section Catalog.

Lemma cell_is_true (c : cell) (s : string) : cell_is c s = true ↔ c = Some s.
Proof.
  destruct c as [x|]; simpl; [|done]. rewrite String.eqb_eq. naive_solver.
Qed.

Lemma set_fk_to_note_matches (r : FieldRow) :
  EtlBase.is_note_nlp_note_id r →
  EtlBase.is_note_nlp_note_id (EtlBase.set_fk_to_note r).
Proof. done. Qed.

Lemma note_nlp_override_Return (field_level : list FieldRow) row_nr r :
  list_find EtlBase.is_note_nlp_note_id field_level = Some (row_nr, r) →
  EtlBase.note_nlp_override (alter EtlBase.set_fk_to_note row_nr field_level)
  = Return (alter EtlBase.set_fk_to_note row_nr field_level).
Proof.
  intros (Hr & Hm & Hfirst)%list_find_Some. unfold EtlBase.note_nlp_override.
  assert (list_find EtlBase.is_note_nlp_note_id
            (alter EtlBase.set_fk_to_note row_nr field_level)
          = Some (row_nr, EtlBase.set_fk_to_note r)) as ->.
  { apply list_find_Some. split_and!.
    - by rewrite list_lookup_alter_eq, Hr.
    - by apply set_fk_to_note_matches.
    - intros j y Hj Hlt. rewrite list_lookup_alter_ne in Hj by lia. by eapply Hfirst. }
  f_equal. rewrite list_alter_alter_eq. by apply list_alter_ext.
Qed.

Lemma init_total table_level field_level :
  ∃ res, EtlBase.__init__ table_level field_level = Some res.
Proof.
  unfold EtlBase.__init__.
  destruct (EtlBase.note_nlp_override field_level) as [fields|e]; [|eauto].
  unfold EtlBase._resolve_cdm_tables_fks_dependencies,
    EtlBase._build_fk_dependency_tree_of_tables.
  match goal with
  | |- context [Resolver.build_tree ?f ?t] =>
      destruct (resolve_graph_total (Resolver.fk_graph f t)) as [r Hr];
      unfold Resolver.build_tree; rewrite Hr
  end.
  destruct r; eauto.
Qed.

Lemma init_Return table_level field_level fields self :
  EtlBase.note_nlp_override field_level = Return fields →
  EtlBase.__init__ table_level field_level = Some (Return self) →
  EtlBase._df_omop_fields self = fields ∧
  EtlBase._df_omop_tables self = table_level ∧
  Resolver.build_tree fields (EtlBase.resolver_tables self)
  = Some (Return (EtlBase._cdm_tables_fks_dependencies_resolved self)).
Proof.
  unfold EtlBase.__init__. intros ->.
  unfold EtlBase._resolve_cdm_tables_fks_dependencies,
    EtlBase._build_fk_dependency_tree_of_tables.
  destruct (Resolver.build_tree _ _) as [[tree|e]|] eqn:Hb; simpl; [|done..].
  by intros [= <-].
Qed.


End Catalog.

Lemma init_without_note_nlp_row table_level field_level :
  Forall (fun r => ¬ EtlBase.is_note_nlp_note_id r) field_level →
  EtlBase.__init__ table_level field_level = Some (Raise IndexError).
Proof.
  intros Hnone. apply (list_find_None EtlBase.is_note_nlp_note_id) in Hnone.
  unfold EtlBase.__init__, EtlBase.note_nlp_override. by rewrite Hnone.
Qed.

Lemma init_Return_override table_level field_level self :
  EtlBase.__init__ table_level field_level = Some (Return self) →
  ∃ row_nr r, list_find EtlBase.is_note_nlp_note_id field_level = Some (row_nr, r).
Proof.
  unfold EtlBase.__init__, EtlBase.note_nlp_override.
  destruct (list_find _ _) as [[row_nr r]|]; [eauto|done].
Qed.

(** A circular reference is found out by the constructor: no object, hence
    no run. *)
Lemma init_raises_on_cycle table_level field_level fields x :
  EtlBase.note_nlp_override field_level = Return fields →
  Graph.on_cycle
    (Resolver.fk_graph fields (EtlBase.resolver_tables (etl_base_of table_level []))) x →
  EtlBase.__init__ table_level field_level
  = Some (Raise (Exception "Circular reference in FKs dependency graph")).
Proof.
  intros Hov Hc. unfold EtlBase.__init__. rewrite Hov.
  unfold EtlBase._resolve_cdm_tables_fks_dependencies,
    EtlBase._build_fk_dependency_tree_of_tables, Resolver.build_tree.
  change (EtlBase.resolver_tables _)
    with (EtlBase.resolver_tables (etl_base_of table_level [])).
  simpl. by rewrite (resolve_graph_cyclic _ x Hc).
Qed.

(** C7.  On every construction, the constructor corrects exactly one row of
    the loaded field catalog before the resolver runs: the first row of
    NOTE_NLP.NOTE_ID becomes a foreign key to NOTE.NOTE_ID (its other columns
    kept), every other row of the catalog is unchanged, applying the
    correction again changes nothing, and the tier list of the constructed
    object is the one resolved from the corrected catalog. *)
Theorem note_nlp_override_corrects_one_edge
    (table_level : list TableRow) (field_level : list FieldRow) (self : EtlBase.t) :
  EtlBase.__init__ table_level field_level = Some (Return self) →
  ∃ row_nr r,
    field_level !! row_nr = Some r ∧ EtlBase.is_note_nlp_note_id r ∧
    (∀ j r', field_level !! j = Some r' → j < row_nr → ¬ EtlBase.is_note_nlp_note_id r') ∧
    EtlBase._df_omop_fields self !! row_nr
    = Some {| cdmTableName := cdmTableName r; cdmFieldName := cdmFieldName r;
              isRequired := isRequired r; cdmDatatype := cdmDatatype r;
              isPrimaryKey := isPrimaryKey r;
              isForeignKey := Some "Yes"; fkTableName := Some "NOTE";
              fkFieldName := Some "NOTE_ID" |} ∧
    length (EtlBase._df_omop_fields self) = length field_level ∧
    (∀ j, j ≠ row_nr → EtlBase._df_omop_fields self !! j = field_level !! j) ∧
    EtlBase.note_nlp_override field_level = Return (EtlBase._df_omop_fields self) ∧
    EtlBase.note_nlp_override (EtlBase._df_omop_fields self)
    = Return (EtlBase._df_omop_fields self) ∧
    EtlBase._df_omop_tables self = table_level ∧
    Resolver.build_tree (EtlBase._df_omop_fields self) (EtlBase.resolver_tables self)
    = Some (Return (EtlBase._cdm_tables_fks_dependencies_resolved self)).
Proof.
  intros Hinit.
  destruct (init_Return_override _ _ _ Hinit) as (row_nr & r & Hfind).
  pose proof Hfind as (Hr & Hm & Hfirst)%list_find_Some.
  assert (EtlBase.note_nlp_override field_level
          = Return (alter EtlBase.set_fk_to_note row_nr field_level)) as Hov.
  { unfold EtlBase.note_nlp_override. by rewrite Hfind. }
  destruct (init_Return _ _ _ _ Hov Hinit) as (Hfields & Htables & Hbuild).
  exists row_nr, r. rewrite Hfields. split_and!; try done.
  - by rewrite list_lookup_alter_eq, Hr.
  - apply length_alter.
  - intros j Hj. by apply list_lookup_alter_ne.
  - by eapply note_nlp_override_Return.
Qed.

(** The object constructed from the example catalog. *)
Lemma init_note_example :
  EtlBase.__init__ scenario_A_table_level note_field_level
  = Some (Return
      {| EtlBase._df_omop_tables := scenario_A_table_level;
         EtlBase._omop_cdm_tables :=
           ["person"; "visit_occurrence"; "condition_occurrence"; "note"; "note_nlp"];
         EtlBase._omop_etl_tables :=
           ["person"; "visit_occurrence"; "condition_occurrence"; "note"; "note_nlp"];
         EtlBase._df_omop_fields :=
           scenario_A_fields ++
           [ fk_row "NOTE" "note_id" None;
             fk_row "NOTE" "person_id" (Some "PERSON");
             fk_row "NOTE_NLP" "note_nlp_id" None;
             EtlBase.set_fk_to_note (fk_row "NOTE_NLP" "note_id" None) ];
         EtlBase._cdm_tables_fks_dependencies_resolved :=
           [["person"]; ["note"; "visit_occurrence"];
            ["condition_occurrence"; "note_nlp"]] |}).
Proof. vm_compute. reflexivity. Defined.

Lemma note_nlp_override_corrects_one_edge_witness :
  ∃ self row_nr r,
    EtlBase.__init__ scenario_A_table_level note_field_level = Some (Return self) ∧
    note_field_level !! row_nr = Some r ∧ EtlBase.is_note_nlp_note_id r ∧
    (∀ j r', note_field_level !! j = Some r' → j < row_nr →
             ¬ EtlBase.is_note_nlp_note_id r') ∧
    EtlBase._df_omop_fields self !! row_nr
    = Some {| cdmTableName := cdmTableName r; cdmFieldName := cdmFieldName r;
              isRequired := isRequired r; cdmDatatype := cdmDatatype r;
              isPrimaryKey := isPrimaryKey r;
              isForeignKey := Some "Yes"; fkTableName := Some "NOTE";
              fkFieldName := Some "NOTE_ID" |} ∧
    (∀ j, j ≠ row_nr → EtlBase._df_omop_fields self !! j = note_field_level !! j).
Proof.
  eexists.
  destruct (note_nlp_override_corrects_one_edge _ _ _ init_note_example)
    as (row_nr & r & Hr & Hm & Hfirst & Hrow & _ & Hothers & _).
  exists row_nr, r. split_and!; [apply init_note_example|done..].
Defined.

(** ** The pipeline driver *)

Section DriverFacts.
Import Etl.
Context {W : Type}.
Variable handler : ∀ c : call, W → W * result (answer c).
Variable infer : string → string → fk_columns → result fk_columns.

(** *** Every call satisfies a predicate *)

Lemma calls_ret {A} P (a : A) : calls_satisfy (W:=W) P (ret a).
Proof. intros w. constructor. Qed.

Lemma calls_raise {A} P e : calls_satisfy (W:=W) (A:=A) P (raise e).
Proof. intros w. constructor. Qed.

Lemma calls_lift {A} P (r : result A) : calls_satisfy (W:=W) P (lift r).
Proof. intros w. constructor. Qed.

Lemma calls_perform P c : P c → calls_satisfy P (perform handler c).
Proof.
  intros Hc w. unfold trace, perform. destruct (handler c w). simpl. by constructor.
Qed.

Lemma calls_bind {A B} P (m : M A) (f : A → M B) :
  calls_satisfy (W:=W) P m → (∀ a, calls_satisfy P (f a)) → calls_satisfy P (bind m f).
Proof.
  intros Hm Hf w. specialize (Hm w). unfold trace, bind in *.
  destruct (m w) as [[w1 tr1] [a|e]]; simpl in *; [|done].
  specialize (Hf a w1). unfold trace in Hf.
  destruct (f a w1) as [[w2 tr2] r]. simpl in *. by apply Forall_app.
Qed.



Lemma trace_perform c (w : W) : trace (perform handler c) w = [c].
Proof. unfold trace, perform. by destruct (handler c w). Qed.

(** A computation that starts with a call starts with it whatever follows. *)
Lemma trace_bind_head {A B} (m : M A) (f : A → M B) (c : call) :
  (∀ w : W, ∃ tl, trace m w = c :: tl) → ∀ w, ∃ tl, trace (bind m f) w = c :: tl.
Proof.
  intros Hm w. destruct (Hm w) as [tl Htl]. unfold trace, bind in *.
  destruct (m w) as [[w1 tr1] [a|e]]; simpl in *; subst tr1; [|eauto].
  destruct (f a w1) as [[w2 tr2] r]. simpl. eauto.
Qed.

Lemma calls_for {A} P (l : list A) (body : A → M unit) :
  (∀ x, x ∈ l → calls_satisfy (W:=W) P (body x)) → calls_satisfy P (for_ l body).
Proof.
  induction l as [|x l IH]; intros Hbody; simpl; [apply calls_ret|].
  apply calls_bind; [apply Hbody; by left|]. intros _. apply IH.
  intros y Hy. apply Hbody. by right.
Qed.

Lemma calls_when P (c : bool) (body : M unit) :
  (c = true → calls_satisfy (W:=W) P body) → calls_satisfy P (when c body).
Proof. destruct c; simpl; [auto|intros _; apply calls_ret]. Qed.

Lemma calls_getattr {A} P name (o : option A) : calls_satisfy (W:=W) P (getattr name o).
Proof. destruct o; [apply calls_ret|apply calls_raise]. Qed.

Lemma calls_index {A} P (l : list A) i : calls_satisfy (W:=W) P (index l i).
Proof. unfold index. destruct (l !! i); [apply calls_ret|apply calls_raise]. Qed.

End DriverFacts.

Ltac perform_ok :=
  lazymatch goal with
  | |- Etl.calls_satisfy ?P (Etl.perform ?h ?c) => apply (calls_perform h P c)
  end.

Section DriverReturns.
Import Etl.
Context {W : Type}.
Variable handler : ∀ c : call, W → W * result (answer c).
Variable infer : string → string → fk_columns → result fk_columns.

(** *** Computations that return *)

Lemma bind_Return_inv {A B} (m : M A) (f : A → M B) (w w' : W) tr b :
  bind m f w = (w', tr, Return b) →
  ∃ w1 tr1 a tr2,
    m w = (w1, tr1, Return a) ∧ f a w1 = (w', tr2, Return b) ∧ tr = tr1 ++ tr2.
Proof.
  unfold bind. destruct (m w) as [[w1 tr1] [a|e]]; [|done].
  destruct (f a w1) as [[w2 tr2] r] eqn:Hf. intros [= -> <- ->].
  by exists w1, tr1, a, tr2.
Qed.

Lemma perform_inv c (w w' : W) tr (r : result (answer c)) :
  perform handler c w = (w', tr, r) → handler c w = (w', r) ∧ tr = [c].
Proof. unfold perform. destruct (handler c w). by intros [= -> <- ->]. Qed.

(** A loop whose iterations before [x] return and whose iteration at [x]
    raises ends there with that exception. *)
Lemma for_app_Raise {A} (pre post : list A) (x : A) (body : A → M unit)
    (w0 w1 w2 : W) tr1 tr2 e :
  for_ pre body w0 = (w1, tr1, Return tt) →
  body x w1 = (w2, tr2, Raise e) →
  for_ (pre ++ x :: post) body w0 = (w2, tr1 ++ tr2, Raise e).
Proof.
  revert w0 tr1. induction pre as [|y pre IH]; intros w0 tr1; simpl.
  - unfold ret. intros [= <- <-] Hx. unfold bind. by rewrite Hx.
  - intros Hpre Hx. apply bind_Return_inv in Hpre as (wa & tra & [] & trb & Hy & Hrest & ->).
    unfold bind. rewrite Hy. rewrite (IH wa trb Hrest Hx). by rewrite app_assoc.
Qed.

(** The concept-mapping loop of lines 120-124, when it returns. *)
Lemma concept_loop_trace omop_table_name (columns : list string) (w w' : W) tr :
  for_ columns (fun concept_id_column =>
    bind (perform handler (_upload_custom_concepts omop_table_name
                             (PyStr.lower concept_id_column))) (fun _ =>
    perform handler (_apply_usagi_mapping omop_table_name
                       (PyStr.lower concept_id_column)))) w
  = (w', tr, Return tt) →
  tr = concept_calls omop_table_name columns.
Proof.
  revert w tr. induction columns as [|c columns IH]; intros w tr; simpl.
  - unfold ret. by intros [= _ <-].
  - intros (w1 & tr1 & [] & tr2 & Hbody & Hrest & ->)%bind_Return_inv.
    apply bind_Return_inv in Hbody as (wa & tra & [] & trb & Hup & Hus & ->).
    apply (perform_inv (_upload_custom_concepts _ _)) in Hup as [_ ->].
    apply (perform_inv (_apply_usagi_mapping _ _)) in Hus as [_ ->].
    by rewrite (IH _ _ Hrest).
Qed.

Lemma filter_concept_calls omop_table_name columns :
  List.filter is_concept_call (concept_calls omop_table_name columns)
  = concept_calls omop_table_name columns.
Proof. induction columns as [|c columns IH]; simpl; [done|]. by rewrite IH. Qed.

Lemma filter_no_concept_call (tr : list call) :
  Forall (fun c => is_concept_call c = false) tr → List.filter is_concept_call tr = [].
Proof.
  induction 1 as [|c tr Hc _ IH]; simpl; [done|]. by rewrite Hc.
Qed.

Lemma process_sql_file_no_concept_call t props columns auto sql_file :
  calls_satisfy (fun c => is_concept_call c = false)
    (process_sql_file handler infer t props columns auto sql_file).
Proof.
  unfold process_sql_file.
  apply calls_bind; [by perform_ok|]. intros _.
  apply calls_bind.
  { apply calls_when. intros _. apply calls_bind; [apply calls_getattr|].
    intros pk. by perform_ok. }
  intros _. apply calls_bind.
  { case_bool_decide; [apply calls_lift|apply calls_ret]. }
  intros fks. by perform_ok.
Qed.

End DriverReturns.

(** *** Substring tests *)

Section Substrings.

Lemma string_app_cons a p r : String.app (String a p) r = String a (String.app p r).
Proof. reflexivity. Qed.

Lemma startswith_spec (s p : string) :
  PyStr.startswith s p = true ↔ ∃ r, s = String.app p r.
Proof.
  revert s. induction p as [|a p IH]; intros [|b s]; simpl.
  - split; [by exists EmptyString|done].
  - split; [by exists (String b s)|done].
  - split; [done|]. intros (r & Hr). by rewrite string_app_cons in Hr.
  - destruct (Ascii.eqb_spec a b) as [->|Hne].
    + rewrite IH. split; intros (r & Hr); exists r.
      * by rewrite string_app_cons, Hr.
      * rewrite string_app_cons in Hr. by injection Hr.
    + split; [done|]. intros (r & Hr). rewrite string_app_cons in Hr.
      by injection Hr as -> _.
Qed.

(** [needle in hay] holds exactly when [hay] is some prefix, then
    [needle], then some suffix. *)
Lemma contains_spec (needle hay : string) :
  PyStr.contains needle hay = true ↔
    ∃ before after, hay = String.app before (String.app needle after).
Proof.
  induction hay as [|c hay IH].
  - cbn [PyStr.contains]. rewrite orb_false_r, startswith_spec. split.
    + intros (r & Hr). by exists EmptyString, r.
    + intros ([|? ?] & after & H); [by exists after|].
      by rewrite string_app_cons in H.
  - cbn [PyStr.contains]. rewrite orb_true_iff, startswith_spec, IH. split.
    + intros [(r & Hr)|(before & after & Hr)].
      * by exists EmptyString, r.
      * exists (String c before), after. by rewrite string_app_cons, Hr.
    + intros ([|b before] & after & Hr).
      * left. by exists after.
      * right. exists before, after. rewrite string_app_cons in Hr. by injection Hr.
Qed.

End Substrings.

(** ** The driver's claims *)

(** C5, as amended.  [run] has no per-table error handling.  In a run over
    the whole schema file, when the tables before [t] are processed without
    error and processing [t] raises [e], [run] raises [e] at that point: the
    calls made are those up to the failure, so the later tables are not
    processed and the closing update of SOURCE_TO_CONCEPT_MAP is not run.  In
    a run of the single table [t], an exception raised while processing it is
    raised by [run] in the same way.  The driver resolves no dependencies and
    has no exception of its own for a circular reference: in a run over the
    whole schema file, the call that follows the reading of the date already
    processes the first table of the schema file. *)
Theorem run_propagates_table_error {W : Type}
    (handler : ∀ c : Etl.call, W → W * result (Etl.answer c))
    (infer : string → string → Etl.fk_columns → result Etl.fk_columns)
    (object_attribute : string → bool)
    (self : Etl.t) (pre post : list (string * Etl.table_props))
    (t : string) (props : Etl.table_props)
    (w0 w0' w1 w2 : W) (etl_start : nat) (tr1 tr2 : list Etl.call) (e : pyexn) :
  handler Etl.date_today w0 = (w0', Return etl_start) →
  (Etl.truthy_str (Etl._only_omop_table self) = false →
   Etl._omop_tables self = pre ++ (t, props) :: post →
   Etl.for_ pre (fun kv => Etl._process_omop_folder handler infer self kv.1 kv.2) w0'
   = (w1, tr1, Return tt) →
   Etl._process_omop_folder handler infer self t props w1 = (w2, tr2, Raise e) →
   Etl.run handler infer object_attribute self w0
   = (w2, Etl.date_today :: tr1 ++ tr2, Raise e)) ∧
  (Etl.truthy_str (Etl._only_omop_table self) = true →
   Etl._only_omop_table self = Some t →
   Etl.omop_table_props_of self t = Some props →
   Etl._process_omop_folder handler infer self t props w0' = (w2, tr2, Raise e) →
   Etl.run handler infer object_attribute self w0
   = (w2, Etl.date_today :: tr2, Raise e)) ∧
  (Etl.truthy_str (Etl._only_omop_table self) = false →
   ∀ first rest,
     Etl._omop_tables self = first :: rest →
     ∃ tail,
       Etl.trace (Etl.run handler infer object_attribute self) w0
       = Etl.date_today :: Etl._get_column_names first.1 :: tail).
Proof.
  intros Htoday. split_and!.
  - intros Honly Htables Hpre Ht. unfold Etl.run.
    unfold Etl.bind at 1. unfold Etl.perform at 1. rewrite Htoday.
    rewrite Honly, Htables. unfold Etl.bind at 1.
    by rewrite (for_app_Raise pre post (t, props) _ w0' w1 w2 tr1 tr2 e Hpre Ht).
  - intros Honly Ht Hprops Hraise. unfold Etl.run.
    unfold Etl.bind at 1. unfold Etl.perform at 1. rewrite Htoday.
    rewrite Honly, Ht. simpl. unfold Etl.getattr_omop_tables. rewrite Hprops.
    unfold Etl.bind at 1. unfold Etl.bind at 1. unfold Etl.ret at 1.
    by rewrite Hraise.
  - intros Honly first rest Htables. unfold Etl.trace, Etl.run.
    unfold Etl.bind at 1. unfold Etl.perform at 1. rewrite Htoday.
    rewrite Honly, Htables.
    match goal with
    | |- context [let (_, _) := ?m w0' in _] =>
        destruct (trace_bind_head
                    (Etl.for_ (first :: rest)
                       (fun kv => Etl._process_omop_folder handler infer self kv.1 kv.2))
                    (fun _ => Etl.perform handler
                                (Etl._source_to_concept_map_update_invalid_reason etl_start))
                    (Etl._get_column_names first.1)) with (w := w0') as [tail Htail];
        [|unfold Etl.trace in Htail; destruct (m w0') as [[w3 tr3] r3];
          simpl in *; subst tr3; by exists tail]
    end.
    simpl. apply trace_bind_head. unfold Etl._process_omop_folder.
    apply trace_bind_head. intros w. rewrite trace_perform. eauto.
Qed.

Lemma run_propagates_table_error_witness :
  Etl.run (Etl.example_handler example_columns example_auto_numbering
             example_files [] executor_error)
    Etl.example_infer Etl.example_object_attribute (example_etl None) tt
  = (tt,
     Etl.date_today ::
       Etl.trace (Etl._process_omop_folder
                    (Etl.example_handler example_columns example_auto_numbering
                       example_files [] executor_error)
                    Etl.example_infer (example_etl None) "person"
                    (Etl.mk_props (Some "person_id") None None)) tt
       ++ [Etl._get_column_names "vocabulary"],
     Raise (Exception "executor error")).
Proof.
  refine (proj1
    (run_propagates_table_error _ _ Etl.example_object_attribute (example_etl None)
       [("person", Etl.mk_props (Some "person_id") None None)]
       [("visit_occurrence",
          Etl.mk_props (Some "visit_occurrence_id")
            (Some [("person_id", ("person", "person_id"))]) None)]
       "vocabulary" (Etl.mk_props (Some "vocabulary_id") None None)
       tt tt tt tt 0 _ _ _ _) _ _ _ _);
    vm_compute; reflexivity.
Defined.

(** C5, as stated, fails: an executor error while the second table is
    processed is raised by [run] itself, which returns no report. *)
Lemma run_raises_table_error :
  Etl.outcome (Etl._process_omop_folder
                 (Etl.example_handler example_columns example_auto_numbering
                    example_files [] executor_error)
                 Etl.example_infer (example_etl None) "vocabulary"
                 (Etl.mk_props (Some "vocabulary_id") None None)) tt
  = Raise (Exception "executor error") ∧
  ¬ (∃ report,
       Etl.outcome (Etl.run (Etl.example_handler example_columns example_auto_numbering
                               example_files [] executor_error)
                      Etl.example_infer Etl.example_object_attribute (example_etl None)) tt
       = Return report).
Proof.
  split; [vm_compute; reflexivity|]. intros [report H]. vm_compute in H. discriminate.
Qed.

(** C9, as amended.  When processing a table returns, the concept-mapping
    calls it made are: none if the skip flag is set; otherwise, for each
    column of the table whose name contains "concept_id" and does not contain
    "source_concept_id", in column order, the custom-concept upload and then
    the Usagi mapping, both with the lower-cased column name. *)
Theorem concept_mapping_columns {W : Type}
    (handler : ∀ c : Etl.call, W → W * result (Etl.answer c))
    (infer : string → string → Etl.fk_columns → result Etl.fk_columns)
    (self : Etl.t) (t : string) (props : Etl.table_props)
    (w w1 w' : W) (columns : list string) (tr : list Etl.call) :
  handler (Etl._get_column_names t) w = (w1, Return columns) →
  Etl._process_omop_folder handler infer self t props w = (w', tr, Return tt) →
  List.filter Etl.is_concept_call tr
  = if Etl.truthy_bool (Etl._skip_usagi_and_custom_concept_upload self) then []
    else Etl.concept_calls t (List.filter Etl.is_concept_column columns).
Proof.
  intros Hcols Hrun. unfold Etl._process_omop_folder in Hrun.
  apply bind_Return_inv in Hrun as (wa & tra & cols & trb & H1 & Hrun & ->).
  apply (perform_inv handler (Etl._get_column_names t)) in H1 as [H1 ->].
  rewrite Hcols in H1. injection H1 as <- <-.
  apply bind_Return_inv in Hrun as (wb & trb' & auto & trc & H2 & Hrun & ->).
  apply (perform_inv handler (Etl._is_pk_auto_numbering t props)) in H2 as [_ ->].
  apply bind_Return_inv in Hrun as (wc & trc' & [] & trd & H3 & Hrun & ->).
  apply bind_Return_inv in Hrun as (wd & trd' & sql & tre & H4 & Hrun & ->).
  apply (perform_inv handler (Etl.glob_glob t "*.sql")) in H4 as [_ ->].
  apply bind_Return_inv in Hrun as (we & tre' & sql_jinja & trf & H5 & Hrun & ->).
  apply (perform_inv handler (Etl.glob_glob t "*.sql.jinja")) in H5 as [_ ->].
  assert (List.filter Etl.is_concept_call trf = []) as Hsql.
  { apply filter_no_concept_call.
    pose proof (calls_for (fun c => Etl.is_concept_call c = false)
                  (Etl.sorted_list sql ++ Etl.sorted_list sql_jinja)
                  (Etl.process_sql_file handler infer t props columns auto)
                  (fun x _ => process_sql_file_no_concept_call handler infer
                                t props columns auto x) we) as Hf.
    unfold Etl.trace in Hf. by rewrite Hrun in Hf. }
  rewrite !List.filter_app, Hsql. simpl. rewrite app_nil_r.
  destruct (Etl.truthy_bool _); simpl in H3.
  - unfold Etl.ret in H3. by injection H3 as _ <-.
  - apply concept_loop_trace in H3 as ->. apply filter_concept_calls.
Qed.

Lemma concept_mapping_columns_witness :
  List.filter Etl.is_concept_call
    (Etl.trace (Etl._process_omop_folder
                  (Etl.example_handler example_columns example_auto_numbering
                     example_files [] no_failure)
                  Etl.example_infer (example_etl None) "person"
                  (Etl.mk_props (Some "person_id") None None)) tt)
  = Etl.concept_calls "person" (List.filter Etl.is_concept_column (example_columns "person")).
Proof.
  apply (concept_mapping_columns
           (Etl.example_handler example_columns example_auto_numbering
              example_files [] no_failure)
           Etl.example_infer (example_etl None) "person"
           (Etl.mk_props (Some "person_id") None None) tt tt tt);
    vm_compute; reflexivity.
Defined.

(** C9, as stated, fails when the run skips the Usagi and custom-concept
    upload: the column gender_concept_id of PERSON qualifies, the table is
    processed without error, and no concept mapping is done for it. *)
Lemma skip_flag_suppresses_concept_mapping :
  Etl.is_concept_column "gender_concept_id" = true ∧
  "gender_concept_id" ∈ example_columns "person" ∧
  Etl.outcome (Etl._process_omop_folder
                 (Etl.example_handler example_columns example_auto_numbering
                    example_files [] no_failure)
                 Etl.example_infer (example_etl (Some true)) "person"
                 (Etl.mk_props (Some "person_id") None None)) tt
  = Return tt ∧
  ¬ (Etl._upload_custom_concepts "person" "gender_concept_id"
     ∈ Etl.trace (Etl._process_omop_folder
                    (Etl.example_handler example_columns example_auto_numbering
                       example_files [] no_failure)
                    Etl.example_infer (example_etl (Some true)) "person"
                    (Etl.mk_props (Some "person_id") None None)) tt).
Proof.
  split_and!.
  - vm_compute. reflexivity.
  - apply list_elem_of_In. vm_compute. tauto.
  - vm_compute. reflexivity.
  - intros H%list_elem_of_In. vm_compute in H.
    repeat (destruct H as [H|H]; [discriminate H|]). exact H.
Qed.

(** *** [cleanup] *)

Section CleanupFacts.
Import Etl.
Context {W : Type}.
Variable handler : ∀ c : call, W → W * result (answer c).

Lemma cleanup_work_table_no_truncation (self : t) (cleanup_table table_name : string) :
  calls_satisfy (EtlSpec.truncation_allowed self cleanup_table)
    (cleanup_work_table handler cleanup_table table_name).
Proof.
  unfold cleanup_work_table.
  destruct (_ && _).
  - apply calls_bind; [apply calls_index|]. intros omop_table.
    apply calls_bind; [apply calls_index|]. intros second.
    apply calls_bind; [by perform_ok|]. intros _.
    apply calls_bind; [by perform_ok|]. intros _. by perform_ok.
  - destruct (_ && _); [|apply calls_ret].
    apply calls_bind; [apply calls_index|]. intros omop_table.
    apply calls_bind; [apply calls_index|]. intros second. by perform_ok.
Qed.

End CleanupFacts.

(** C10, as amended.  Whatever the scope and the collaborators' answers,
    [cleanup] never asks to truncate [vocabulary]; the tables it asks to
    truncate are [source_to_concept_map] (when the scope is "all", whether
    or not the schema file lists it) and the tables of the schema file other
    than [vocabulary] that the scope covers. *)
Theorem cleanup_never_truncates_vocabulary {W : Type}
    (handler : ∀ c : Etl.call, W → W * result (Etl.answer c))
    (self : Etl.t) (cleanup_table : string) (w : W) :
  Forall (fun c =>
            match c with
            | Etl._truncate_omop_table table_name =>
                table_name ≠ "vocabulary" ∧
                ((cleanup_table = "all" ∧ table_name = "source_to_concept_map") ∨
                 (table_name ∈ (fst <$> Etl._omop_tables self) ∧
                  (cleanup_table = "all" ∨ table_name = cleanup_table)))
            | _ => True
            end)
         (Etl.trace (Etl.cleanup handler self cleanup_table) w).
Proof.
  revert w.
  change (Etl.calls_satisfy (EtlSpec.truncation_allowed self cleanup_table)
            (Etl.cleanup handler self cleanup_table)).
  unfold Etl.cleanup.
  apply calls_bind; [by perform_ok|]. intros work_tables.
  apply calls_bind.
  { destruct (String.eqb_spec cleanup_table "all") as [->|Hne].
    - apply calls_bind; [perform_ok; simpl; split; [done|by left]|]. intros _.
      apply calls_bind; [by perform_ok|]. intros _.
      apply calls_bind; [by perform_ok|]. intros _. by perform_ok.
    - apply calls_for. intros table_name _. apply cleanup_work_table_no_truncation. }
  intros _. apply calls_bind.
  { apply calls_for. intros table_name _. apply calls_when. intros _. by perform_ok. }
  intros _. apply calls_for. intros table_name Hin.
  apply list_elem_of_In, List.filter_In in Hin as [Hin Hvoc].
  apply calls_when. intros Hscope. perform_ok. simpl. split.
  - intros ->. done.
  - right. split; [by apply list_elem_of_In|].
    apply orb_true_iff in Hscope as [H|H]; apply String.eqb_eq in H; auto.
Qed.

(** C10, as stated, fails for the scope "all": [source_to_concept_map] is
    truncated although the schema file of the example does not list it. *)
Lemma cleanup_all_truncates_source_to_concept_map :
  ¬ Forall (fun c =>
              match c with
              | Etl._truncate_omop_table table_name =>
                  table_name ≠ "vocabulary" ∧
                  table_name ∈ (fst <$> Etl._omop_tables (example_etl None))
              | _ => True
              end)
           (Etl.trace (Etl.cleanup
                         (Etl.example_handler example_columns example_auto_numbering
                            example_files [] no_failure)
                         (example_etl None) "all") tt).
Proof.
  intros H. vm_compute in H.
  apply Forall_cons_1 in H as [_ H]. apply Forall_cons_1 in H as [[_ Hin] _].
  apply list_elem_of_In in Hin. simpl in Hin.
  repeat (destruct Hin as [Hin|Hin]; [discriminate Hin|]). exact Hin.
Qed.

(** *** Tables processed with their natural key *)

Section AutoNumberingFacts.
Import Etl.
Context {W : Type}.
Variable handler : ∀ c : call, W → W * result (answer c).
Variable infer : string → string → fk_columns → result fk_columns.



End AutoNumberingFacts.

(** *** The primary-key queries *)

Section PrimaryKeyFacts.




End PrimaryKeyFacts.

(** ** Custom concept identifiers *)

Section ConceptIdFacts.
Import ConceptIds.
Local Open Scope Z_scope.

Lemma next_id_gt_start (assigned : list Z) : _CUSTOM_CONCEPT_IDS_START < next_id assigned.
Proof.
  unfold next_id. induction assigned as [|p assigned IH]; simpl; lia.
Qed.

Lemma next_id_gt_assigned (assigned : list Z) (p : Z) :
  p ∈ assigned → p < next_id assigned.
Proof.
  unfold next_id. induction assigned as [|q assigned IH]; simpl.
  - by intros ?%elem_of_nil.
  - intros [->|Hin]%elem_of_cons; [lia|]. specialize (IH Hin). lia.
Qed.

Lemma StronglySorted_lookup_lt {A} (R : relation A) (l : list A) i j a b :
  StronglySorted R l → l !! i = Some a → l !! j = Some b → (i < j)%nat → R a b.
Proof.
  intros Hs. revert i j. induction Hs as [|x l Hs IH Hx]; intros i j Hi Hj Hlt.
  - done.
  - destruct j as [|j]; [lia|]. simpl in Hj. destruct i as [|i].
    + injection Hi as <-. apply (proj1 (Forall_forall _ _) Hx).
      by eapply list_elem_of_lookup_2.
    + simpl in Hi. apply (IH i j); [done|done|lia].
Qed.

(** What one call guarantees about the identifiers it hands out. *)
Lemma registerCustomConcepts_fresh {R : Type} (records : list R) (assigned : list Z) :
  length (registerCustomConcepts records assigned).1 = length records ∧
  (registerCustomConcepts records assigned).1.*1 = records ∧
  Forall (fun id => _CUSTOM_CONCEPT_IDS_START < id ∧ ∀ p, p ∈ assigned → p < id)
         (registerCustomConcepts records assigned).1.*2 ∧
  StronglySorted Z.lt (registerCustomConcepts records assigned).1.*2.
Proof.
  revert assigned. induction records as [|r records IH]; intros assigned; simpl.
  - split_and!; [done|done|constructor|constructor].
  - specialize (IH (next_id assigned :: assigned)).
    destruct (registerCustomConcepts records (next_id assigned :: assigned))
      as [out assigned'] eqn:Hrec.
    simpl in *. destruct IH as (Hlen & Hrecs & Hall & Hsorted).
    split_and!; [by f_equal|by f_equal| |].
    + constructor.
      * split; [apply next_id_gt_start|]. apply next_id_gt_assigned.
      * eapply Forall_impl; [exact Hall|]. intros id [Hs Hp]. split; [done|].
        intros p Hin. apply Hp. by right.
    + constructor; [done|].
      eapply Forall_impl; [exact Hall|]. intros id [_ Hp]. apply Hp. by left.
Qed.

(** The identifiers handed out are remembered for the calls that follow. *)
Lemma registerCustomConcepts_assigned {R : Type} (records : list R) (assigned : list Z)
    (p : Z) :
  p ∈ (registerCustomConcepts records assigned).2 ↔
    p ∈ (registerCustomConcepts records assigned).1.*2 ∨ p ∈ assigned.
Proof.
  revert assigned. induction records as [|r records IH]; intros assigned; simpl.
  - split; [by right|]. intros [?%elem_of_nil|?]; done.
  - specialize (IH (next_id assigned :: assigned)).
    destruct (registerCustomConcepts records (next_id assigned :: assigned))
      as [out assigned'] eqn:Hrec.
    simpl in *. rewrite IH, !elem_of_cons. tauto.
Qed.

End ConceptIdFacts.

(** C3 (on the model of the identifier query taken from the specification).
    Every registered record gets an identifier greater than 2,000,000,000 and
    greater than every identifier assigned before in the reserved space;
    the identifiers handed out in a run increase strictly, so two records
    never share one; none is an identifier of the concept catalog, whose
    identifiers are at most 2,000,000,000 or were assigned before; and the
    identifiers handed out count as assigned for the calls that follow. *)
Theorem custom_concept_ids_fresh {R : Type} (records : list R) (assigned catalog : list Z) :
  (∀ id, id ∈ catalog → (id ≤ ConceptIds._CUSTOM_CONCEPT_IDS_START)%Z ∨ id ∈ assigned) →
  (ConceptIds.registerCustomConcepts records assigned).1.*1 = records ∧
  Forall (fun id => (2000000000 < id)%Z ∧ (∀ p, p ∈ assigned → (p < id)%Z) ∧ id ∉ catalog)
         (ConceptIds.registerCustomConcepts records assigned).1.*2 ∧
  (∀ i j a b,
      (ConceptIds.registerCustomConcepts records assigned).1.*2 !! i = Some a →
      (ConceptIds.registerCustomConcepts records assigned).1.*2 !! j = Some b →
      i < j → (a < b)%Z) ∧
  NoDup (ConceptIds.registerCustomConcepts records assigned).1.*2 ∧
  (∀ p, p ∈ (ConceptIds.registerCustomConcepts records assigned).2 ↔
        p ∈ (ConceptIds.registerCustomConcepts records assigned).1.*2 ∨ p ∈ assigned).
Proof.
  intros Hcat.
  destruct (registerCustomConcepts_fresh records assigned) as (_ & Hrecs & Hall & Hsorted).
  assert (∀ i j a b,
            (ConceptIds.registerCustomConcepts records assigned).1.*2 !! i = Some a →
            (ConceptIds.registerCustomConcepts records assigned).1.*2 !! j = Some b →
            i < j → (a < b)%Z) as Hinc.
  { intros i j a b Hi Hj Hlt.
    by eapply (StronglySorted_lookup_lt Z.lt). }
  split_and!; [done| |done| |apply registerCustomConcepts_assigned].
  - eapply Forall_impl; [exact Hall|]. intros id [Hs Hp]. split_and!; [done|done|].
    intros Hin. destruct (Hcat id Hin) as [Hle|Hprev].
    + unfold ConceptIds._CUSTOM_CONCEPT_IDS_START in *. lia.
    + specialize (Hp id Hprev). lia.
  - apply NoDup_alt. intros i j a Hi Hj.
    destruct (Nat.lt_trichotomy i j) as [Hlt|[->|Hgt]]; [|done|].
    + pose proof (Hinc i j a a Hi Hj Hlt). lia.
    + pose proof (Hinc j i a a Hj Hi Hgt). lia.
Qed.

Lemma custom_concept_ids_fresh_witness :
  (ConceptIds.registerCustomConcepts ["sex/M"; "sex/F"] [2000000007%Z]).1.*2
  = [2000000008%Z; 2000000009%Z] ∧
  Forall (fun id => (2000000000 < id)%Z ∧ (∀ p, p ∈ [2000000007%Z] → (p < id)%Z)
                    ∧ id ∉ [8507%Z; 8532%Z; 2000000007%Z])
         (ConceptIds.registerCustomConcepts ["sex/M"; "sex/F"] [2000000007%Z]).1.*2.
Proof.
  split; [reflexivity|].
  refine (proj1 (proj2
    (custom_concept_ids_fresh ["sex/M"; "sex/F"] [2000000007%Z]
       [8507%Z; 8532%Z; 2000000007%Z] _))).
  intros id Hin. unfold ConceptIds._CUSTOM_CONCEPT_IDS_START.
  repeat (apply elem_of_cons in Hin as [->|Hin]; [first [left; lia|right; by left]|]).
  by apply elem_of_nil in Hin.
Defined.

(** ** Further properties of the resolver *)

Section TightTiers.
Import Resolver Graph Layers.
Variable g0 : graph.
Implicit Types (d : graph) (x k : string) (tree tiers : list (list string)).

Lemma in_tier_last tree tier x :
  last tree = Some tier → x ∈ tier → in_tier tree (length tree - 1) x.
Proof.
  intros Hl Hx. exists tier. split; [|done].
  rewrite last_lookup in Hl. by replace (length tree - 1) with (pred (length tree)) by lia.
Qed.

Lemma tight_init : tight g0 [PyStr.sorted (keys_without_fks g0)].
Proof.
  split.
  - intros x. rewrite <- elem_of_keys_without_fks, <- elem_of_sorted. split.
    + by intros (tier & [= <-] & Hx).
    + intros Hx. by exists (PyStr.sorted (keys_without_fks g0)).
  - by intros i x (tier & Hi & _).
  - intros i x (tier & Hi & Hx) Hnd.
    apply list_lookup_singleton_Some in Hi as [-> <-].
    apply elem_of_sorted, elem_of_keys_without_fks in Hx.
    destruct Hnd. apply elem_of_dom. eauto.
Qed.

Lemma peel_tight_init :
  peel_tight g0 [PyStr.sorted (keys_without_fks g0)]
    (without_tables g0 (keys_without_fks g0)).
Proof.
  split.
  - intros k (s' & Hs' & Hk & Hemp)%lookup_without_tables_Some.
    assert (s' ≠ ∅) as Hne.
    { intros ->. by apply Hk, elem_of_keys_without_fks. }
    apply set_choose_L in Hne as [fk Hfk].
    exists fk, (PyStr.sorted (keys_without_fks g0)). split_and!; [|done|].
    + apply edge_lookup. eauto.
    + apply elem_of_sorted. set_solver.
  - simpl. lia.
Qed.

Lemma tight_step P tree d :
  tree ≠ [] → P = placed tree → peel_inv g0 P d → tight g0 tree → peel_tight g0 tree d →
  tight g0 (tree ++ [PyStr.sorted (next_tier d)]) ∧
  peel_tight g0 (tree ++ [PyStr.sorted (next_tier d)]) (cleaned_up d (next_tier d)).
Proof.
  intros Hne -> Hinv [Hfirst Hnext Htargets] [Hlast Hvalues].
  assert (0 < length tree) as Hlen by (destruct tree; [done|simpl; lia]).
  split; split.
  - intros x. rewrite <- Hfirst, in_tier_snoc. split; [|by left].
    intros [?|[? _]]; [done|lia].
  - intros i x [Hi|[Hi Hx]]%in_tier_snoc Hd.
    + destruct (Hnext i x Hi Hd) as (fk & ? & ?). exists fk. split; [done|].
      apply in_tier_snoc. by left.
    + apply elem_of_sorted in Hx.
      pose proof (next_tier_fresh g0 _ d x Hinv Hx) as Hfresh.
      apply elem_of_next_tier in Hx as [[Hnd _]|Hemp].
      { destruct Hnd. by eapply inv_keys. }
      destruct (Hlast x Hemp) as (fk & tier & He & Hl & Hfk).
      exists fk. split; [done|]. apply in_tier_snoc. left.
      replace i with (length tree - 1) by lia. by eapply in_tier_last.
  - intros i x [Hi|[-> Hx]]%in_tier_snoc Hnd; [by eapply Htargets|].
    apply elem_of_sorted, elem_of_next_tier in Hx as [[_ (k & s & Hs & Hx)]|Hemp].
    + destruct (decide (1 < length tree)) as [Hgt|]; [|lia].
      destruct Hnd. by eapply Hvalues.
    + destruct (inv_lookup _ _ _ Hinv x ∅ Hemp) as (s0 & Hs0 & _).
      destruct Hnd. apply elem_of_dom. eauto.
  - intros k (s' & Hs' & Hne' & Hemp)%lookup_cleaned_up_Some.
    apply set_choose_L in Hne' as [fk Hfk].
    destruct (inv_lookup _ _ _ Hinv k s' Hs') as (s0 & Hs0 & ->).
    exists fk, (PyStr.sorted (next_tier d)). split_and!.
    + apply edge_lookup. exists s0. set_solver.
    + by rewrite last_snoc.
    + apply elem_of_sorted.
      destruct (decide (fk ∈ next_tier d)) as [|Hn]; [done|].
      assert (fk ∈ (s0 ∖ placed tree) ∖ next_tier d) as Hin
        by (by apply elem_of_difference).
      rewrite <- Hemp in Hin. by apply not_elem_of_empty in Hin.
  - intros _ k s x (s' & Hs' & _ & ->)%lookup_cleaned_up_Some
      [Hx Hnt]%elem_of_difference.
    destruct (decide (x ∈ dom d)) as [[sx Hsx]%elem_of_dom|Hnd].
    + destruct (inv_lookup _ _ _ Hinv x sx Hsx) as (s0 & Hs0 & _).
      apply elem_of_dom. eauto.
    + destruct Hnt. apply elem_of_next_tier. left. eauto.
Qed.

Lemma peel_tight_return fuel d tree tiers :
  tree ≠ [] → peel_inv g0 (placed tree) d → tight g0 tree → peel_tight g0 tree d →
  peel fuel d tree = Some (Return tiers) → tight g0 tiers.
Proof.
  revert d tree. induction fuel as [|fuel IH]; intros d tree Hne Hinv Ht Hpt; simpl; [done|].
  destruct (decide (d = ∅)); [by intros [= <-]|].
  destruct (decide (next_tier d = ∅)); [done|].
  destruct (tight_step _ tree d Hne eq_refl Hinv Ht Hpt) as [Ht' Hpt'].
  apply IH; [by destruct tree| |done|done].
  rewrite placed_snoc. by apply peel_inv_step.
Qed.

Lemma resolve_graph_tight tiers :
  resolve_graph g0 = Some (Return tiers) → tight g0 tiers.
Proof.
  unfold resolve_graph. apply peel_tight_return; [done| |apply tight_init|apply peel_tight_init].
  replace (placed [PyStr.sorted (keys_without_fks g0)])
    with (keys_without_fks g0); [apply peel_inv_init|].
  unfold placed. simpl. by rewrite app_nil_r, list_to_set_sorted.
Qed.

(** *** The tiers after the first are not empty *)

Lemma sorted_nil (t : gset string) : PyStr.sorted t = [] → t = ∅.
Proof.
  intros Hs. apply set_eq. intros x. rewrite <- elem_of_sorted, Hs. set_solver.
Qed.

Lemma peel_later_tiers_nonempty fuel d tree tiers :
  tree ≠ [] → later_tiers_nonempty tree →
  peel fuel d tree = Some (Return tiers) →
  tiers ≠ [] ∧ later_tiers_nonempty tiers.
Proof.
  revert d tree. induction fuel as [|fuel IH]; intros d tree Hne Hl; simpl; [done|].
  destruct (decide (d = ∅)); [by intros [= <-]|].
  destruct (decide (next_tier d = ∅)) as [|Hnt]; [done|].
  apply IH; [by destruct tree|].
  intros i tier [Hi|[_ Hi]]%lookup_app_Some; [by eapply Hl|].
  apply list_lookup_singleton_Some in Hi as [_ <-]. intros Hs. by apply Hnt, sorted_nil.
Qed.

Lemma resolve_graph_later_tiers_nonempty tiers :
  resolve_graph g0 = Some (Return tiers) → tiers ≠ [] ∧ later_tiers_nonempty tiers.
Proof.
  unfold resolve_graph. apply peel_later_tiers_nonempty; [done|].
  by intros i tier Hi.
Qed.

End TightTiers.

Section TierCount.
Import Resolver Graph Layers.

Lemma later_tiers_length (tree : list (list string)) :
  Forall (fun tier => tier ≠ []) tree → length tree ≤ length (mjoin tree).
Proof.
  induction 1 as [|tier tree Hne _ IH]; simpl; [done|].
  rewrite length_app. destruct tier; [done|]. simpl. lia.
Qed.

Lemma tiers_length (tiers : list (list string)) :
  later_tiers_nonempty tiers → length tiers ≤ S (length (mjoin tiers)).
Proof.
  destruct tiers as [|first rest]; simpl; [lia|]. intros Hl.
  rewrite length_app.
  assert (length rest ≤ length (mjoin rest)); [|lia].
  apply later_tiers_length, Forall_lookup. intros i tier Hi. by apply (Hl i).
Qed.

End TierCount.

(** *** The dependency graph, looked up by table *)

Section CaseFacts.

Lemma lower_ascii_idemp (c : ascii) :
  PyStr.lower_ascii (PyStr.lower_ascii c) = PyStr.lower_ascii c.
Proof. by destruct c as [[] [] [] [] [] [] [] []]. Qed.

Lemma lower_upper_ascii (c : ascii) :
  PyStr.lower_ascii (PyStr.upper_ascii c) = PyStr.lower_ascii c.
Proof. by destruct c as [[] [] [] [] [] [] [] []]. Qed.

Lemma lower_idemp (s : string) : PyStr.lower (PyStr.lower s) = PyStr.lower s.
Proof. induction s as [|c s IH]; simpl; [done|]. by rewrite lower_ascii_idemp, IH. Qed.

Lemma lower_upper (s : string) : PyStr.lower (PyStr.upper s) = PyStr.lower s.
Proof. induction s as [|c s IH]; simpl; [done|]. by rewrite lower_upper_ascii, IH. Qed.

(** A name that is matched in lower case is in lower case itself. *)
Lemma lower_eq_fixed (s t : string) : PyStr.lower s = t → PyStr.lower t = t.
Proof. intros <-. apply lower_idemp. Qed.

End CaseFacts.

Section GraphLookup.
Import Resolver Graph Spelling.
Implicit Types (fields : list FieldRow) (tables : list string) (r : FieldRow).

Lemma NoDup_fmap_inj_on {A B} (f : A → B) (l : list A) x y :
  NoDup (f <$> l) → x ∈ l → y ∈ l → f x = f y → x = y.
Proof.
  induction l as [|a l IH]; simpl; [by intros _ ?%elem_of_nil|].
  intros [Ha Hnd]%NoDup_cons [->|Hx]%elem_of_cons [->|Hy]%elem_of_cons Hf; [done| | |by apply IH].
  - destruct Ha. rewrite Hf. by apply list_elem_of_fmap_2.
  - destruct Ha. rewrite <- Hf. by apply list_elem_of_fmap_2.
Qed.

Lemma fk_row_selected_table tables r :
  fk_row_selected tables r = true → cdmTableName r ∈ tables.
Proof. by intros [?%bool_decide_eq_true_1 _]%andb_true_iff. Qed.

(** The rows of a group are the selected rows of its table, whatever the
    case the query is made in. *)
Lemma filter_group fields tables K :
  case_unique tables → K ∈ tables →
  List.filter (fun r => String.eqb (cdmTableName r) K)
    (List.filter (fk_row_selected tables) fields)
  = List.filter (fun r => fk_row_selected tables r
                          && String.eqb (PyStr.lower (cdmTableName r)) (PyStr.lower K))
      fields.
Proof.
  intros Hu HK. induction fields as [|r fields IH]; simpl; [done|].
  destruct (fk_row_selected tables r) eqn:Hsel; simpl; [|done].
  rewrite IH.
  destruct (String.eqb_spec (cdmTableName r) K) as [->|Hne].
  - by rewrite String.eqb_refl.
  - destruct (String.eqb_spec (PyStr.lower (cdmTableName r)) (PyStr.lower K)) as [Heq|]; [|done].
    destruct Hne. eapply (NoDup_fmap_inj_on PyStr.lower tables); [done| |done|done].
    by apply fk_row_selected_table.
Qed.

Lemma grouped_keys fields tables :
  (grouped fields tables).*1
  = remove_dups (cdmTableName <$> List.filter (fk_row_selected tables) fields).
Proof.
  unfold grouped. rewrite <- list_fmap_compose.
  induction (remove_dups _) as [|k l IH]; [done|]. by rewrite !fmap_cons, IH.
Qed.

Lemma grouped_lower_NoDup fields tables :
  case_unique tables → NoDup ((fun kv => PyStr.lower kv.1) <$> grouped fields tables).
Proof.
  intros Hu.
  replace ((fun kv : string * list string => PyStr.lower kv.1) <$> grouped fields tables)
    with (PyStr.lower <$> (grouped fields tables).*1) by (by rewrite <- list_fmap_compose).
  rewrite grouped_keys. apply NoDup_fmap_2_strong; [|apply NoDup_remove_dups].
  intros x y Hx Hy. apply (NoDup_fmap_inj_on PyStr.lower tables x y Hu).
  - apply elem_of_remove_dups, list_elem_of_fmap in Hx as (r & -> & Hr).
    apply list_elem_of_In, List.filter_In in Hr as [_ Hr]. by apply fk_row_selected_table.
  - apply elem_of_remove_dups, list_elem_of_fmap in Hy as (r & -> & Hr).
    apply list_elem_of_In, List.filter_In in Hr as [_ Hr]. by apply fk_row_selected_table.
Qed.

(** With names unique up to case, the entry of a table in the dependency
    graph is made of all the selected rows of the table. *)
Lemma fk_graph_lookup fields tables k s :
  case_unique tables →
  fk_graph fields tables !! k = Some s ↔
    (∃ r, r ∈ fields ∧ fk_row_selected tables r = true ∧ PyStr.lower (cdmTableName r) = k)
    ∧ s = declared_fks fields tables k.
Proof.
  intros Hu.
  assert (∀ K, K ∈ remove_dups (cdmTableName <$> List.filter (fk_row_selected tables) fields) →
               ∃ r, r ∈ fields ∧ fk_row_selected tables r = true ∧ cdmTableName r = K)
    as Hkeys.
  { intros K (r & -> & Hr)%elem_of_remove_dups%list_elem_of_fmap.
    apply list_elem_of_In, List.filter_In in Hr as [Hr Hsel].
    exists r. by rewrite list_elem_of_In. }
  assert (∀ K, K ∈ tables →
               lowered_item
                 (K, omap fkTableName
                       (List.filter (fun r => String.eqb (cdmTableName r) K)
                          (List.filter (fk_row_selected tables) fields)))
               = (PyStr.lower K, declared_fks fields tables (PyStr.lower K))) as Hitem.
  { intros K HK. unfold lowered_item, declared_fks. simpl. by rewrite filter_group. }
  split.
  - intros ([K v] & Hkv & Hi)%lowered_lookup_elem_of.
    unfold grouped in Hkv. apply list_elem_of_fmap in Hkv as (K' & [= -> ->] & HK).
    destruct (Hkeys _ HK) as (r & Hr & Hsel & <-).
    rewrite Hitem in Hi by (by apply fk_row_selected_table).
    injection Hi as <- <-. eauto.
  - intros [(r & Hr & Hsel & <-) ->]. unfold fk_graph.
    rewrite lowered_list_to_map. apply elem_of_list_to_map_1.
    + rewrite fmap_reverse, reverse_Permutation, <- list_fmap_compose.
      by apply (grouped_lower_NoDup fields tables).
    + apply elem_of_reverse. rewrite <- Hitem by (by apply fk_row_selected_table).
      apply list_elem_of_fmap_2. unfold grouped.
      apply (list_elem_of_fmap_2
               (fun k => (k, omap fkTableName
                               (List.filter (fun r' => String.eqb (cdmTableName r') k)
                                  (List.filter (fk_row_selected tables) fields))))).
      apply elem_of_remove_dups, list_elem_of_fmap_2.
      apply list_elem_of_In, List.filter_In. by rewrite <- list_elem_of_In.
Qed.

Lemma elem_of_declared_fks fields tables k x :
  x ∈ declared_fks fields tables k ↔
    x ≠ k ∧ ∃ r fk, r ∈ fields ∧ fk_row_selected tables r = true ∧
                    PyStr.lower (cdmTableName r) = k ∧
                    fkTableName r = Some fk ∧ PyStr.lower fk = x.
Proof.
  unfold declared_fks.
  rewrite elem_of_difference, elem_of_list_to_set, list_elem_of_fmap, elem_of_singleton.
  split.
  - intros [(fk & -> & Hfk) Hne]. split; [done|].
    apply list_elem_of_omap in Hfk as (r & Hr & Hfk).
    apply list_elem_of_In, List.filter_In in Hr as [Hr [Hsel Hk%String.eqb_eq]%andb_true_iff].
    exists r, fk. by rewrite list_elem_of_In.
  - intros [Hne (r & fk & Hr & Hsel & Hk & Hfk & <-)]. split; [|done].
    exists fk. split; [done|]. apply list_elem_of_omap. exists r. split; [|done].
    apply list_elem_of_In, List.filter_In. rewrite <- list_elem_of_In. split; [done|].
    rewrite Hsel. simpl. by apply String.eqb_eq.
Qed.

(** Every foreign key a selected row declares to another table is a
    foreign key of the graph. *)
Lemma edge_fk_graph_intro fields tables r fk :
  case_unique tables → r ∈ fields → fk_row_selected tables r = true →
  fkTableName r = Some fk → PyStr.lower fk ≠ PyStr.lower (cdmTableName r) →
  edge (fk_graph fields tables) (PyStr.lower (cdmTableName r)) (PyStr.lower fk).
Proof.
  intros Hu Hr Hsel Hfk Hne. apply edge_lookup.
  exists (declared_fks fields tables (PyStr.lower (cdmTableName r))). split.
  - apply fk_graph_lookup; [done|]. split; [|done]. eauto.
  - apply elem_of_declared_fks. split; [done|]. exists r, fk. done.
Qed.

(** The graph does not depend on the order of the rows of the catalog. *)
Lemma fk_graph_Permutation fields1 fields2 tables :
  case_unique tables → fields1 ≡ₚ fields2 →
  fk_graph fields1 tables = fk_graph fields2 tables.
Proof.
  intros Hu Hp.
  assert (∀ f1 f2 k s, f1 ≡ₚ f2 → fk_graph f1 tables !! k = Some s →
                       fk_graph f2 tables !! k = Some s) as Hone.
  { intros f1 f2 k s Hp' [(r & Hr & Hsel & Hk) ->]%fk_graph_lookup; [|done].
    apply fk_graph_lookup; [done|]. split.
    - exists r. by rewrite <- Hp'.
    - apply set_eq. intros x. rewrite !elem_of_declared_fks.
      by setoid_rewrite Hp'. }
  apply map_eq. intros k.
  destruct (fk_graph fields1 tables !! k) as [s|] eqn:H1.
  - symmetry. by eapply Hone.
  - destruct (fk_graph fields2 tables !! k) as [s|] eqn:H2; [|done].
    apply (Hone fields2 fields1) in H2; [congruence|done].
Qed.

(** The graph depends on the working set as a set. *)
Lemma fk_graph_tables_ext fields tables1 tables2 :
  list_to_set tables1 =@{gset string} list_to_set tables2 →
  fk_graph fields tables1 = fk_graph fields tables2.
Proof.
  intros Hset.
  assert (∀ x, x ∈ tables1 ↔ x ∈ tables2) as Hin.
  { intros x. by rewrite <- !(elem_of_list_to_set (C:=gset string)), Hset. }
  assert (∀ r, fk_row_selected tables1 r = fk_row_selected tables2 r) as Hsel.
  { intros r. unfold fk_row_selected. f_equal; [by apply bool_decide_ext|].
    destruct (fkTableName r); [by apply bool_decide_ext|done]. }
  unfold fk_graph, grouped. by rewrite (List.filter_ext _ _ Hsel).
Qed.

(** A foreign key of the graph separates the tiers of its two tables. *)
Lemma build_tree_edge_tiers fields tables tiers a b :
  build_tree fields tables = Some (Return tiers) →
  edge (fk_graph fields tables) a b →
  ∃ i j, j < i ∧ in_tier tiers i a ∧ in_tier tiers j b.
Proof.
  unfold build_tree. intros [[_ Hfk _] Hall]%resolve_graph_return He.
  assert (a ∈ placed tiers) as [i Hi]%placed_in_tier.
  { apply Hall. apply edge_lookup in He as (s & Hs & _). apply elem_of_dom. eauto. }
  destruct (Hfk i a b Hi He) as (j & Hj & Hin). eauto.
Qed.

End GraphLookup.

(** ** The catalog queries *)

Section CatalogQueries.
Import Catalog.
Implicit Types (self : EtlBase.t) (r : FieldRow).

Lemma dict_snoc {V} (rows : list (string * V)) kv :
  dict (rows ++ [kv]) = <[kv.1 := kv.2]> (dict rows).
Proof. unfold dict. by rewrite foldl_app. Qed.

Lemma dict_lookup_elem_of {V} (rows : list (string * V)) k v :
  dict rows !! k = Some v → (k, v) ∈ rows.
Proof.
  induction rows as [|[k' v'] rows IH] using rev_ind; [done|].
  rewrite dict_snoc, elem_of_app, list_elem_of_singleton. simpl.
  intros [[-> ->]|[_ H]]%lookup_insert_Some; auto.
Qed.

Lemma dict_nil {V} : dict (@nil (string * V)) = ∅.
Proof. done. Qed.

Lemma of_table_true t r : of_table t r = true ↔ PyStr.lower (cdmTableName r) = t.
Proof. unfold of_table. apply String.eqb_eq. Qed.

(** A name that is not in lower case matches no row. *)
Lemma of_table_not_lower t r : PyStr.lower t ≠ t → of_table t r = false.
Proof.
  intros Hne. apply not_true_is_false. intros H%of_table_true.
  by apply Hne, (lower_eq_fixed (cdmTableName r)).
Qed.

Lemma filter_none {A} (p : A → bool) (l : list A) :
  (∀ x, p x = false) → List.filter p l = [].
Proof. intros Hp. induction l as [|x l IH]; simpl; [done|]. by rewrite Hp. Qed.

Lemma filter_sublist {A} (p q : A → bool) (l : list A) :
  List.filter (fun x => p x && q x) l `sublist_of` List.filter p l.
Proof.
  induction l as [|x l IH]; simpl; [done|].
  destruct (p x); simpl; [|done]. destruct (q x); by constructor.
Qed.

Lemma elem_of_column_names self t col :
  col ∈ _get_omop_column_names self t ↔
    ∃ r, r ∈ EtlBase._df_omop_fields self ∧ PyStr.lower (cdmTableName r) = t
         ∧ cdmFieldName r = col.
Proof.
  unfold _get_omop_column_names. rewrite list_elem_of_fmap. split.
  - intros (r & -> & [Hr Ht]%list_elem_of_In%List.filter_In).
    exists r. by rewrite list_elem_of_In, <- of_table_true.
  - intros (r & Hr & Ht & <-). exists r. split; [done|].
    apply list_elem_of_In, List.filter_In. by rewrite <- list_elem_of_In, of_table_true.
Qed.

(** The row behind an entry of [_get_fks]. *)
Lemma get_fks_row self t col fk :
  _get_fks self t !! col = Some fk →
  ∃ r target, r ∈ EtlBase._df_omop_fields self ∧
              PyStr.lower (cdmTableName r) = t ∧ isForeignKey r = Some "Yes" ∧
              fkTableName r = Some target ∧ PyStr.lower target ≠ "concept" ∧
              cdmFieldName r = col ∧ PyStr.lower target = fk.
Proof.
  unfold _get_fks. intros (r & Hr & Hkv)%dict_lookup_elem_of%list_elem_of_omap.
  apply list_elem_of_In, List.filter_In in Hr as [Hr Hsel].
  unfold is_fk_row in Hsel.
  destruct (fkTableName r) as [target|] eqn:Hfk; [|done]. injection Hkv as <- <-.
  apply andb_true_iff in Hsel as [[Ht%of_table_true Hyes%cell_is_true]%andb_true_iff Hc].
  exists r, target. rewrite list_elem_of_In. split_and!; [done..| |done|done].
  intros Heq. by rewrite Heq in Hc.
Qed.

(** *** The schema loop *)

Lemma schema_of_rows_Ok rows acc schema :
  schema_of_rows rows acc = Ok schema →
  dom schema = dom acc ∪ list_to_set (cdmFieldName <$> rows) ∧
  Forall (fun r => ∃ ty, _get_polars_type (cdmDatatype r) = Ok ty) rows ∧
  ∀ col ty, schema !! col = Some ty →
            acc !! col = Some ty ∨
            ∃ r, r ∈ rows ∧ cdmFieldName r = col ∧ _get_polars_type (cdmDatatype r) = Ok ty.
Proof.
  revert acc. induction rows as [|r rows IH]; intros acc; simpl.
  - intros [= <-]. split_and!; [set_solver|done|auto].
  - destruct (_get_polars_type (cdmDatatype r)) as [ty|msg] eqn:Hty; [|done].
    intros (Hdom & Hall & Hlook)%IH. split_and!.
    + rewrite Hdom, dom_insert_L. set_solver.
    + constructor; eauto.
    + intros col ty' [[[<- <-]|[_ ?]]%lookup_insert_Some|(r' & ? & ? & ?)]%Hlook; [|by left|].
      * right. exists r. split_and!; [by left|done|done].
      * right. exists r'. split_and!; [by right|done|done].
Qed.

Lemma schema_of_rows_ValueError rows acc msg :
  schema_of_rows rows acc = ValueError msg →
  ∃ pre r post, rows = pre ++ r :: post ∧
                Forall (fun r => ∃ ty, _get_polars_type (cdmDatatype r) = Ok ty) pre ∧
                _get_polars_type (cdmDatatype r) = ValueError msg.
Proof.
  revert acc. induction rows as [|r rows IH]; intros acc; simpl; [done|].
  destruct (_get_polars_type (cdmDatatype r)) as [ty|msg'] eqn:Hty.
  - intros (pre & r' & post & -> & Hpre & Hr')%IH.
    exists (r :: pre), r', post. split_and!; [done| |done]. constructor; eauto.
  - intros [= <-]. by exists [], r, rows.
Qed.

End CatalogQueries.

(** ** Further properties of the resolver and of the catalog queries *)

(** X1.  The resolver places every table as early as its foreign keys
    allow.  In a returned tier list, the first tier holds exactly the tables
    that have an entry in the dependency graph and no foreign key; a table
    with an entry that is placed in a later tier has a foreign key to a table
    of the tier just before; and a table without an entry of its own (it is
    only referred to) is placed in the second tier. *)
Theorem resolver_places_tables_as_early_as_possible
    (self : EtlBase.t) (tables : list string) (tiers : list (list string)) :
  (EtlBase._build_fk_dependency_tree_of_tables tables self).1 = Some (Return tiers) →
  (∀ x, Graph.in_tier tiers 0 x ↔
        Resolver.fk_graph (EtlBase._df_omop_fields self) tables !! x = Some ∅) ∧
  (∀ i x, Graph.in_tier tiers (S i) x →
          x ∈ dom (Resolver.fk_graph (EtlBase._df_omop_fields self) tables) →
          ∃ fk, Graph.edge (Resolver.fk_graph (EtlBase._df_omop_fields self) tables) x fk
                ∧ Graph.in_tier tiers i fk) ∧
  (∀ i x, Graph.in_tier tiers i x →
          x ∉ dom (Resolver.fk_graph (EtlBase._df_omop_fields self) tables) →
          i = 1).
Proof.
  unfold EtlBase._build_fk_dependency_tree_of_tables, Resolver.build_tree. simpl.
  intros [Hfirst Hnext Htargets]%resolve_graph_tight. done.
Qed.

Lemma resolver_places_tables_as_early_as_possible_witness :
  (∀ x, Graph.in_tier [["person"]; ["visit_occurrence"]; ["condition_occurrence"]] 0 x ↔
        Resolver.fk_graph (EtlBase._df_omop_fields scenario_A_self) scenario_A_tables !! x
        = Some ∅) ∧
  (∀ i x, Graph.in_tier [["person"]; ["visit_occurrence"]; ["condition_occurrence"]] (S i) x →
          x ∈ dom (Resolver.fk_graph (EtlBase._df_omop_fields scenario_A_self)
                     scenario_A_tables) →
          ∃ fk, Graph.edge (Resolver.fk_graph (EtlBase._df_omop_fields scenario_A_self)
                              scenario_A_tables) x fk
                ∧ Graph.in_tier [["person"]; ["visit_occurrence"]; ["condition_occurrence"]]
                    i fk) ∧
  (∀ i x, Graph.in_tier [["person"]; ["visit_occurrence"]; ["condition_occurrence"]] i x →
          x ∉ dom (Resolver.fk_graph (EtlBase._df_omop_fields scenario_A_self)
                     scenario_A_tables) →
          i = 1).
Proof.
  apply (resolver_places_tables_as_early_as_possible scenario_A_self scenario_A_tables).
  vm_compute. reflexivity.
Defined.

(** X2.  A returned tier list has at least one tier, every tier after the
    first lists at least one table, and so there are at most as many tiers
    as tables listed, plus one. *)
Theorem resolver_tiers_after_the_first_are_not_empty
    (self : EtlBase.t) (tables : list string) (tiers : list (list string)) :
  (EtlBase._build_fk_dependency_tree_of_tables tables self).1 = Some (Return tiers) →
  tiers ≠ [] ∧
  (∀ i tier, tiers !! S i = Some tier → tier ≠ []) ∧
  length tiers ≤ S (length (mjoin tiers)).
Proof.
  unfold EtlBase._build_fk_dependency_tree_of_tables, Resolver.build_tree. simpl.
  intros [Hne Hlater]%resolve_graph_later_tiers_nonempty.
  split_and!; [done|done|by apply tiers_length].
Qed.

Lemma resolver_tiers_after_the_first_are_not_empty_witness :
  [["person"]; ["visit_occurrence"]; ["condition_occurrence"]] ≠ [] ∧
  (∀ i tier, [["person"]; ["visit_occurrence"]; ["condition_occurrence"]] !! S i = Some tier →
             tier ≠ []) ∧
  length [["person"]; ["visit_occurrence"]; ["condition_occurrence"]]
  ≤ S (length (mjoin [["person"]; ["visit_occurrence"]; ["condition_occurrence"]])).
Proof.
  apply (resolver_tiers_after_the_first_are_not_empty scenario_A_self scenario_A_tables).
  vm_compute. reflexivity.
Defined.

(** X3.  When the filter selects no row of the field catalog (an empty
    working set, an empty catalog, or table names written in another case
    than the catalog's: the membership tests are case sensitive), the
    resolver returns one empty tier. *)
Theorem resolver_without_selected_rows (self : EtlBase.t) (tables : list string) :
  Forall (fun r => Resolver.fk_row_selected tables r = false)
         (EtlBase._df_omop_fields self) →
  EtlBase._build_fk_dependency_tree_of_tables tables self = (Some (Return [[]]), self).
Proof.
  intros Hnone.
  assert (List.filter (Resolver.fk_row_selected tables) (EtlBase._df_omop_fields self) = [])
    as Hf.
  { induction Hnone as [|r l Hr _ IH]; simpl; [done|]. by rewrite Hr. }
  unfold EtlBase._build_fk_dependency_tree_of_tables,
    Resolver.build_tree, Resolver.fk_graph, Resolver.grouped.
  rewrite Hf. vm_compute. reflexivity.
Qed.

Lemma resolver_without_selected_rows_witness :
  EtlBase._build_fk_dependency_tree_of_tables ["person"; "visit_occurrence"] scenario_A_self
  = (Some (Return [[]]), scenario_A_self).
Proof.
  apply (resolver_without_selected_rows scenario_A_self ["person"; "visit_occurrence"]).
  apply (bool_decide_unpack _). vm_compute. exact I.
Defined.

(** X4.  The tier list depends neither on the order of the rows of the
    field catalog nor on the order or the repetitions of the working set,
    as long as no two tables of the working set differ by case only. *)
Theorem resolver_ignores_the_order_of_its_inputs
    (self1 self2 : EtlBase.t) (tables1 tables2 : list string) :
  Spelling.case_unique tables1 →
  EtlBase._df_omop_fields self1 ≡ₚ EtlBase._df_omop_fields self2 →
  list_to_set tables1 =@{gset string} list_to_set tables2 →
  (EtlBase._build_fk_dependency_tree_of_tables tables1 self1).1
  = (EtlBase._build_fk_dependency_tree_of_tables tables2 self2).1.
Proof.
  intros Hu Hp Hset.
  unfold EtlBase._build_fk_dependency_tree_of_tables, Resolver.build_tree. simpl.
  by rewrite (fk_graph_Permutation _ _ tables1 Hu Hp),
    (fk_graph_tables_ext _ _ _ Hset).
Qed.

Lemma resolver_ignores_the_order_of_its_inputs_witness :
  (EtlBase._build_fk_dependency_tree_of_tables scenario_A_tables scenario_A_self).1
  = (EtlBase._build_fk_dependency_tree_of_tables
       ("PERSON" :: reverse scenario_A_tables)
       (etl_base_of scenario_A_table_level (reverse scenario_A_fields))).1.
Proof.
  apply (resolver_ignores_the_order_of_its_inputs scenario_A_self
           (etl_base_of scenario_A_table_level (reverse scenario_A_fields))
           scenario_A_tables ("PERSON" :: reverse scenario_A_tables)).
  - apply (bool_decide_unpack _). vm_compute. exact I.
  - apply (bool_decide_unpack _). vm_compute. exact I.
  - apply (bool_decide_unpack _). vm_compute. exact I.
Defined.

(** X5.  A foreign key that [_get_fks] reports for a table, to another
    table, is respected by the tier list: the referenced table is in a
    strictly earlier tier.  This holds when no two tables of the working set
    differ by case only and the catalog writes the two tables the way the
    working set does. *)
Theorem declared_foreign_keys_point_to_earlier_tiers
    (self : EtlBase.t) (tables : list string) (tiers : list (list string))
    (t col fk : string) :
  (EtlBase._build_fk_dependency_tree_of_tables tables self).1 = Some (Return tiers) →
  Spelling.case_unique tables →
  Forall (Spelling.written_as_in tables t) (EtlBase._df_omop_fields self) →
  Forall (Spelling.written_as_in tables fk) (EtlBase._df_omop_fields self) →
  Catalog._get_fks self t !! col = Some fk →
  fk ≠ t →
  ∃ i j, j < i ∧ Graph.in_tier tiers i t ∧ Graph.in_tier tiers j fk.
Proof.
  unfold EtlBase._build_fk_dependency_tree_of_tables. simpl.
  intros Hbuild Hu Ht Hfk Hget Hne.
  apply get_fks_row in Hget as (r & target & Hr & Hrt & _ & Htarget & _ & _ & Hlow).
  rewrite Forall_forall in Ht, Hfk.
  destruct (Ht r Hr) as [Hin _]. destruct (Hfk r Hr) as [_ Hin'].
  apply (build_tree_edge_tiers _ _ _ _ _ Hbuild).
  rewrite <- Hrt, <- Hlow. apply edge_fk_graph_intro; [done|done| |done|congruence].
  unfold Resolver.fk_row_selected. rewrite Htarget.
  rewrite !bool_decide_eq_true_2; [done|by apply Hin'|by apply Hin].
Qed.

Lemma declared_foreign_keys_point_to_earlier_tiers_witness :
  ∃ i j, j < i
         ∧ Graph.in_tier [["person"]; ["visit_occurrence"]; ["condition_occurrence"]] i
             "condition_occurrence"
         ∧ Graph.in_tier [["person"]; ["visit_occurrence"]; ["condition_occurrence"]] j
             "visit_occurrence".
Proof.
  apply (declared_foreign_keys_point_to_earlier_tiers scenario_A_self scenario_A_tables
           _ "condition_occurrence" "visit_occurrence_id" "visit_occurrence").
  - vm_compute. reflexivity.
  - apply (bool_decide_unpack _). vm_compute. exact I.
  - apply (bool_decide_unpack _). vm_compute. exact I.
  - apply (bool_decide_unpack _). vm_compute. exact I.
  - vm_compute. reflexivity.
  - discriminate.
Defined.

(** X6.  The purpose of the NOTE_NLP override: in the tier list of a
    constructed object, note_nlp is in a strictly later tier than note,
    provided NOTE and the table of the corrected row belong to the working
    set and no two tables of the working set differ by case only. *)
Theorem note_nlp_is_resolved_after_note
    (table_level : list TableRow) (field_level : list FieldRow) (self : EtlBase.t)
    (row_nr : nat) (r : FieldRow) :
  EtlBase.__init__ table_level field_level = Some (Return self) →
  list_find EtlBase.is_note_nlp_note_id field_level = Some (row_nr, r) →
  Spelling.case_unique (EtlBase.resolver_tables self) →
  cdmTableName r ∈ EtlBase.resolver_tables self →
  "NOTE" ∈ EtlBase.resolver_tables self →
  ∃ i j, j < i
         ∧ Graph.in_tier (EtlBase._cdm_tables_fks_dependencies_resolved self) i "note_nlp"
         ∧ Graph.in_tier (EtlBase._cdm_tables_fks_dependencies_resolved self) j "note".
Proof.
  intros Hinit Hfind Hu Hin Hnote.
  pose proof Hfind as (Hr & [Hm _] & _)%list_find_Some.
  assert (EtlBase.note_nlp_override field_level
          = Return (alter EtlBase.set_fk_to_note row_nr field_level)) as Hov.
  { unfold EtlBase.note_nlp_override. by rewrite Hfind. }
  destruct (init_Return _ _ _ _ Hov Hinit) as (Hfields & _ & Hbuild).
  apply (build_tree_edge_tiers _ _ _ _ _ Hbuild).
  assert (PyStr.lower (cdmTableName r) = "note_nlp") as Hlow.
  { by rewrite <- lower_upper, Hm. }
  change "note" with (PyStr.lower "NOTE"). rewrite <- Hlow.
  apply (edge_fk_graph_intro _ _ (EtlBase.set_fk_to_note r) "NOTE"); [done| |..].
  - apply list_elem_of_lookup. exists row_nr. by rewrite list_lookup_alter_eq, Hr.
  - unfold Resolver.fk_row_selected. simpl. by rewrite !bool_decide_eq_true_2.
  - done.
  - simpl. by rewrite Hlow.
Qed.

Lemma note_nlp_is_resolved_after_note_witness :
  ∃ i j, j < i
         ∧ Graph.in_tier [["person"]; ["note"; "visit_occurrence"];
                          ["condition_occurrence"; "note_nlp"]] i "note_nlp"
         ∧ Graph.in_tier [["person"]; ["note"; "visit_occurrence"];
                          ["condition_occurrence"; "note_nlp"]] j "note".
Proof.
  apply (note_nlp_is_resolved_after_note scenario_A_table_level note_field_level _
           11 (fk_row "NOTE_NLP" "note_id" None) init_note_example).
  - vm_compute. reflexivity.
  - apply (bool_decide_unpack _). vm_compute. exact I.
  - apply (bool_decide_unpack _). vm_compute. exact I.
  - apply (bool_decide_unpack _). vm_compute. exact I.
Defined.

(** X7.  The catalog queries compare the lower-cased table name of each row
    with their argument as it is given: for a name that is not in lower
    case they find no row, so there are no columns, no required columns, no
    primary key, no auto numbering, no foreign keys, and an empty schema. *)
Theorem catalog_queries_match_lower_case_names_only
    (self : EtlBase.t) (omop_table_name : string) :
  PyStr.lower omop_table_name ≠ omop_table_name →
  Catalog._get_omop_column_names self omop_table_name = [] ∧
  Catalog._get_required_omop_column_names self omop_table_name = [] ∧
  EtlBase._get_pk self omop_table_name = None ∧
  EtlBase._is_pk_auto_numbering self omop_table_name = false ∧
  Catalog._get_fks self omop_table_name = ∅ ∧
  Catalog._get_polars_schema_for_cdm_table self omop_table_name = Ok ∅.
Proof.
  intros Hne.
  pose proof (fun r => of_table_not_lower omop_table_name r Hne) as Hnone.
  unfold Catalog._get_omop_column_names, Catalog._get_required_omop_column_names,
    EtlBase._get_pk, EtlBase._is_pk_auto_numbering, Catalog._get_fks,
    Catalog._get_polars_schema_for_cdm_table.
  rewrite (filter_none (Catalog.of_table omop_table_name)) by done.
  rewrite (filter_none (fun r => Catalog.of_table omop_table_name r && _)).
  2:{ intros r. by rewrite Hnone. }
  rewrite (filter_none (EtlBase.is_pk_row omop_table_name)).
  2:{ intros r. unfold EtlBase.is_pk_row. fold (Catalog.of_table omop_table_name r).
      by rewrite Hnone. }
  rewrite (filter_none (fun r => EtlBase.is_pk_row omop_table_name r && _)).
  2:{ intros r. unfold EtlBase.is_pk_row. fold (Catalog.of_table omop_table_name r).
      by rewrite Hnone. }
  rewrite (filter_none (Catalog.is_fk_row omop_table_name)).
  2:{ intros r. unfold Catalog.is_fk_row. by rewrite Hnone. }
  done.
Qed.

Lemma catalog_queries_match_lower_case_names_only_witness :
  Catalog._get_omop_column_names example_base "PERSON" = [] ∧
  Catalog._get_required_omop_column_names example_base "PERSON" = [] ∧
  EtlBase._get_pk example_base "PERSON" = None ∧
  EtlBase._is_pk_auto_numbering example_base "PERSON" = false ∧
  Catalog._get_fks example_base "PERSON" = ∅ ∧
  Catalog._get_polars_schema_for_cdm_table example_base "PERSON" = Ok ∅.
Proof.
  apply (catalog_queries_match_lower_case_names_only example_base "PERSON").
  discriminate.
Defined.

(** X8.  What the catalog queries report for a table belongs to the table:
    the required columns are a sublist of its columns, the primary key is
    one of its columns, and every foreign key is reported under one of its
    columns, with a referenced table in lower case that is never the
    concept table. *)
Theorem catalog_queries_report_columns_of_the_table
    (self : EtlBase.t) (omop_table_name : string) :
  Catalog._get_required_omop_column_names self omop_table_name
    `sublist_of` Catalog._get_omop_column_names self omop_table_name ∧
  (∀ pk, EtlBase._get_pk self omop_table_name = Some pk →
         pk ∈ Catalog._get_omop_column_names self omop_table_name) ∧
  (∀ col fk, Catalog._get_fks self omop_table_name !! col = Some fk →
             col ∈ Catalog._get_omop_column_names self omop_table_name ∧
             fk ≠ "concept" ∧ PyStr.lower fk = fk).
Proof.
  split_and!.
  - unfold Catalog._get_required_omop_column_names, Catalog._get_omop_column_names.
    apply fmap_sublist, filter_sublist.
  - intros pk. unfold EtlBase._get_pk.
    destruct (cdmFieldName <$> List.filter _ _) as [|pk' l] eqn:Hf; [done|].
    destruct (String.eqb pk' EmptyString); [done|]. intros [= <-].
    assert (pk' ∈ cdmFieldName <$>
              List.filter (EtlBase.is_pk_row omop_table_name) (EtlBase._df_omop_fields self))
      as (r & -> & Hr)%list_elem_of_fmap by (rewrite Hf; by left).
    apply list_elem_of_In, List.filter_In in Hr as [Hr [Ht _]%andb_true_iff].
    apply elem_of_column_names. exists r. rewrite list_elem_of_In.
    by apply String.eqb_eq in Ht.
  - intros col fk (r & target & Hr & Ht & _ & _ & Hc & Hcol & <-)%get_fks_row.
    split_and!; [|done|apply lower_idemp].
    apply elem_of_column_names. eauto.
Qed.

(** X9.  [_get_polars_schema_for_cdm_table] either returns a schema with
    an entry for exactly the columns of the table, each entry being the type
    of a row of that column, or raises the [ValueError] of the first row of
    the table whose data type [_get_polars_type] does not know, all rows of
    the table before it having a known type. *)
Theorem polars_schema_covers_the_table_or_fails
    (self : EtlBase.t) (vocabulary_table : string) :
  match Catalog._get_polars_schema_for_cdm_table self vocabulary_table with
  | Ok polars_schema =>
      dom polars_schema
      = list_to_set (Catalog._get_omop_column_names self vocabulary_table) ∧
      (∀ r, r ∈ EtlBase._df_omop_fields self →
            PyStr.lower (cdmTableName r) = vocabulary_table →
            ∃ ty, Catalog._get_polars_type (cdmDatatype r) = Ok ty) ∧
      (∀ col ty, polars_schema !! col = Some ty →
                 ∃ r, r ∈ EtlBase._df_omop_fields self ∧
                      PyStr.lower (cdmTableName r) = vocabulary_table ∧
                      cdmFieldName r = col ∧
                      Catalog._get_polars_type (cdmDatatype r) = Ok ty)
  | ValueError msg =>
      ∃ pre r post,
        List.filter (Catalog.of_table vocabulary_table) (EtlBase._df_omop_fields self)
        = pre ++ r :: post ∧
        Forall (fun r' => ∃ ty, Catalog._get_polars_type (cdmDatatype r') = Ok ty) pre ∧
        Catalog._get_polars_type (cdmDatatype r) = ValueError msg ∧
        msg = String.append "Unknown cdmDatatype: " (Catalog.str_of_cell (cdmDatatype r))
  end.
Proof.
  unfold Catalog._get_polars_schema_for_cdm_table.
  destruct (Catalog.schema_of_rows _ ∅) as [polars_schema|msg] eqn:Hs.
  - apply schema_of_rows_Ok in Hs as (Hdom & Hall & Hlook). split_and!.
    + rewrite Hdom, dom_empty_L. unfold Catalog._get_omop_column_names. set_solver.
    + intros r Hr Ht. rewrite Forall_forall in Hall. apply Hall.
      apply list_elem_of_In, List.filter_In. by rewrite <- list_elem_of_In, of_table_true.
    + intros col ty [?|(r & Hr & Hcol & Hty)]%Hlook; [done|].
      apply list_elem_of_In, List.filter_In in Hr as [Hr Ht%of_table_true].
      exists r. by rewrite list_elem_of_In.
  - apply schema_of_rows_ValueError in Hs as (pre & r & post & Hrows & Hpre & Hr).
    exists pre, r, post. split_and!; [done..|].
    unfold Catalog._get_polars_type in Hr.
    destruct (List.find _ _); [done|]. by injection Hr as <-.
Qed.

(** ** Names of work tables *)

Section StringFacts.
Implicit Types (s t p q : string) (c : ascii).

Lemma string_app_nil_r s : s +:+ EmptyString = s.
Proof. induction s as [|c s IH]; [done|]. by rewrite string_app_cons, IH. Qed.

Lemma string_app_assoc s t p : (s +:+ t) +:+ p = s +:+ (t +:+ p).
Proof. induction s as [|c s IH]; [done|]. by rewrite !string_app_cons, IH. Qed.

Lemma string_length_app s t : String.length (s +:+ t) = String.length s + String.length t.
Proof. induction s as [|c s IH]; [done|]. rewrite string_app_cons. simpl. by rewrite IH. Qed.

Lemma string_of_list_ascii_app (l1 l2 : list ascii) :
  string_of_list_ascii (l1 ++ l2) = string_of_list_ascii l1 +:+ string_of_list_ascii l2.
Proof. induction l1 as [|c l1 IH]; [done|]. simpl. by rewrite IH. Qed.

Lemma list_ascii_of_string_app s t :
  list_ascii_of_string (s +:+ t) = list_ascii_of_string s ++ list_ascii_of_string t.
Proof. induction s as [|c s IH]; [done|]. rewrite string_app_cons. simpl. by rewrite IH. Qed.

Lemma rev_app s t : PyStr.rev (s +:+ t) = PyStr.rev t +:+ PyStr.rev s.
Proof.
  unfold PyStr.rev. by rewrite list_ascii_of_string_app, List.rev_app_distr,
    string_of_list_ascii_app.
Qed.

Lemma rev_cons c s : PyStr.rev (String c s) = PyStr.rev s +:+ String c EmptyString.
Proof. unfold PyStr.rev. simpl. by rewrite string_of_list_ascii_app. Qed.

Lemma rev_rev s : PyStr.rev (PyStr.rev s) = s.
Proof.
  unfold PyStr.rev. by rewrite list_ascii_of_string_of_list_ascii, List.rev_involutive,
    string_of_list_ascii_of_string.
Qed.

Lemma startswith_nil s : PyStr.startswith s EmptyString = true.
Proof. by destruct s. Qed.

Lemma startswith_dunder c c' s :
  PyStr.startswith (String c (String c' s)) "__" = false →
  Ascii.eqb c "_" && Ascii.eqb c' "_" = false.
Proof.
  cbn [PyStr.startswith]. rewrite startswith_nil, (Ascii.eqb_sym c), (Ascii.eqb_sym c').
  destruct (Ascii.eqb "_" c); [|done]. by destruct (Ascii.eqb "_" c').
Qed.

Lemma startswith_app p s : PyStr.startswith (p +:+ s) p = true.
Proof. apply startswith_spec. eauto. Qed.

(** [s.endswith(p)] holds exactly when [s] is some string followed by [p]. *)
Lemma endswith_spec s p : PyStr.endswith s p = true ↔ ∃ q, s = q +:+ p.
Proof.
  unfold PyStr.endswith. rewrite startswith_spec. split.
  - intros (r & Hr). exists (PyStr.rev r).
    by rewrite <- (rev_rev s), Hr, rev_app, rev_rev.
  - intros (q & ->). exists (PyStr.rev q). by rewrite rev_app.
Qed.

Lemma endswith_app s p : PyStr.endswith (s +:+ p) p = true.
Proof. apply endswith_spec. eauto. Qed.

Lemma substring_prefix s t : String.substring 0 (String.length s) (s +:+ t) = s.
Proof.
  induction s as [|c s IH].
  - by destruct t.
  - rewrite string_app_cons. simpl. by rewrite IH.
Qed.

(** Removing a suffix that was appended gives the string back. *)
Lemma removesuffix_app s p : PyStr.removesuffix (s +:+ p) p = s.
Proof.
  unfold PyStr.removesuffix. rewrite endswith_app, string_length_app.
  replace (String.length s + String.length p - String.length p) with (String.length s) by lia.
  apply substring_prefix.
Qed.

(** *** Splitting at the double underscore *)

(** A string that does not end with an underscore. *)
Lemma endswith_underscore_cons c s :
  PyStr.endswith (String c s) "_" = false →
  (s = EmptyString → c ≠ "_"%char) ∧ (s ≠ EmptyString → PyStr.endswith s "_" = false).
Proof.
  intros He. split.
  - intros -> ->. by vm_compute in He.
  - intros Hne. apply not_true_is_false. intros (q & Hq)%endswith_spec.
    apply not_true_iff_false in He. apply He, endswith_spec.
    exists (String c q). by rewrite string_app_cons, <- Hq.
Qed.

Lemma split_dunder_aux_cons c c' s cur :
  PyStr.split_dunder_aux (String c (String c' s)) cur
  = if Ascii.eqb c "_" && Ascii.eqb c' "_"
    then PyStr.rev cur :: PyStr.split_dunder_aux s EmptyString
    else PyStr.split_dunder_aux (String c' s) (String c cur).
Proof. done. Qed.

Lemma split_dunder_aux_no_sep s cur :
  PyStr.contains "__" s = false →
  PyStr.split_dunder_aux s cur = [PyStr.rev cur +:+ s].
Proof.
  revert cur. induction s as [|c s IH]; intros cur Hc.
  - simpl. by rewrite string_app_nil_r.
  - cbn [PyStr.contains] in Hc. apply orb_false_iff in Hc as [Hs Hc].
    destruct s as [|c' s].
    + simpl. by rewrite rev_cons.
    + rewrite split_dunder_aux_cons, (startswith_dunder _ _ _ Hs).
      by rewrite (IH _ Hc), rev_cons, string_app_assoc.
Qed.

(** Without the separator there is one piece, the string itself. *)
Lemma split_dunder_no_sep s : PyStr.contains "__" s = false → PyStr.split_dunder s = [s].
Proof. intros Hc. unfold PyStr.split_dunder. by rewrite split_dunder_aux_no_sep. Qed.

Lemma split_dunder_aux_sep s rest cur :
  PyStr.contains "__" s = false → PyStr.endswith s "_" = false →
  PyStr.split_dunder_aux (s +:+ String "_" (String "_" rest)) cur
  = (PyStr.rev cur +:+ s) :: PyStr.split_dunder_aux rest EmptyString.
Proof.
  revert cur. induction s as [|c s IH]; intros cur Hc He.
  - cbn. by rewrite string_app_nil_r.
  - cbn [PyStr.contains] in Hc. apply orb_false_iff in Hc as [Hs Hc].
    apply endswith_underscore_cons in He as [He1 He2].
    rewrite string_app_cons. destruct s as [|c' s].
    + change (EmptyString +:+ String "_" (String "_" rest))
        with (String "_" (String "_" rest)).
      rewrite split_dunder_aux_cons.
      assert (Ascii.eqb c "_" = false) as -> by (by apply Ascii.eqb_neq, He1).
      cbn [andb]. rewrite split_dunder_aux_cons, Ascii.eqb_refl. cbn [andb].
      by rewrite rev_cons.
    + rewrite string_app_cons, split_dunder_aux_cons, (startswith_dunder _ _ _ Hs).
      rewrite <- string_app_cons. rewrite (IH (String c cur)); [|done|by apply He2].
      by rewrite rev_cons, string_app_assoc.
Qed.

(** A piece that has no separator and does not end with an underscore is
    split off at the separator that follows it. *)
Lemma split_dunder_sep s rest :
  PyStr.contains "__" s = false → PyStr.endswith s "_" = false →
  PyStr.split_dunder (s +:+ "__" +:+ rest) = s :: PyStr.split_dunder rest.
Proof.
  intros Hc He. unfold PyStr.split_dunder.
  change ("__" +:+ rest) with (String "_" (String "_" rest)).
  by rewrite split_dunder_aux_sep.
Qed.

Lemma contains_dunder_app s t :
  PyStr.contains "__" s = false → PyStr.endswith s "_" = false →
  PyStr.contains "__" t = false →
  PyStr.contains "__" (s +:+ t) = false.
Proof.
  intros Hs He Ht. induction s as [|c s IH]; [done|].
  cbn [PyStr.contains] in Hs. apply orb_false_iff in Hs as [Hs1 Hs2].
  apply endswith_underscore_cons in He as [He1 He2].
  rewrite string_app_cons. cbn [PyStr.contains]. apply orb_false_iff. split.
  - destruct s as [|c' s].
    + change (EmptyString +:+ t) with t. cbn [PyStr.startswith].
      destruct (Ascii.eqb_spec "_" c) as [<-|]; [by destruct He1|done].
    + rewrite string_app_cons. cbn [PyStr.startswith] in *.
      by rewrite startswith_nil in *.
  - destruct s as [|c' s]; [done|]. apply IH; [done|by apply He2].
Qed.

End StringFacts.

(** ** Further facts on the driver *)

Section DriverTraces.
Import Etl Observe.
Context {W : Type}.
Variable handler : ∀ c : call, W → W * result (answer c).
Variable infer : string → string → fk_columns → result fk_columns.

Lemma trace_eq {A} (m : M A) (w w' : W) tr r : m w = (w', tr, r) → trace m w = tr.
Proof. unfold trace. by intros ->. Qed.

Lemma outcome_eq {A} (m : M A) (w w' : W) tr r : m w = (w', tr, r) → outcome m w = r.
Proof. unfold outcome. by intros ->. Qed.

Lemma omap_calls_none {A B} (proj : call → option B) (m : M A) (w : W) :
  calls_satisfy (fun c => proj c = None) m → omap proj (trace m w) = [].
Proof.
  intros H. specialize (H w). induction H as [|c tr Hc _ IH]; [done|].
  simpl. by rewrite Hc.
Qed.

Lemma ret_inv {A} (a b : A) (w w' : W) tr :
  ret a w = (w', tr, Return b) → w' = w ∧ tr = [] ∧ b = a.
Proof. unfold ret. by intros [= -> <- ->]. Qed.

Lemma lift_inv {A} (r : result A) (w w' : W) tr r' :
  lift r w = (w', tr, r') → w' = w ∧ tr = [] ∧ r' = r.
Proof. unfold lift. by intros [= -> <- ->]. Qed.

Lemma getattr_Return_inv {A} name (o : option A) (w w' : W) tr a :
  getattr name o w = (w', tr, Return a) → o = Some a ∧ w' = w ∧ tr = [].
Proof. destruct o as [a'|]; [|done]. by intros (-> & -> & ->)%ret_inv. Qed.

Lemma bind_Raise_inv {A B} (m : M A) (f : A → M B) (w w' : W) tr e :
  bind m f w = (w', tr, Raise e) →
  m w = (w', tr, Raise e) ∨
  ∃ w1 tr1 a tr2, m w = (w1, tr1, Return a) ∧ f a w1 = (w', tr2, Raise e) ∧ tr = tr1 ++ tr2.
Proof.
  unfold bind. destruct (m w) as [[w1 tr1] [a|e']].
  - destruct (f a w1) as [[w2 tr2] r] eqn:Hf. intros [= -> <- ->].
    right. by exists w1, tr1, a, tr2.
  - intros [= -> -> ->]. by left.
Qed.

(** What a loop that returns has observably done is what its iterations
    have done, in order. *)
Lemma for_Return_omap {A B} (proj : call → option B) (g : A → list B)
    (l : list A) (body : A → M unit) (w w' : W) tr :
  (∀ x w w' tr, x ∈ l → body x w = (w', tr, Return tt) → omap proj tr = g x) →
  for_ l body w = (w', tr, Return tt) →
  omap proj tr = mjoin (g <$> l).
Proof.
  revert w tr. induction l as [|x l IH]; intros w tr Hbody; simpl.
  - by intros (_ & -> & _)%ret_inv.
  - intros (w1 & tr1 & [] & tr2 & Hx & Hl & ->)%bind_Return_inv.
    rewrite omap_app. f_equal.
    + eapply Hbody; [by left|done].
    + eapply IH; [|done]. intros y ? ? ? Hy. apply Hbody. by right.
Qed.

Lemma bind_ret_l {A B} (a : A) (f : A → M B) (w : W) : bind (ret a) f w = f a w.
Proof. unfold bind, ret. by destruct (f a w) as [[? ?] ?]. Qed.

Lemma mjoin_singletons {A B} (f : A → B) (l : list A) :
  mjoin ((fun x => [f x]) <$> l) = f <$> l.
Proof. induction l as [|x l IH]; [done|]. rewrite !fmap_cons. simpl. by rewrite IH. Qed.

(** *** The stages of the query files *)

Lemma process_sql_file_stages t props columns auto f (w w' : W) tr :
  process_sql_file handler infer t props columns auto f w = (w', tr, Return tt) →
  omap file_stage tr = file_stages auto f.
Proof.
  unfold process_sql_file.
  intros (w1 & tr1 & [] & tr2 & Hexec & Hrest & ->)%bind_Return_inv.
  apply (perform_inv handler
           (_execute_query_from_sql_file_and_store_results_in_work_table f t))
    in Hexec as [_ ->].
  apply bind_Return_inv in Hrest as (w2 & tr3 & [] & tr4 & Hswap & Hrest & ->).
  apply bind_Return_inv in Hrest as (w3 & tr5 & fks & tr6 & Hinfer & Hmerge & ->).
  apply (perform_inv handler (_merge_into_omop_table _)) in Hmerge as [_ ->].
  assert (tr5 = []) as ->.
  { case_bool_decide; [by apply lift_inv in Hinfer as (_ & -> & _)|].
    by apply ret_inv in Hinfer as (_ & -> & _). }
  unfold file_stages. destruct auto; simpl in Hswap.
  - apply bind_Return_inv in Hswap as (w4 & tr7 & pk & tr8 & Hpk & Hs & ->).
    apply getattr_Return_inv in Hpk as (_ & -> & ->).
    by apply (perform_inv handler (_swap_primary_key_auto_numbering_column _)) in Hs as [_ ->].
  - by apply ret_inv in Hswap as (_ & -> & _).
Qed.

Lemma concept_loop_no_stage t (columns : list string) :
  calls_satisfy (W:=W) (fun c => file_stage c = None)
    (for_ columns (fun concept_id_column =>
       bind (perform handler (_upload_custom_concepts t (PyStr.lower concept_id_column)))
            (fun _ => perform handler
                        (_apply_usagi_mapping t (PyStr.lower concept_id_column))))).
Proof.
  apply calls_for. intros c _. apply calls_bind; [by perform_ok|]. intros _. by perform_ok.
Qed.

(** *** The tables a run goes through *)

Lemma process_sql_file_calls_table t props columns auto f :
  calls_satisfy (fun c => ∀ t', call_table c = Some t' → t' = t)
    (process_sql_file handler infer t props columns auto f).
Proof.
  unfold process_sql_file.
  apply calls_bind; [perform_ok; by intros ? [= <-]|]. intros _.
  apply calls_bind.
  { apply calls_when. intros _. apply calls_bind; [apply calls_getattr|].
    intros pk. perform_ok. by intros ? [= <-]. }
  intros _. apply calls_bind.
  { case_bool_decide; [apply calls_lift|apply calls_ret]. }
  intros fks. perform_ok. by intros ? [= <-].
Qed.

Lemma process_omop_folder_calls_table (self : t) t props :
  calls_satisfy (fun c => ∀ t', call_table c = Some t' → t' = t)
    (_process_omop_folder handler infer self t props).
Proof.
  unfold _process_omop_folder.
  apply calls_bind; [perform_ok; by intros ? [= <-]|]. intros columns.
  apply calls_bind; [perform_ok; by intros ? [= <-]|]. intros auto.
  apply calls_bind.
  { apply calls_when. intros _. apply calls_for. intros c _.
    apply calls_bind; [perform_ok; by intros ? [= <-]|]. intros _.
    perform_ok. by intros ? [= <-]. }
  intros _. apply calls_bind; [perform_ok; by intros ? [= <-]|]. intros sql.
  apply calls_bind; [perform_ok; by intros ? [= <-]|]. intros sql_jinja.
  apply calls_for. intros f _. apply process_sql_file_calls_table.
Qed.

Lemma process_sql_file_no_column_call t props columns auto f :
  calls_satisfy (fun c => column_names_call c = None)
    (process_sql_file handler infer t props columns auto f).
Proof.
  unfold process_sql_file.
  apply calls_bind; [by perform_ok|]. intros _.
  apply calls_bind.
  { apply calls_when. intros _. apply calls_bind; [apply calls_getattr|].
    intros pk. by perform_ok. }
  intros _. apply calls_bind.
  { case_bool_decide; [apply calls_lift|apply calls_ret]. }
  intros fks. by perform_ok.
Qed.

(** Processing a table reads its columns once, first. *)
Lemma process_omop_folder_column_calls (self : t) t props (w w' : W) tr r :
  _process_omop_folder handler infer self t props w = (w', tr, r) →
  (∃ e, tr = [_get_column_names t] ∧ r = Raise e) ∨
  omap column_names_call tr = [t].
Proof.
  unfold _process_omop_folder. unfold bind at 1. unfold perform at 1.
  destruct (handler (_get_column_names t) w) as [w1 [columns|e]]; simpl.
  - match goal with
    | |- context [let (_, _) := ?m w1 in _] => set (rest := m)
    end.
    assert (calls_satisfy (fun c => column_names_call c = None) rest) as Hrest.
    { unfold rest. apply calls_bind; [by perform_ok|]. intros auto.
      apply calls_bind.
      { apply calls_when. intros _. apply calls_for. intros c _.
        apply calls_bind; [by perform_ok|]. intros _. by perform_ok. }
      intros _. apply calls_bind; [by perform_ok|]. intros sql.
      apply calls_bind; [by perform_ok|]. intros sql_jinja.
      apply calls_for. intros f _. apply process_sql_file_no_column_call. }
    apply (omap_calls_none _ _ w1) in Hrest. unfold trace in Hrest.
    destruct (rest w1) as [[w2 tr2] r2]. intros [= _ <- _]. right.
    simpl in Hrest. change (t :: omap column_names_call tr2 = [t]). by rewrite Hrest.
  - intros [= _ <- <-]. left. eauto.
Qed.

(** *** [cleanup] *)

Lemma cleanup_work_table_removals cleanup_table table_name :
  calls_satisfy (fun c => is_removal c = true)
    (cleanup_work_table handler cleanup_table table_name).
Proof.
  unfold cleanup_work_table.
  destruct (_ && _).
  - apply calls_bind; [apply calls_index|]. intros omop_table.
    apply calls_bind; [apply calls_index|]. intros second.
    apply calls_bind; [by perform_ok|]. intros _.
    apply calls_bind; [by perform_ok|]. intros _. by perform_ok.
  - destruct (_ && _); [|apply calls_ret].
    apply calls_bind; [apply calls_index|]. intros omop_table.
    apply calls_bind; [apply calls_index|]. intros second. by perform_ok.
Qed.

Lemma calls_weaken {A} (P Q : call → Prop) (m : M A) :
  (∀ c, P c → Q c) → calls_satisfy (W:=W) P m → calls_satisfy Q m.
Proof. intros HPQ Hm w. eapply Forall_impl; [apply Hm|done]. Qed.

Lemma removal_loop_omap {B} (proj : call → option B) cleanup_table
    (work_tables : list string) (w : W) :
  (∀ c, is_removal c = true → proj c = None) →
  omap proj (trace (for_ work_tables (cleanup_work_table handler cleanup_table)) w) = [].
Proof.
  intros Hp. apply omap_calls_none, calls_for. intros x _.
  eapply calls_weaken; [exact Hp|]. apply cleanup_work_table_removals.
Qed.

Lemma delete_loop_trace cleanup_table (work_tables : list string) (w w' : W) tr :
  for_ work_tables (fun table_name =>
    when (String.eqb cleanup_table "all" || PyStr.startswith table_name cleanup_table)
         (perform handler (_delete_work_table table_name))) w
  = (w', tr, Return tt) →
  tr = _delete_work_table <$> List.filter (covers_work_table cleanup_table) work_tables.
Proof.
  revert w tr. induction work_tables as [|x l IH]; intros w tr; simpl.
  - by intros (_ & -> & _)%ret_inv.
  - intros (w1 & tr1 & [] & tr2 & Hx & Hl & ->)%bind_Return_inv.
    apply IH in Hl as ->. cbn [List.filter].
    change (covers_work_table cleanup_table x)
      with (String.eqb cleanup_table "all" || PyStr.startswith x cleanup_table).
    destruct (String.eqb cleanup_table "all" || PyStr.startswith x cleanup_table).
    + by apply (perform_inv handler (_delete_work_table x)) in Hx as [_ ->].
    + by apply ret_inv in Hx as (_ & -> & _).
Qed.

Lemma truncate_loop_trace cleanup_table (tables : list string) (w w' : W) tr :
  for_ tables (fun table_name =>
    when (String.eqb cleanup_table "all" || String.eqb table_name cleanup_table)
         (perform handler (_truncate_omop_table table_name))) w
  = (w', tr, Return tt) →
  tr = _truncate_omop_table <$> List.filter (covers_omop_table cleanup_table) tables.
Proof.
  revert w tr. induction tables as [|x l IH]; intros w tr; simpl.
  - by intros (_ & -> & _)%ret_inv.
  - intros (w1 & tr1 & [] & tr2 & Hx & Hl & ->)%bind_Return_inv.
    apply IH in Hl as ->. cbn [List.filter].
    change (covers_omop_table cleanup_table x)
      with (String.eqb cleanup_table "all" || String.eqb x cleanup_table).
    destruct (String.eqb cleanup_table "all" || String.eqb x cleanup_table).
    + by apply (perform_inv handler (_truncate_omop_table x)) in Hx as [_ ->].
    + by apply ret_inv in Hx as (_ & -> & _).
Qed.

Lemma omap_fmap_Some {A B} (f : A → call) (proj : call → option B) (g : A → B)
    (l : list A) :
  (∀ x, proj (f x) = Some (g x)) → omap proj (f <$> l) = g <$> l.
Proof.
  intros H. induction l as [|x l IH]; [done|]. rewrite !fmap_cons, <- IH.
  change (omap proj (f x :: (f <$> l)))
    with (match proj (f x) with
          | Some y => y :: omap proj (f <$> l)
          | None => omap proj (f <$> l)
          end).
  by rewrite H.
Qed.

Lemma omap_fmap_None {A B} (f : A → call) (proj : call → option B) (l : list A) :
  (∀ x, proj (f x) = None) → omap proj (f <$> l) = [].
Proof.
  intros H. induction l as [|x l IH]; [done|]. rewrite fmap_cons, <- IH.
  change (omap proj (f x :: (f <$> l)))
    with (match proj (f x) with
          | Some y => y :: omap proj (f <$> l)
          | None => omap proj (f <$> l)
          end).
  by rewrite H.
Qed.

(** The work tables a [cleanup] that returns has deleted. *)
Lemma cleanup_Return_deleted (self : t) cleanup_table (w w1 w' : W)
    (work_tables : list string) tr :
  handler _get_work_tables w = (w1, Return work_tables) →
  cleanup handler self cleanup_table w = (w', tr, Return tt) →
  omap deleted tr = List.filter (covers_work_table cleanup_table) work_tables.
Proof.
  intros Hwt. unfold cleanup.
  intros (w1' & tr0 & work_tables' & tr1 & Hget & Hrest & ->)%bind_Return_inv.
  apply (perform_inv handler _get_work_tables) in Hget as [Hget ->].
  rewrite Hwt in Hget. injection Hget as <- <-.
  apply bind_Return_inv in Hrest as (w2 & tr2 & [] & tr3 & Hfirst & Hrest & ->).
  apply bind_Return_inv in Hrest as (w3 & tr4 & [] & tr5 & Hdelete & Htruncate & ->).
  apply delete_loop_trace in Hdelete as ->.
  apply truncate_loop_trace in Htruncate as ->.
  rewrite !omap_app.
  rewrite (omap_fmap_Some _delete_work_table deleted id) by done.
  rewrite (omap_fmap_None _truncate_omop_table deleted) by done.
  rewrite !list_fmap_id, app_nil_r. simpl.
  destruct (String.eqb cleanup_table "all").
  - apply bind_Return_inv in Hfirst as (? & ? & [] & ? & H1 & Hfirst & ->).
    apply bind_Return_inv in Hfirst as (? & ? & [] & ? & H2 & Hfirst & ->).
    apply bind_Return_inv in Hfirst as (? & ? & [] & ? & H3 & H4 & ->).
    apply (perform_inv handler (_truncate_omop_table _)) in H1 as [_ ->].
    apply (perform_inv handler _remove_custom_concepts_from_concept_table) in H2 as [_ ->].
    apply (perform_inv handler _remove_custom_concepts_from_concept_relationship_table)
      in H3 as [_ ->].
    apply (perform_inv handler _remove_custom_concepts_from_concept_ancestor_table)
      in H4 as [_ ->].
    done.
  - rewrite <- (trace_eq _ _ _ _ _ Hfirst).
    by rewrite (removal_loop_omap deleted) by (by intros []).
Qed.

(** *** A work table whose name has no separator *)

Lemma cleanup_work_table_IndexError cleanup_table table_name (w : W) :
  PyStr.startswith table_name cleanup_table = true →
  PyStr.endswith table_name "_concept" = true ∨ PyStr.endswith table_name "_usagi" = true →
  PyStr.contains "__" table_name = false →
  cleanup_work_table handler cleanup_table table_name w = (w, [], Raise IndexError).
Proof.
  intros Hs He Hc. unfold cleanup_work_table.
  rewrite Hs, (split_dunder_no_sep _ Hc). simpl.
  destruct (PyStr.endswith table_name "_concept"); [done|].
  destruct He as [He|He]; [done|]. by rewrite He.
Qed.

Lemma for_Raise_at {A} (l : list A) (body : A → M unit) (x : A) (w : W) :
  x ∈ l → (∀ w0, ∃ w1 tr e, body x w0 = (w1, tr, Raise e)) →
  ∃ w1 tr e, for_ l body w = (w1, tr, Raise e).
Proof.
  revert w. induction l as [|y l IH]; intros w Hx Hbody; [by apply elem_of_nil in Hx|].
  simpl. unfold bind.
  destruct (body y w) as [[w1 tr1] [[]|e]] eqn:Hy; [|eauto].
  apply elem_of_cons in Hx as [->|Hx].
  - destruct (Hbody w) as (? & ? & ? & Hr). congruence.
  - destruct (IH w1 Hx Hbody) as (w2 & tr2 & e & ->). eauto.
Qed.

Ltac perform_never_raises :=
  match goal with
  | Hperf : ∀ c : Etl.call, _, Hx : Etl.perform _ ?c _ = _ |- _ =>
      destruct (Hperf c _ _ _ _ Hx)
  end.

(** With collaborators that never raise, a loop of [cleanup_work_table]
    only ends with [IndexError] when it does not return. *)
Lemma removal_loop_outcome cleanup_table (work_tables : list string) (w w' : W) tr e :
  (∀ c w0 e0, (handler c w0).2 ≠ Raise e0) →
  for_ work_tables (cleanup_work_table handler cleanup_table) w = (w', tr, Raise e) →
  e = IndexError.
Proof.
  intros Hok. revert w tr. induction work_tables as [|x l IH]; intros w tr; simpl; [done|].
  intros [Hx|(w1 & tr1 & [] & tr2 & _ & Hl & _)]%bind_Raise_inv; [|by eapply IH].
  clear IH. unfold cleanup_work_table in Hx.
  assert (∀ (c : call) (w0 w1 : W) tr0 e0,
            perform handler c w0 = (w1, tr0, Raise e0) → False) as Hperf.
  { intros c w0 w1 tr0 e0 [Hc _]%perform_inv. apply (Hok c w0 e0). by rewrite Hc. }
  assert (∀ {B} (xs : list B) i (w0 w1 : W) tr0 e0,
            index xs i w0 = (w1, tr0, Raise e0) → e0 = IndexError) as Hidx.
  { intros B xs i w0 w1 tr0 e0. unfold index. destruct (xs !! i); [done|].
    unfold raise. by intros [= _ _ <-]. }
  destruct (_ && _).
  - apply bind_Raise_inv in Hx as [Hx|(? & ? & ? & ? & _ & Hx & _)]; [by eapply Hidx|].
    apply bind_Raise_inv in Hx as [Hx|(? & ? & ? & ? & _ & Hx & _)]; [by eapply Hidx|].
    apply bind_Raise_inv in Hx as [Hx|(? & ? & ? & ? & _ & Hx & _)]; [by perform_never_raises|].
    apply bind_Raise_inv in Hx as [Hx|(? & ? & ? & ? & _ & Hx & _)]; [by perform_never_raises|].
    by perform_never_raises.
  - destruct (_ && _); [|done].
    apply bind_Raise_inv in Hx as [Hx|(? & ? & ? & ? & _ & Hx & _)]; [by eapply Hidx|].
    apply bind_Raise_inv in Hx as [Hx|(? & ? & ? & ? & _ & Hx & _)]; [by eapply Hidx|].
    by perform_never_raises.
Qed.

End DriverTraces.

(** ** Further properties of the driver *)

(** X10.  A run restricted to one table ([_only_omop_table] set to a
    non-empty name) makes no call for any other table; and when the schema
    file has no entry of that name and the name is not an attribute that
    every Python object has (such as [__class__] or [__dict__], which
    [getattr] finds on the schema object), [run] reads the date and raises
    [AttributeError] for the name, without processing anything and without
    the closing update of SOURCE_TO_CONCEPT_MAP. *)
Theorem run_of_one_table {W : Type}
    (handler : ∀ c : Etl.call, W → W * result (Etl.answer c))
    (infer : string → string → Etl.fk_columns → result Etl.fk_columns)
    (object_attribute : string → bool)
    (self : Etl.t) (name : string) :
  Etl._only_omop_table self = Some name →
  name ≠ EmptyString →
  (∀ w, Forall (fun c => ∀ t, Observe.call_table c = Some t → t = name)
               (Etl.trace (Etl.run handler infer object_attribute self) w)) ∧
  (Etl.omop_table_props_of self name = None →
   object_attribute name = false →
   ∀ w w0 etl_start,
     handler Etl.date_today w = (w0, Return etl_start) →
     Etl.run handler infer object_attribute self w
     = (w0, [Etl.date_today], Raise (AttributeError name))).
Proof.
  intros Honly Hname.
  assert (Etl.truthy_str (Etl._only_omop_table self) = true) as Htruthy.
  { rewrite Honly. simpl. by apply negb_true_iff, String.eqb_neq. }
  split.
  - change (Etl.calls_satisfy (fun c => ∀ t, Observe.call_table c = Some t → t = name)
              (Etl.run handler infer object_attribute self)).
    unfold Etl.run. rewrite Htruthy, Honly. simpl.
    apply calls_bind; [by perform_ok|]. intros etl_start.
    apply calls_bind; [|intros _; by perform_ok].
    apply calls_bind; [|intros props; apply process_omop_folder_calls_table].
    unfold Etl.getattr_omop_tables.
    destruct (Etl.omop_table_props_of self name); [apply calls_ret|].
    destruct (object_attribute name); [apply calls_ret|apply calls_raise].
  - intros Hnone Hattr w w0 etl_start Htoday. unfold Etl.run.
    rewrite Htruthy, Honly. simpl. unfold Etl.getattr_omop_tables.
    rewrite Hnone, Hattr. simpl.
    unfold Etl.bind at 1. unfold Etl.perform at 1. by rewrite Htoday.
Qed.

Lemma run_of_one_table_witness :
  (∀ w, Forall (fun c => ∀ t, Observe.call_table c = Some t → t = "death")
               (Etl.trace (Etl.run (Etl.example_handler example_columns
                                      example_auto_numbering example_files [] no_failure)
                             Etl.example_infer Etl.example_object_attribute
                             (example_etl_only "death")) w)) ∧
  Etl.run (Etl.example_handler example_columns example_auto_numbering example_files []
             no_failure)
    Etl.example_infer Etl.example_object_attribute (example_etl_only "death") tt
  = (tt, [Etl.date_today], Raise (AttributeError "death")).
Proof.
  destruct (run_of_one_table
              (Etl.example_handler example_columns example_auto_numbering example_files []
                 no_failure)
              Etl.example_infer Etl.example_object_attribute
              (example_etl_only "death") "death") as [Hcalls Hmissing].
  - reflexivity.
  - discriminate.
  - split; [exact Hcalls|]. apply (Hmissing eq_refl eq_refl tt tt 0). reflexivity.
Defined.

(** X11.  A run over the whole schema file that returns has processed the
    tables in the order of the schema file, each once; its first call reads
    the date, and its last call is the closing update of
    SOURCE_TO_CONCEPT_MAP, made with the date read at the start. *)
Theorem run_processes_the_schema_file_in_order {W : Type}
    (handler : ∀ c : Etl.call, W → W * result (Etl.answer c))
    (infer : string → string → Etl.fk_columns → result Etl.fk_columns)
    (object_attribute : string → bool)
    (self : Etl.t) (w w' : W) (tr : list Etl.call) :
  Etl.truthy_str (Etl._only_omop_table self) = false →
  Etl.run handler infer object_attribute self w = (w', tr, Return tt) →
  omap Observe.column_names_call tr = fst <$> Etl._omop_tables self ∧
  ∃ etl_start,
    (handler Etl.date_today w).2 = Return etl_start ∧
    head tr = Some Etl.date_today ∧
    last tr = Some (Etl._source_to_concept_map_update_invalid_reason etl_start).
Proof.
  intros Honly. unfold Etl.run. rewrite Honly.
  intros (w0 & tr0 & etl_start & tr1 & Htoday & Hrest & ->)%bind_Return_inv.
  apply (perform_inv handler Etl.date_today) in Htoday as [Htoday ->].
  apply bind_Return_inv in Hrest as (w1 & tr2 & [] & tr3 & Hloop & Hclose & ->).
  apply (perform_inv handler (Etl._source_to_concept_map_update_invalid_reason etl_start))
    in Hclose as [_ ->].
  split.
  - assert (omap Observe.column_names_call tr2
            = mjoin ((fun kv : string * Etl.table_props => [kv.1])
                       <$> Etl._omop_tables self)) as Htr2.
    { eapply for_Return_omap; [|exact Hloop]. intros kv ? ? ? _ Hkv.
      by apply process_omop_folder_column_calls in Hkv as [(e & _ & ?)|?]. }
    rewrite !omap_app, Htr2. simpl. rewrite app_nil_r.
    apply (mjoin_singletons fst).
  - exists etl_start. rewrite Htoday. split_and!; [done|done|].
    simpl. by rewrite app_comm_cons, last_snoc.
Qed.

Lemma run_processes_the_schema_file_in_order_witness :
  omap Observe.column_names_call
    (Etl.trace (Etl.run (Etl.example_handler example_columns example_auto_numbering
                           example_files [] no_failure)
                  Etl.example_infer Etl.example_object_attribute (example_etl None)) tt)
  = ["person"; "vocabulary"; "visit_occurrence"] ∧
  ∃ etl_start,
    (Etl.example_handler example_columns example_auto_numbering example_files []
       no_failure Etl.date_today tt).2 = Return etl_start ∧
    head (Etl.trace (Etl.run (Etl.example_handler example_columns example_auto_numbering
                                example_files [] no_failure)
                       Etl.example_infer Etl.example_object_attribute (example_etl None)) tt)
    = Some Etl.date_today ∧
    last (Etl.trace (Etl.run (Etl.example_handler example_columns example_auto_numbering
                                example_files [] no_failure)
                       Etl.example_infer Etl.example_object_attribute (example_etl None)) tt)
    = Some (Etl._source_to_concept_map_update_invalid_reason etl_start).
Proof.
  apply (run_processes_the_schema_file_in_order
           (Etl.example_handler example_columns example_auto_numbering example_files []
              no_failure)
           Etl.example_infer Etl.example_object_attribute (example_etl None) tt tt).
  - reflexivity.
  - vm_compute. reflexivity.
Defined.

(** X12.  A table that is processed without error has had its query files
    go through their stages one file after the other: the files matching
    "*.sql" in sorted order, then the files matching "*.sql.jinja" in sorted
    order; each file is executed, key-swapped when the primary key is auto
    numbered (for all files of the table or for none), and merged.  [files]
    is what the file system lists for the table during the run. *)
Theorem query_files_are_processed_in_sorted_order {W : Type}
    (handler : ∀ c : Etl.call, W → W * result (Etl.answer c))
    (infer : string → string → Etl.fk_columns → result Etl.fk_columns)
    (self : Etl.t) (t : string) (props : Etl.table_props)
    (files : string → list string) (w w' : W) (tr : list Etl.call) :
  (∀ e w0 a, (handler (Etl.glob_glob t e) w0).2 = Return a → a = files e) →
  Etl._process_omop_folder handler infer self t props w = (w', tr, Return tt) →
  ∃ pk_auto_numbering,
    omap Observe.file_stage tr
    = mjoin (Observe.file_stages pk_auto_numbering
               <$> (Etl.sorted_list (files "*.sql")
                      ++ Etl.sorted_list (files "*.sql.jinja"))).
Proof.
  intros Hglob. unfold Etl._process_omop_folder.
  intros (w1 & tr1 & columns & tr2 & Hcols & Hrest & ->)%bind_Return_inv.
  apply (perform_inv handler (Etl._get_column_names t)) in Hcols as [_ ->].
  apply bind_Return_inv in Hrest as (w2 & tr3 & auto & tr4 & Hauto & Hrest & ->).
  apply (perform_inv handler (Etl._is_pk_auto_numbering t props)) in Hauto as [_ ->].
  apply bind_Return_inv in Hrest as (w3 & tr5 & [] & tr6 & Hconcepts & Hrest & ->).
  apply bind_Return_inv in Hrest as (w4 & tr7 & sql & tr8 & Hsql & Hrest & ->).
  apply bind_Return_inv in Hrest as (w5 & tr9 & sql_jinja & tr10 & Hjinja & Hloop & ->).
  apply (perform_inv handler (Etl.glob_glob t "*.sql")) in Hsql as [Hsql ->].
  apply (perform_inv handler (Etl.glob_glob t "*.sql.jinja")) in Hjinja as [Hjinja ->].
  assert (sql = files "*.sql") as ->.
  { apply (Hglob "*.sql" w3). by rewrite Hsql. }
  assert (sql_jinja = files "*.sql.jinja") as ->.
  { apply (Hglob "*.sql.jinja" w4). by rewrite Hjinja. }
  exists auto. rewrite !omap_app. simpl.
  assert (omap Observe.file_stage tr5 = []) as ->.
  { rewrite <- (trace_eq _ _ _ _ _ Hconcepts). apply omap_calls_none.
    apply calls_when. intros _. apply concept_loop_no_stage. }
  simpl. eapply for_Return_omap; [|exact Hloop].
  intros f ? ? ? _. apply process_sql_file_stages.
Qed.

Lemma query_files_are_processed_in_sorted_order_witness :
  ∃ pk_auto_numbering,
    omap Observe.file_stage
      (Etl.trace (Etl._process_omop_folder
                    (Etl.example_handler example_columns example_auto_numbering
                       example_files [] no_failure)
                    Etl.example_infer (example_etl None) "person"
                    (Etl.mk_props (Some "person_id") None None)) tt)
    = mjoin (Observe.file_stages pk_auto_numbering
               <$> (Etl.sorted_list (example_files "person" "*.sql")
                      ++ Etl.sorted_list (example_files "person" "*.sql.jinja"))).
Proof.
  apply (query_files_are_processed_in_sorted_order
           (Etl.example_handler example_columns example_auto_numbering example_files []
              no_failure)
           Etl.example_infer (example_etl None) "person"
           (Etl.mk_props (Some "person_id") None None) (example_files "person") tt tt).
  - intros e w0 a. simpl. intros [= <-]. reflexivity.
  - vm_compute. reflexivity.
Defined.

(** X13.  A [cleanup] that returns has deleted exactly the work tables the
    warehouse listed at the start that the scope covers (all of them for the
    scope "all", else those whose name starts with the scope), in the order
    listed, and has truncated exactly: source_to_concept_map when the scope
    is "all", then the tables of the schema file other than vocabulary that
    the scope covers (all, or the one named by the scope), in the order of
    the schema file. *)
Theorem cleanup_deletes_and_truncates_within_scope {W : Type}
    (handler : ∀ c : Etl.call, W → W * result (Etl.answer c))
    (self : Etl.t) (cleanup_table : string) (w w1 w' : W)
    (work_tables : list string) (tr : list Etl.call) :
  handler Etl._get_work_tables w = (w1, Return work_tables) →
  Etl.cleanup handler self cleanup_table w = (w', tr, Return tt) →
  omap Observe.deleted tr
  = List.filter (Observe.covers_work_table cleanup_table) work_tables ∧
  omap Observe.truncated tr
  = (if String.eqb cleanup_table "all" then ["source_to_concept_map"] else [])
    ++ List.filter (Observe.covers_omop_table cleanup_table)
         (List.filter (fun x => negb (String.eqb x "vocabulary"))
            (fst <$> Etl._omop_tables self)).
Proof.
  intros Hwt Hrun. split; [by eapply cleanup_Return_deleted|].
  revert Hrun. unfold Etl.cleanup.
  intros (w1' & tr0 & work_tables' & tr1 & Hget & Hrest & ->)%bind_Return_inv.
  apply (perform_inv handler Etl._get_work_tables) in Hget as [Hget ->].
  rewrite Hwt in Hget. injection Hget as <- <-.
  apply bind_Return_inv in Hrest as (w2 & tr2 & [] & tr3 & Hfirst & Hrest & ->).
  apply bind_Return_inv in Hrest as (w3 & tr4 & [] & tr5 & Hdelete & Htruncate & ->).
  apply delete_loop_trace in Hdelete as ->.
  apply truncate_loop_trace in Htruncate as ->.
  rewrite !omap_app.
  rewrite (omap_fmap_None Etl._delete_work_table Observe.truncated) by done.
  rewrite (omap_fmap_Some Etl._truncate_omop_table Observe.truncated id) by done.
  rewrite !list_fmap_id. simpl.
  destruct (String.eqb cleanup_table "all").
  - apply bind_Return_inv in Hfirst as (? & ? & [] & ? & H1 & Hfirst & ->).
    apply bind_Return_inv in Hfirst as (? & ? & [] & ? & H2 & Hfirst & ->).
    apply bind_Return_inv in Hfirst as (? & ? & [] & ? & H3 & H4 & ->).
    apply (perform_inv handler (Etl._truncate_omop_table _)) in H1 as [_ ->].
    apply (perform_inv handler Etl._remove_custom_concepts_from_concept_table)
      in H2 as [_ ->].
    apply (perform_inv handler Etl._remove_custom_concepts_from_concept_relationship_table)
      in H3 as [_ ->].
    apply (perform_inv handler Etl._remove_custom_concepts_from_concept_ancestor_table)
      in H4 as [_ ->].
    done.
  - rewrite <- (trace_eq _ _ _ _ _ Hfirst).
    by rewrite (removal_loop_omap handler Observe.truncated) by (by intros []).
Qed.

Lemma cleanup_deletes_and_truncates_within_scope_witness :
  omap Observe.deleted
    (Etl.trace (Etl.cleanup (Etl.example_handler example_columns example_auto_numbering
                               example_files example_work_tables no_failure)
                  (example_etl None) "person") tt)
  = ["person_a"; "person__gender_concept_id_concept"; "person__gender_concept_id_usagi"] ∧
  omap Observe.truncated
    (Etl.trace (Etl.cleanup (Etl.example_handler example_columns example_auto_numbering
                               example_files example_work_tables no_failure)
                  (example_etl None) "person") tt)
  = ["person"].
Proof.
  apply (cleanup_deletes_and_truncates_within_scope
           (Etl.example_handler example_columns example_auto_numbering example_files
              example_work_tables no_failure)
           (example_etl None) "person" tt tt tt example_work_tables).
  - reflexivity.
  - vm_compute. reflexivity.
Defined.

(** X14.  A scoped [cleanup] fails on a work table whose name starts with
    the scope and ends with "_concept" or "_usagi" but has no "__"
    separator (the work table of a query file named concept.sql, for
    instance): taking the second piece of the split name is out of range.
    [cleanup] then raises, having deleted and truncated nothing; when the
    collaborators never raise, the exception is [IndexError]. *)
Theorem cleanup_raises_on_work_table_without_separator {W : Type}
    (handler : ∀ c : Etl.call, W → W * result (Etl.answer c))
    (self : Etl.t) (cleanup_table : string) (w w1 : W)
    (work_tables : list string) (table_name : string) :
  cleanup_table ≠ "all" →
  handler Etl._get_work_tables w = (w1, Return work_tables) →
  table_name ∈ work_tables →
  PyStr.startswith table_name cleanup_table = true →
  PyStr.endswith table_name "_concept" = true ∨ PyStr.endswith table_name "_usagi" = true →
  PyStr.contains "__" table_name = false →
  (∃ e, Etl.outcome (Etl.cleanup handler self cleanup_table) w = Raise e) ∧
  omap Observe.deleted (Etl.trace (Etl.cleanup handler self cleanup_table) w) = [] ∧
  omap Observe.truncated (Etl.trace (Etl.cleanup handler self cleanup_table) w) = [] ∧
  ((∀ c w0 e0, (handler c w0).2 ≠ Raise e0) →
   Etl.outcome (Etl.cleanup handler self cleanup_table) w = Raise IndexError).
Proof.
  intros Hscope Hwt Hin Hs He Hc.
  destruct (for_Raise_at work_tables (Etl.cleanup_work_table handler cleanup_table)
              table_name w1 Hin) as (w2 & tr2 & e & Hloop).
  { intros w0. exists w0, [], IndexError. by apply cleanup_work_table_IndexError. }
  assert (Etl.cleanup handler self cleanup_table w
          = (w2, Etl._get_work_tables :: tr2, Raise e)) as Hrun.
  { unfold Etl.cleanup. unfold Etl.bind at 1. unfold Etl.perform at 1. rewrite Hwt.
    apply String.eqb_neq in Hscope. rewrite Hscope.
    unfold Etl.bind at 1. by rewrite Hloop. }
  unfold Etl.outcome, Etl.trace. rewrite Hrun. simpl.
  rewrite <- (trace_eq _ _ _ _ _ Hloop).
  split_and!; [eauto|by apply removal_loop_omap; intros []
              |by apply removal_loop_omap; intros []|].
  intros Hok. f_equal. by eapply removal_loop_outcome.
Qed.

Lemma cleanup_raises_on_work_table_without_separator_witness :
  (∃ e, Etl.outcome
          (Etl.cleanup (Etl.example_handler example_columns example_auto_numbering
                          example_files ["person_a"; "person_concept"] no_failure)
             (example_etl None) "person") tt = Raise e) ∧
  omap Observe.deleted
    (Etl.trace (Etl.cleanup (Etl.example_handler example_columns example_auto_numbering
                               example_files ["person_a"; "person_concept"] no_failure)
                  (example_etl None) "person") tt) = [] ∧
  omap Observe.truncated
    (Etl.trace (Etl.cleanup (Etl.example_handler example_columns example_auto_numbering
                               example_files ["person_a"; "person_concept"] no_failure)
                  (example_etl None) "person") tt) = [].
Proof.
  destruct (cleanup_raises_on_work_table_without_separator
              (Etl.example_handler example_columns example_auto_numbering example_files
                 ["person_a"; "person_concept"] no_failure)
              (example_etl None) "person" tt tt ["person_a"; "person_concept"]
              "person_concept") as (Hraise & Hdel & Htrunc & _).
  - discriminate.
  - reflexivity.
  - apply (bool_decide_unpack _). vm_compute. exact I.
  - reflexivity.
  - left. reflexivity.
  - reflexivity.
  - by split_and!.
Defined.

(** X15.  The names [BigQuery] gives to the upload tables are read back by
    [cleanup]: for a table name and a column name without "__" that do not
    end with an underscore, the work table of the custom concepts leads to
    the three removals of custom concepts with that table and that column,
    and the work table of the Usagi mapping to the removal from
    source_to_concept_map with that table and that column. *)
Theorem upload_table_names_are_read_back_by_cleanup {W : Type}
    (handler : ∀ c : Etl.call, W → W * result (Etl.answer c))
    (cleanup_table omop_table concept_id_column : string) (w : W) :
  PyStr.contains "__" omop_table = false →
  PyStr.endswith omop_table "_" = false →
  PyStr.contains "__" concept_id_column = false →
  PyStr.endswith concept_id_column "_" = false →
  PyStr.startswith omop_table cleanup_table = true →
  Etl.cleanup_work_table handler cleanup_table
    (WorkTables.custom_concept_upload_table omop_table concept_id_column) w
  = Etl.bind
      (Etl.perform handler
         (Etl._remove_custom_concepts_from_concept_table_using_usagi_table
            omop_table concept_id_column))
      (fun _ =>
         Etl.bind
           (Etl.perform handler
              (Etl._remove_custom_concepts_from_concept_relationship_table_using_usagi_table
                 omop_table concept_id_column))
           (fun _ =>
              Etl.perform handler
                (Etl._remove_custom_concepts_from_concept_ancestor_table_using_usagi_table
                   omop_table concept_id_column))) w ∧
  Etl.cleanup_work_table handler cleanup_table
    (WorkTables.usagi_upload_table omop_table concept_id_column) w
  = Etl.perform handler
      (Etl._remove_source_to_concept_map_using_usagi_table omop_table concept_id_column) w.
Proof.
  intros Ht Ht' Hc Hc' Hscope.
  assert (∀ rest, PyStr.startswith (omop_table +:+ rest) cleanup_table = true) as Hstart.
  { intros rest. apply startswith_spec in Hscope as (r & ->).
    apply startswith_spec. exists (r +:+ rest). by rewrite string_app_assoc. }
  assert (∀ suffix, PyStr.contains "__" suffix = false →
            PyStr.split_dunder (omop_table +:+ "__" +:+ concept_id_column +:+ suffix)
            = [omop_table; concept_id_column +:+ suffix]) as Hsplit.
  { intros suffix Hsuffix. rewrite split_dunder_sep by done.
    by rewrite split_dunder_no_sep by (by apply contains_dunder_app). }
  split.
  - unfold Etl.cleanup_work_table, WorkTables.custom_concept_upload_table.
    rewrite Hstart, (Hsplit "_concept") by done.
    replace (omop_table +:+ "__" +:+ concept_id_column +:+ "_concept")
      with ((omop_table +:+ "__" +:+ concept_id_column) +:+ "_concept")
      by (by rewrite !string_app_assoc).
    rewrite endswith_app. cbn [andb]. unfold Etl.index. simpl.
    by rewrite !bind_ret_l, removesuffix_app.
  - unfold Etl.cleanup_work_table, WorkTables.usagi_upload_table.
    rewrite Hstart, (Hsplit "_usagi") by done.
    replace (omop_table +:+ "__" +:+ concept_id_column +:+ "_usagi")
      with ((omop_table +:+ "__" +:+ concept_id_column) +:+ "_usagi")
      by (by rewrite !string_app_assoc).
    rewrite endswith_app.
    assert (PyStr.endswith ((omop_table +:+ "__" +:+ concept_id_column) +:+ "_usagi")
              "_concept" = false) as ->.
    { unfold PyStr.endswith. by rewrite rev_app. }
    cbn [andb]. unfold Etl.index. simpl.
    by rewrite !bind_ret_l, removesuffix_app.
Qed.

Lemma upload_table_names_are_read_back_by_cleanup_witness :
  Etl.trace (Etl.cleanup_work_table
               (Etl.example_handler example_columns example_auto_numbering example_files
                  [] no_failure)
               "person"
               (WorkTables.custom_concept_upload_table "person" "gender_concept_id")) tt
  = [ Etl._remove_custom_concepts_from_concept_table_using_usagi_table
        "person" "gender_concept_id";
      Etl._remove_custom_concepts_from_concept_relationship_table_using_usagi_table
        "person" "gender_concept_id";
      Etl._remove_custom_concepts_from_concept_ancestor_table_using_usagi_table
        "person" "gender_concept_id" ].
Proof.
  unfold Etl.trace.
  rewrite (proj1 (upload_table_names_are_read_back_by_cleanup
                    (Etl.example_handler example_columns example_auto_numbering
                       example_files [] no_failure)
                    "person" "person" "gender_concept_id" tt
                    eq_refl eq_refl eq_refl eq_refl eq_refl)).
  reflexivity.
Defined.

(** ** The stages *)

Section StageFacts.
Import Stage.
Context {Row W : Type}.
Variable handler : ∀ c : @call Row, W → W * result (answer c).
Implicit Types (w : W) (tr : list (@call Row)).

Abbreviation stage_calls P m := (∀ w, Forall P (trace m w)).

Lemma stage_calls_ret {A} (P : @call Row → Prop) (a : A) : stage_calls P (ret (W:=W) a).
Proof. intros w. constructor. Qed.

Lemma stage_calls_perform (P : @call Row → Prop) c :
  P c → stage_calls P (perform handler c).
Proof.
  intros Hc w. unfold trace, perform. destruct (handler c w). simpl. by constructor.
Qed.

(** The continuation only matters for the values the first part returns. *)
Lemma stage_calls_bind {A B} (P : @call Row → Prop) (m : M A) (f : A → M B) :
  stage_calls P m →
  (∀ a, (∃ w, outcome m w = Return a) → stage_calls P (f a)) →
  stage_calls P (bind m f).
Proof.
  intros Hm Hf w. specialize (Hm w). unfold trace, bind in *.
  destruct (m w) as [[w1 tr1] [a|e]] eqn:Hmw; simpl in *; [|done].
  assert (stage_calls P (f a)) as Hfa.
  { apply Hf. exists w. unfold outcome. by rewrite Hmw. }
  specialize (Hfa w1). unfold trace in Hfa.
  destruct (f a w1) as [[w2 tr2] r]. simpl in *. by apply Forall_app.
Qed.

Lemma stage_outcome_perform c w : outcome (perform handler c) w = (handler c w).2.
Proof. unfold outcome, perform. by destruct (handler c w). Qed.

Lemma stage_bind_Return_inv {A B} (m : M A) (f : A → M B) w w' tr b :
  bind m f w = (w', tr, Return b) →
  ∃ w1 tr1 a tr2,
    m w = (w1, tr1, Return a) ∧ f a w1 = (w', tr2, Return b) ∧ tr = tr1 ++ tr2.
Proof.
  unfold bind. destruct (m w) as [[w1 tr1] [a|e]]; [|done].
  destruct (f a w1) as [[w2 tr2] r] eqn:Hf. intros [= -> <- ->].
  by exists w1, tr1, a, tr2.
Qed.

Lemma stage_perform_inv c w w' tr (r : result (answer c)) :
  perform handler c w = (w', tr, r) → handler c w = (w', r) ∧ tr = [c].
Proof. unfold perform. destruct (handler c w). by intros [= -> <- ->]. Qed.

Lemma stage_ret_inv {A} (a b : A) w w' tr :
  ret a w = (w', tr, Return b) → w' = w ∧ tr = [] ∧ b = a.
Proof. unfold ret. by intros [= -> <- ->]. Qed.

(** A block that returns inside [with TemporaryDirectory()] has run between
    the creation and the removal of the directory. *)
Lemma with_TemporaryDirectory_Return_inv {A} (body : string → M A) w w' tr a :
  with_TemporaryDirectory handler body w = (w', tr, Return a) →
  ∃ temp_dir w1 w2 tr1,
    body temp_dir w1 = (w2, tr1, Return a) ∧
    tr = [TemporaryDirectory] ++ tr1 ++ [TemporaryDirectory_cleanup temp_dir].
Proof.
  unfold with_TemporaryDirectory.
  intros (w1 & tr0 & temp_dir & tr2 & Hdir & Hbody & ->)%stage_bind_Return_inv.
  apply (stage_perform_inv TemporaryDirectory) in Hdir as [_ ->].
  destruct (body temp_dir w1) as [[w2 tr1] r] eqn:Hb.
  destruct (perform handler (TemporaryDirectory_cleanup temp_dir) w2)
    as [[w3 tr3] [[]|e]] eqn:Hc; [|done].
  apply (stage_perform_inv (TemporaryDirectory_cleanup temp_dir)) in Hc as [_ ->].
  injection Hbody as <- <- ->. by exists temp_dir, w1, w2, tr1.
Qed.

(** *** The loop over the CSV files *)

Lemma truthy_rows (ar_table : option (list Row)) :
  truthy ar_table = true ↔ default [] ar_table ≠ [].
Proof. by destruct ar_table as [[|r rows]|]. Qed.

Lemma concat_csv_files_calls (P : @call Row → Prop) (run : string → M (list Row))
    (files : list string) acc :
  (∀ f, stage_calls P (run f)) →
  stage_calls P (concat_csv_files run files acc).
Proof.
  intros Hrun. revert acc. induction files as [|f files IH]; intros acc; simpl.
  - apply stage_calls_ret.
  - apply stage_calls_bind; [apply Hrun|]. intros rows _. apply IH.
Qed.

(** The table the loop returns holds the rows it started with and then
    the rows of the files, in the order of the files. *)
Lemma concat_csv_files_Return (convert : string → @call Row) (content : string → list Row)
    (run : string → M (list Row)) (files : list string) acc w w' tr ar_table :
  (∀ f w0 w1 tr0 rows, run f w0 = (w1, tr0, Return rows) →
                       tr0 = [convert f] ∧ rows = content f) →
  concat_csv_files run files acc w = (w', tr, Return ar_table) →
  tr = convert <$> files ∧
  default [] ar_table = default [] acc ++ mjoin (content <$> files).
Proof.
  intros Hrun. revert acc w tr. induction files as [|f files IH]; intros acc w tr; simpl.
  - intros (_ & -> & ->)%stage_ret_inv. by rewrite app_nil_r.
  - intros (w1 & tr1 & rows & tr2 & Hf & Hrest & ->)%stage_bind_Return_inv.
    apply Hrun in Hf as [-> ->]. apply IH in Hrest as [-> ->]. split; [done|].
    simpl. rewrite app_assoc. f_equal.
    by destruct acc as [[|r rows]|].
Qed.

End StageFacts.

Ltac stage_perform_ok :=
  lazymatch goal with
  | |- ∀ w, Forall ?P (Stage.trace (Stage.perform ?h ?c) w) =>
      apply (stage_calls_perform h P c)
  end.

(** ** Properties of the stages *)

(** X16.  [_upload_custom_concepts] with a file system that lists [files]
    and CSV files that convert into the rows [content] gives.  When the
    files hold no row at all (no file, or only files without rows), the
    stage stops after the conversions: it only clears and creates its
    tables, lists the files and converts them; nothing is written, loaded,
    numbered or merged.  When they hold rows and the stage returns, it has
    converted the files in sorted order, written one Parquet file named
    after the table and the column with the rows of all files in that
    order, loaded it, removed the temporary directory, then given the
    custom concepts their identifiers, then merged them. *)
Theorem upload_custom_concepts_loads_all_rows_in_file_order {Row W : Type}
    (handler : ∀ c : @Stage.call Row, W → W * result (Stage.answer c))
    (omop_table concept_id_column : string)
    (files : list string) (content : string → list Row) :
  (∀ w fs,
     (handler (Stage.glob_glob (omop_table +:+ "/" +:+ concept_id_column
                                  +:+ "/custom/*_concept.csv")) w).2 = Return fs →
     fs = files) →
  (∀ f w rows,
     (handler (Stage._convert_concept_csv_to_arrow_table f) w).2 = Return rows →
     rows = content f) →
  (mjoin (content <$> Etl.sorted_list files) = [] →
   ∀ w, Forall (fun c => Stage.is_preparation c = true)
               (Stage.trace (Stage._upload_custom_concepts handler
                               omop_table concept_id_column) w)) ∧
  (mjoin (content <$> Etl.sorted_list files) ≠ [] →
   ∀ w w' tr,
     Stage._upload_custom_concepts handler omop_table concept_id_column w
     = (w', tr, Return tt) →
     ∃ temp_dir,
       tr = [ Stage._clear_custom_concept_upload_table omop_table concept_id_column;
              Stage._create_custom_concept_id_swap_table;
              Stage.glob_glob (omop_table +:+ "/" +:+ concept_id_column
                                 +:+ "/custom/*_concept.csv") ]
            ++ (Stage._convert_concept_csv_to_arrow_table <$> Etl.sorted_list files)
            ++ [ Stage.TemporaryDirectory;
                 Stage.pq_write_table (mjoin (content <$> Etl.sorted_list files))
                   (temp_dir,
                    omop_table +:+ "__" +:+ concept_id_column +:+ "_concept.parquet");
                 Stage._load_custom_concepts_parquet_in_upload_table
                   (temp_dir,
                    omop_table +:+ "__" +:+ concept_id_column +:+ "_concept.parquet")
                   omop_table concept_id_column;
                 Stage.TemporaryDirectory_cleanup temp_dir;
                 Stage._give_custom_concepts_an_unique_id_above_2bilj
                   omop_table concept_id_column;
                 Stage._merge_custom_concepts_with_the_omop_concepts
                   omop_table concept_id_column ]).
Proof.
  intros Hglob Hconv.
  assert (∀ f w0 w1 tr0 rows,
            Stage.perform handler (Stage._convert_concept_csv_to_arrow_table f) w0
            = (w1, tr0, Return rows) →
            tr0 = [Stage._convert_concept_csv_to_arrow_table f] ∧ rows = content f)
    as Hrun.
  { intros f w0 w1 tr0 rows [Hh ->]%stage_perform_inv. split; [done|].
    apply (Hconv f w0). by rewrite Hh. }
  split.
  - intros Hempty. unfold Stage._upload_custom_concepts.
    apply stage_calls_bind; [by apply stage_calls_perform|]. intros _ _.
    apply stage_calls_bind; [by apply stage_calls_perform|]. intros _ _.
    apply stage_calls_bind; [by apply stage_calls_perform|]. intros fs [w0 Hfs].
    rewrite stage_outcome_perform in Hfs. apply Hglob in Hfs as ->.
    apply stage_calls_bind.
    { apply concat_csv_files_calls. intros f.
      by apply (stage_calls_perform handler _ (Stage._convert_concept_csv_to_arrow_table f)). }
    intros ar_table [wl Hloop]. unfold Stage.outcome in Hloop.
    destruct (Stage.concat_csv_files _ _ _ wl) as [[w1 tr1] r] eqn:Hl.
    simpl in Hloop. subst r.
    apply (concat_csv_files_Return Stage._convert_concept_csv_to_arrow_table content)
      in Hl as [_ Hrows]; [|done].
    simpl in Hrows. rewrite Hempty in Hrows.
    assert (Stage.truthy ar_table = false) as ->.
    { apply not_true_is_false. by intros ?%truthy_rows. }
    apply stage_calls_ret.
  - intros Hrows w w' tr. unfold Stage._upload_custom_concepts.
    intros (w1 & tr1 & [] & tr2 & Hclear & Hrest & ->)%stage_bind_Return_inv.
    apply (stage_perform_inv handler (Stage._clear_custom_concept_upload_table _ _))
      in Hclear as [_ ->].
    apply stage_bind_Return_inv in Hrest as (w2 & tr3 & [] & tr4 & Hcreate & Hrest & ->).
    apply (stage_perform_inv handler Stage._create_custom_concept_id_swap_table)
      in Hcreate as [_ ->].
    apply stage_bind_Return_inv in Hrest as (w3 & tr5 & fs & tr6 & Hfs & Hrest & ->).
    apply (stage_perform_inv handler (Stage.glob_glob _)) in Hfs as [Hfs ->].
    assert (fs = files) as -> by (apply (Hglob w2); by rewrite Hfs).
    apply stage_bind_Return_inv in Hrest as (w4 & tr7 & ar_table & tr8 & Hl & Hrest & ->).
    apply (concat_csv_files_Return Stage._convert_concept_csv_to_arrow_table content)
      in Hl as [-> Har]; [|done].
    simpl in Har.
    assert (Stage.truthy ar_table = true) as Htruthy.
    { apply truthy_rows. by rewrite Har. }
    rewrite Htruthy, Har in Hrest. simpl in Hrest.
    apply stage_bind_Return_inv in Hrest as (w5 & tr9 & [] & tr10 & Hwith & Hrest & ->).
    apply with_TemporaryDirectory_Return_inv
      in Hwith as (temp_dir & w6 & w7 & tr11 & Hbody & ->).
    apply stage_bind_Return_inv in Hbody as (w8 & tr12 & [] & tr13 & Hwrite & Hload & ->).
    apply (stage_perform_inv handler (Stage.pq_write_table _ _)) in Hwrite as [_ ->].
    apply (stage_perform_inv handler
             (Stage._load_custom_concepts_parquet_in_upload_table _ _ _))
      in Hload as [_ ->].
    apply stage_bind_Return_inv in Hrest as (w9 & tr14 & [] & tr15 & Hgive & Hmerge & ->).
    apply (stage_perform_inv handler
             (Stage._give_custom_concepts_an_unique_id_above_2bilj _ _))
      in Hgive as [_ ->].
    apply (stage_perform_inv handler
             (Stage._merge_custom_concepts_with_the_omop_concepts _ _))
      in Hmerge as [_ ->].
    exists temp_dir. simpl. by rewrite <- ?app_assoc.
Qed.

Lemma upload_custom_concepts_loads_all_rows_in_file_order_witness :
  ∃ temp_dir,
    Stage.trace (Stage._upload_custom_concepts
                   (Stage.example_handler example_csv_files example_csv_content)
                   "person" "gender_concept_id") tt
    = [ Stage._clear_custom_concept_upload_table "person" "gender_concept_id";
        Stage._create_custom_concept_id_swap_table;
        Stage.glob_glob "person/gender_concept_id/custom/*_concept.csv";
        Stage._convert_concept_csv_to_arrow_table "a_concept.csv";
        Stage._convert_concept_csv_to_arrow_table "b_concept.csv";
        Stage.TemporaryDirectory;
        Stage.pq_write_table ["sex/M"; "sex/F"; "sex/U"]
          (temp_dir, "person__gender_concept_id_concept.parquet");
        Stage._load_custom_concepts_parquet_in_upload_table
          (temp_dir, "person__gender_concept_id_concept.parquet")
          "person" "gender_concept_id";
        Stage.TemporaryDirectory_cleanup temp_dir;
        Stage._give_custom_concepts_an_unique_id_above_2bilj "person" "gender_concept_id";
        Stage._merge_custom_concepts_with_the_omop_concepts "person" "gender_concept_id" ].
Proof.
  destruct (upload_custom_concepts_loads_all_rows_in_file_order
              (Stage.example_handler example_csv_files example_csv_content)
              "person" "gender_concept_id" example_csv_files example_csv_content)
    as [_ Hrows].
  - intros w fs. simpl. by intros [= <-].
  - intros f w rows. simpl. by intros [= <-].
  - apply (Hrows ltac:(discriminate) tt tt). vm_compute. reflexivity.
Defined.

(** X17.  [_apply_usagi_mapping] behaves in the same way on the Usagi CSV
    files of the column: without any row it stops after the conversions;
    with rows, a run that returns has converted the files in sorted order,
    written one Parquet file with the rows of all files in that order,
    loaded it, removed the temporary directory, then swapped the source
    values for concept ids, then stored the mapping. *)
Theorem apply_usagi_mapping_loads_all_rows_in_file_order {Row W : Type}
    (handler : ∀ c : @Stage.call Row, W → W * result (Stage.answer c))
    (omop_table concept_id_column : string)
    (files : list string) (content : string → list Row) :
  (∀ w fs,
     (handler (Stage.glob_glob (omop_table +:+ "/" +:+ concept_id_column
                                  +:+ "/*_usagi.csv")) w).2 = Return fs →
     fs = files) →
  (∀ f w rows,
     (handler (Stage._convert_usagi_csv_to_arrow_table f) w).2 = Return rows →
     rows = content f) →
  (mjoin (content <$> Etl.sorted_list files) = [] →
   ∀ w, Forall (fun c => Stage.is_preparation c = true)
               (Stage.trace (Stage._apply_usagi_mapping handler
                               omop_table concept_id_column) w)) ∧
  (mjoin (content <$> Etl.sorted_list files) ≠ [] →
   ∀ w w' tr,
     Stage._apply_usagi_mapping handler omop_table concept_id_column w
     = (w', tr, Return tt) →
     ∃ temp_dir,
       tr = [ Stage._clear_usagi_upload_table omop_table concept_id_column;
              Stage._create_usagi_upload_table omop_table concept_id_column;
              Stage.glob_glob (omop_table +:+ "/" +:+ concept_id_column
                                 +:+ "/*_usagi.csv") ]
            ++ (Stage._convert_usagi_csv_to_arrow_table <$> Etl.sorted_list files)
            ++ [ Stage.TemporaryDirectory;
                 Stage.pq_write_table (mjoin (content <$> Etl.sorted_list files))
                   (temp_dir,
                    omop_table +:+ "__" +:+ concept_id_column +:+ "_usagi.parquet");
                 Stage._load_usagi_parquet_in_upload_table
                   (temp_dir,
                    omop_table +:+ "__" +:+ concept_id_column +:+ "_usagi.parquet")
                   omop_table concept_id_column;
                 Stage.TemporaryDirectory_cleanup temp_dir;
                 Stage._swap_usagi_source_value_for_concept_id
                   omop_table concept_id_column;
                 Stage._store_usagi_source_value_to_concept_id_mapping
                   omop_table concept_id_column ]).
Proof.
  intros Hglob Hconv.
  assert (∀ f w0 w1 tr0 rows,
            Stage.perform handler (Stage._convert_usagi_csv_to_arrow_table f) w0
            = (w1, tr0, Return rows) →
            tr0 = [Stage._convert_usagi_csv_to_arrow_table f] ∧ rows = content f)
    as Hrun.
  { intros f w0 w1 tr0 rows [Hh ->]%stage_perform_inv. split; [done|].
    apply (Hconv f w0). by rewrite Hh. }
  split.
  - intros Hempty. unfold Stage._apply_usagi_mapping.
    apply stage_calls_bind; [by apply stage_calls_perform|]. intros _ _.
    apply stage_calls_bind; [by apply stage_calls_perform|]. intros _ _.
    apply stage_calls_bind; [by apply stage_calls_perform|]. intros fs [w0 Hfs].
    rewrite stage_outcome_perform in Hfs. apply Hglob in Hfs as ->.
    apply stage_calls_bind.
    { apply concat_csv_files_calls. intros f.
      by apply (stage_calls_perform handler _ (Stage._convert_usagi_csv_to_arrow_table f)). }
    intros ar_table [wl Hloop]. unfold Stage.outcome in Hloop.
    destruct (Stage.concat_csv_files _ _ _ wl) as [[w1 tr1] r] eqn:Hl.
    simpl in Hloop. subst r.
    apply (concat_csv_files_Return Stage._convert_usagi_csv_to_arrow_table content)
      in Hl as [_ Hrows]; [|done].
    simpl in Hrows. rewrite Hempty in Hrows.
    assert (Stage.truthy ar_table = false) as ->.
    { apply not_true_is_false. by intros ?%truthy_rows. }
    apply stage_calls_ret.
  - intros Hrows w w' tr. unfold Stage._apply_usagi_mapping.
    intros (w1 & tr1 & [] & tr2 & Hclear & Hrest & ->)%stage_bind_Return_inv.
    apply (stage_perform_inv handler (Stage._clear_usagi_upload_table _ _))
      in Hclear as [_ ->].
    apply stage_bind_Return_inv in Hrest as (w2 & tr3 & [] & tr4 & Hcreate & Hrest & ->).
    apply (stage_perform_inv handler (Stage._create_usagi_upload_table _ _))
      in Hcreate as [_ ->].
    apply stage_bind_Return_inv in Hrest as (w3 & tr5 & fs & tr6 & Hfs & Hrest & ->).
    apply (stage_perform_inv handler (Stage.glob_glob _)) in Hfs as [Hfs ->].
    assert (fs = files) as -> by (apply (Hglob w2); by rewrite Hfs).
    apply stage_bind_Return_inv in Hrest as (w4 & tr7 & ar_table & tr8 & Hl & Hrest & ->).
    apply (concat_csv_files_Return Stage._convert_usagi_csv_to_arrow_table content)
      in Hl as [-> Har]; [|done].
    simpl in Har.
    assert (Stage.truthy ar_table = true) as Htruthy.
    { apply truthy_rows. by rewrite Har. }
    rewrite Htruthy, Har in Hrest. simpl in Hrest.
    apply stage_bind_Return_inv in Hrest as (w5 & tr9 & [] & tr10 & Hwith & Hrest & ->).
    apply with_TemporaryDirectory_Return_inv
      in Hwith as (temp_dir & w6 & w7 & tr11 & Hbody & ->).
    apply stage_bind_Return_inv in Hbody as (w8 & tr12 & [] & tr13 & Hwrite & Hload & ->).
    apply (stage_perform_inv handler (Stage.pq_write_table _ _)) in Hwrite as [_ ->].
    apply (stage_perform_inv handler (Stage._load_usagi_parquet_in_upload_table _ _ _))
      in Hload as [_ ->].
    apply stage_bind_Return_inv in Hrest as (w9 & tr14 & [] & tr15 & Hswap & Hstore & ->).
    apply (stage_perform_inv handler (Stage._swap_usagi_source_value_for_concept_id _ _))
      in Hswap as [_ ->].
    apply (stage_perform_inv handler
             (Stage._store_usagi_source_value_to_concept_id_mapping _ _))
      in Hstore as [_ ->].
    exists temp_dir. simpl. by rewrite <- ?app_assoc.
Qed.

Lemma apply_usagi_mapping_loads_all_rows_in_file_order_witness :
  Forall (fun c => Stage.is_preparation c = true)
         (Stage.trace (Stage._apply_usagi_mapping
                         (Stage.example_handler ["empty_usagi.csv"] example_csv_content)
                         "person" "gender_concept_id") tt).
Proof.
  destruct (apply_usagi_mapping_loads_all_rows_in_file_order
              (Stage.example_handler ["empty_usagi.csv"] example_csv_content)
              "person" "gender_concept_id" ["empty_usagi.csv"] example_csv_content)
    as [Hnone _].
  - intros w fs. simpl. by intros [= <-].
  - intros f w rows. simpl. by intros [= <-].
  - apply (Hnone eq_refl tt).
Defined.

(** X18.  The work table of a query file.  The stage that executes a query
    file reads the query of the file and, unless that raises, writes its
    result into the work table named after the table and the file: these
    are all the calls of the stage.  The key-swap stage of the same file
    creates the swap table and, unless that raises, runs the swap query on
    that very work table, with the arguments it was given.  The name of the
    work table starts with the name of the table, so that a [cleanup] of
    that table (or of a scope that is a prefix of its name, or of "all")
    which returns has deleted the work table whenever the warehouse listed
    it. *)
Theorem work_table_of_a_query_file_is_deleted_by_cleanup {Row W V : Type}
    (stage_handler : ∀ c : @Stage.call Row, W → W * result (Stage.answer c))
    (stem : string → string)
    (handler : ∀ c : Etl.call, V → V * result (Etl.answer c))
    (self : Etl.t) (omop_table sql_file cleanup_table : string) :
  cleanup_table = "all" ∨ PyStr.startswith omop_table cleanup_table = true →
  (∀ w,
     Stage.trace
       (Stage._execute_query_from_sql_file_and_store_results_in_work_table
          stage_handler stem sql_file omop_table) w
     = match (stage_handler (Stage._get_query_from_sql_file sql_file omop_table) w).2 with
       | Return select_query =>
           [Stage._get_query_from_sql_file sql_file omop_table;
            Stage._query_into_work_table
              (Stage.work_table_of stem omop_table sql_file) select_query]
       | Raise _ => [Stage._get_query_from_sql_file sql_file omop_table]
       end) ∧
  (∀ columns pk_swap_table_name primary_key_column pk_auto_numbering
     foreign_key_columns concept_id_columns w,
     Stage.trace
       (Stage._swap_primary_key_auto_numbering_column stage_handler stem
          sql_file omop_table columns pk_swap_table_name primary_key_column
          pk_auto_numbering foreign_key_columns concept_id_columns) w
     = match (stage_handler
                (Stage._create_pk_auto_numbering_swap_table
                   pk_swap_table_name concept_id_columns) w).2 with
       | Return _ =>
           [Stage._create_pk_auto_numbering_swap_table
              pk_swap_table_name concept_id_columns;
            Stage._execute_pk_auto_numbering_swap_query
              (Stage.mk_swap_query omop_table
                 (Stage.work_table_of stem omop_table sql_file) columns
                 pk_swap_table_name primary_key_column pk_auto_numbering
                 foreign_key_columns concept_id_columns)]
       | Raise _ =>
           [Stage._create_pk_auto_numbering_swap_table
              pk_swap_table_name concept_id_columns]
       end) ∧
  (∀ v v1 v' work_tables tr,
     handler Etl._get_work_tables v = (v1, Return work_tables) →
     Etl.cleanup handler self cleanup_table v = (v', tr, Return tt) →
     Stage.work_table_of stem omop_table sql_file ∈ work_tables →
     Stage.work_table_of stem omop_table sql_file ∈ omap Observe.deleted tr).
Proof.
  intros Hscope. split_and!.
  - intros w.
    unfold Stage.trace, Stage._execute_query_from_sql_file_and_store_results_in_work_table,
      Stage.bind, Stage.perform.
    destruct (stage_handler (Stage._get_query_from_sql_file sql_file omop_table) w)
      as [w1 [select_query|e]]; [|done]. simpl.
    by destruct (stage_handler
                   (Stage._query_into_work_table
                      (Stage.work_table_of stem omop_table sql_file) select_query) w1).
  - intros *.
    unfold Stage.trace, Stage._swap_primary_key_auto_numbering_column,
      Stage.bind, Stage.perform.
    destruct (stage_handler
                (Stage._create_pk_auto_numbering_swap_table
                   pk_swap_table_name concept_id_columns) w) as [w1 [[]|e]]; [|done].
    simpl.
    by destruct (stage_handler
                   (Stage._execute_pk_auto_numbering_swap_query
                      (Stage.mk_swap_query omop_table
                         (Stage.work_table_of stem omop_table sql_file) columns
                         pk_swap_table_name primary_key_column pk_auto_numbering
                         foreign_key_columns concept_id_columns)) w1).
  - intros v v1 v' work_tables tr Hwt Hrun Hin.
    rewrite (cleanup_Return_deleted handler self cleanup_table _ _ _ _ _ Hwt Hrun).
    apply list_elem_of_In, List.filter_In. rewrite <- list_elem_of_In. split; [done|].
    unfold Observe.covers_work_table. apply orb_true_iff.
    destruct Hscope as [->|Hs]; [by left|right].
    unfold Stage.work_table_of. apply startswith_spec in Hs as (r & ->).
    apply startswith_spec. exists (r +:+ "_" +:+ stem sql_file).
    by rewrite string_app_assoc.
Qed.

Lemma work_table_of_a_query_file_is_deleted_by_cleanup_witness :
  Stage.trace
    (Stage._execute_query_from_sql_file_and_store_results_in_work_table
       (Stage.example_handler [] example_csv_content) (fun _ => "a")
       "omop/person/a.sql" "person") tt
  = [Stage._get_query_from_sql_file "omop/person/a.sql" "person";
     Stage._query_into_work_table "person_a" "select 1"] ∧
  Stage.work_table_of (fun _ => "a") "person" "omop/person/a.sql"
  ∈ omap Observe.deleted
      (Etl.trace (Etl.cleanup (Etl.example_handler example_columns example_auto_numbering
                                 example_files example_work_tables no_failure)
                    (example_etl None) "person") tt).
Proof.
  destruct (work_table_of_a_query_file_is_deleted_by_cleanup
              (Row:=string) (W:=unit)
              (Stage.example_handler [] example_csv_content) (fun _ => "a")
              (Etl.example_handler example_columns example_auto_numbering example_files
                 example_work_tables no_failure)
              (example_etl None) "person" "omop/person/a.sql" "person")
    as (Hexecute & _ & Hdeleted).
  - right. reflexivity.
  - split; [exact (Hexecute tt)|]. apply (Hdeleted tt tt tt example_work_tables).
    + reflexivity.
    + vm_compute. reflexivity.
    + apply (bool_decide_unpack _). vm_compute. exact I.
Defined.

(** ** The constructed object *)

Section Constructed.
Import Resolver Graph.

Lemma init_Return_tables table_level field_level self :
  EtlBase.__init__ table_level field_level = Some (Return self) →
  EtlBase._df_omop_tables self = table_level ∧
  EtlBase._omop_cdm_tables self
  = ((fun r => PyStr.lower (tl_cdmTableName r)) <$>
       List.filter (fun r => cell_is (tl_schema r) "CDM") table_level) ∧
  EtlBase._omop_etl_tables self
  = ((fun r => PyStr.lower (tl_cdmTableName r)) <$>
       List.filter (fun r => cell_is (tl_schema r) "CDM"
                             || String.eqb (PyStr.lower (tl_cdmTableName r)) "vocabulary")
         table_level).
Proof.
  unfold EtlBase.__init__.
  destruct (EtlBase.note_nlp_override field_level) as [fields|e]; [|done].
  unfold EtlBase._resolve_cdm_tables_fks_dependencies,
    EtlBase._build_fk_dependency_tree_of_tables.
  destruct (Resolver.build_tree _ _) as [[tree|e]|]; simpl; [|done..].
  by intros [= <-].
Qed.

Lemma filter_or_sublist {A} (p q : A → bool) (l : list A) :
  List.filter p l `sublist_of` List.filter (fun x => p x || q x) l.
Proof.
  induction l as [|x l IH]; simpl; [done|].
  destruct (p x); simpl; [by constructor|]. destruct (q x); [by constructor|done].
Qed.

(** The tables of a returned tier list are lower-cased tables of the
    working set. *)
Lemma build_tree_in_tier fields tables tiers i x :
  build_tree fields tables = Some (Return tiers) → in_tier tiers i x →
  ∃ t0, t0 ∈ tables ∧ PyStr.lower t0 = x.
Proof.
  unfold build_tree. intros [[_ _ Hvx] _]%resolve_graph_return Hi.
  eapply vertex_fk_graph. by eapply Hvx.
Qed.

(** *** The printed tree *)

Lemma tree_lines_length (levels : list (list string)) (spacer : nat) :
  length (Catalog.tree_lines levels spacer) = length (mjoin levels).
Proof.
  revert spacer. induction levels as [|level levels IH]; intros spacer; simpl; [done|].
  by rewrite !length_app, length_imap, IH.
Qed.

Lemma elem_of_tree_lines (levels : list (list string)) (spacer : nat) (line : string) :
  line ∈ Catalog.tree_lines levels spacer ↔
    ∃ i level idx table,
      levels !! i = Some level ∧ level !! idx = Some table ∧
      line = Catalog.tree_line (spacer + 2 * i)
               (bool_decide (idx = length level - 1)) table.
Proof.
  revert spacer. induction levels as [|level levels IH]; intros spacer; simpl.
  - split; [by intros ?%elem_of_nil|]. by intros (i & ? & ? & ? & ? & _).
  - rewrite elem_of_app, IH. split.
    + intros [Hl|(i & lv & idx & table & Hi & Hidx & ->)].
      * apply elem_of_lookup_imap in Hl as (idx & table & -> & Hidx).
        exists 0, level, idx, table. split_and!; [done|done|].
        f_equal. lia.
      * exists (S i), lv, idx, table. split_and!; [done|done|].
        f_equal. lia.
    + intros ([|i] & lv & idx & table & Hi & Hidx & ->).
      * left. injection Hi as <-. apply elem_of_lookup_imap. exists idx, table.
        split; [|done]. f_equal. lia.
      * right. exists i, lv, idx, table. split_and!; [done|done|].
        f_equal. lia.
Qed.

End Constructed.

(** X19.  The tables the constructor puts in the tier list are tables of
    the lists it keeps: every table of a tier is in [_omop_etl_tables],
    except cdm_source when the table catalog does not give it the schema
    "CDM"; and [_omop_cdm_tables] is a sublist of [_omop_etl_tables]. *)
Theorem tier_tables_are_etl_tables
    (table_level : list TableRow) (field_level : list FieldRow) (self : EtlBase.t) :
  EtlBase.__init__ table_level field_level = Some (Return self) →
  (∀ i x, Graph.in_tier (EtlBase._cdm_tables_fks_dependencies_resolved self) i x →
          x ∈ EtlBase._omop_etl_tables self ∨ x = "cdm_source") ∧
  EtlBase._omop_cdm_tables self `sublist_of` EtlBase._omop_etl_tables self.
Proof.
  intros Hinit.
  destruct (init_Return_tables _ _ _ Hinit) as (Htl & Hcdm & Hetl).
  destruct (init_Return_override _ _ _ Hinit) as (row_nr & r & Hfind).
  assert (EtlBase.note_nlp_override field_level
          = Return (alter EtlBase.set_fk_to_note row_nr field_level)) as Hov.
  { unfold EtlBase.note_nlp_override. by rewrite Hfind. }
  destruct (init_Return _ _ _ _ Hov Hinit) as (_ & _ & Hbuild).
  split.
  - intros i x Hi.
    destruct (build_tree_in_tier _ _ _ _ _ Hbuild Hi) as (t0 & Ht0 & <-).
    unfold EtlBase.resolver_tables in Ht0. rewrite Htl in Ht0.
    apply list_elem_of_fmap in Ht0 as (row & -> & Hrow).
    apply list_elem_of_In, List.filter_In in Hrow as [Hrow Hsel].
    apply orb_true_iff in Hsel as [Hschema|Hname%bool_decide_eq_true_1].
    + left. rewrite Hetl.
      apply (list_elem_of_fmap_2 (fun r => PyStr.lower (tl_cdmTableName r))).
      apply list_elem_of_In, List.filter_In. split; [done|]. by rewrite Hschema.
    + apply elem_of_cons in Hname as [Hname|Hname%list_elem_of_singleton].
      * right. by rewrite Hname.
      * left. rewrite Hetl.
        apply (list_elem_of_fmap_2 (fun r => PyStr.lower (tl_cdmTableName r))).
        apply list_elem_of_In, List.filter_In. split; [done|].
        rewrite Hname. apply orb_true_r.
  - rewrite Hcdm, Hetl. apply fmap_sublist, filter_or_sublist.
Qed.

Lemma tier_tables_are_etl_tables_witness :
  (∀ i x, Graph.in_tier [["person"]; ["note"; "visit_occurrence"];
                         ["condition_occurrence"; "note_nlp"]] i x →
          x ∈ ["person"; "visit_occurrence"; "condition_occurrence"; "note"; "note_nlp"]
          ∨ x = "cdm_source") ∧
  ["person"; "visit_occurrence"; "condition_occurrence"; "note"; "note_nlp"]
    `sublist_of`
    ["person"; "visit_occurrence"; "condition_occurrence"; "note"; "note_nlp"].
Proof.
  apply (tier_tables_are_etl_tables scenario_A_table_level note_field_level _
           init_note_example).
Defined.

(** X20.  The printed dependency tree has one line for every table of the
    tier list; the lines are those of the tables of the tiers, the table at
    position [idx] of tier number [i] being printed after [2 * i] spaces and
    a branch sign, which is the closing sign for the last table of its tier
    and for no other; and the name is printed in lower case. *)
Theorem printed_tree_shows_every_table_at_its_tier (self : EtlBase.t) :
  ∃ lines,
    Catalog.print_cdm_tables_fks_dependencies_tree self
    = String.concat (String "010" EmptyString) lines ∧
    length lines = length (mjoin (EtlBase._cdm_tables_fks_dependencies_resolved self)) ∧
    ∀ line,
      line ∈ lines ↔
        ∃ i level idx table,
          EtlBase._cdm_tables_fks_dependencies_resolved self !! i = Some level ∧
          level !! idx = Some table ∧
          line = Catalog.spaces (2 * i)
                 +:+ (if bool_decide (idx = length level - 1) then "└──" else "├──")
                 +:+ PyStr.lower table.
Proof.
  exists (Catalog.tree_lines (EtlBase._cdm_tables_fks_dependencies_resolved self) 0).
  split_and!; [done|apply tree_lines_length|].
  intros line. by rewrite elem_of_tree_lines.
Qed.

(** ** The resolver and the foreign keys the catalog declares *)

Section DeclaredFacts.
Import Resolver Graph Spelling.
Implicit Types (fields : list FieldRow) (tables : list string) (r : FieldRow).

(** The rows within the working set are the rows the filter of lines
    143-146 selects. *)
Lemma within_selected tables r :
  Declared.within tables r ↔ fk_row_selected tables r = true.
Proof.
  unfold Declared.within, fk_row_selected.
  rewrite andb_true_iff, bool_decide_eq_true.
  destruct (fkTableName r) as [fk|].
  - rewrite bool_decide_eq_true. split.
    + intros [? H]. split; [done|]. by apply H.
    + intros [? ?]. split; [done|]. by intros ? [= <-].
  - split; [by intros [? _]|]. intros [? _]. split; [done|]. by intros ? [=].
Qed.

Lemma foreign_key_edge fields tables a b :
  case_unique tables →
  Declared.foreign_key fields tables a b → edge (fk_graph fields tables) a b.
Proof.
  intros Hu (Hne & r & fk & Hr & Hw%within_selected & <- & Hfk & <-).
  apply edge_fk_graph_intro; [done|done|done|done|]. by intros ?.
Qed.

Lemma edge_foreign_key fields tables a b :
  edge (fk_graph fields tables) a b → Declared.foreign_key fields tables a b.
Proof.
  intros (Hne & r & fk & Hr & Hsel%within_selected & Ha & Hfk & Hb)%edge_fk_graph.
  split; [done|]. by exists r, fk.
Qed.

Lemma declared_acyclic_graph fields tables :
  Declared.acyclic fields tables → acyclic (fk_graph fields tables).
Proof.
  intros Hac x Htc. apply (Hac x).
  apply (tc_congruence (R:=edge (fk_graph fields tables)) id); [|done].
  intros ? ?. apply edge_foreign_key.
Qed.

Lemma graph_acyclic_declared fields tables :
  case_unique tables →
  acyclic (fk_graph fields tables) → Declared.acyclic fields tables.
Proof.
  intros Hu Hac x Htc. apply (Hac x).
  apply (tc_congruence (R:=Declared.foreign_key fields tables) id); [|done].
  intros ? ?. by apply foreign_key_edge.
Qed.

Lemma has_row_dom fields tables x :
  Declared.has_row fields tables x ↔ x ∈ dom (fk_graph fields tables).
Proof.
  rewrite dom_fk_graph. unfold Declared.has_row.
  split; intros (r & Hr & Hsel & Hx); exists r; by rewrite ?within_selected in *.
Qed.

Lemma listed_vertex fields tables x :
  case_unique tables →
  Declared.listed fields tables x ↔ vertex (fk_graph fields tables) x.
Proof.
  intros Hu. unfold Declared.listed, vertex. rewrite has_row_dom. split.
  - intros [?|[a Ha]]; [by left|right]. exists a. by apply foreign_key_edge.
  - intros [?|[a Ha]]; [by left|right]. exists a. by apply edge_foreign_key.
Qed.

(** With names unique up to case, every listing of the groups gives the
    dependency graph. *)
Lemma lowered_listing fields tables groups :
  case_unique tables → groups ≡ₚ grouped fields tables →
  lowered groups = fk_graph fields tables.
Proof.
  intros Hu Hp. unfold fk_graph. symmetry.
  apply lowered_independent_of_group_order; [by apply grouped_lower_NoDup|done].
Qed.

Lemma no_tier_of_empty_tree i (x : string) : ¬ in_tier [[]] i x.
Proof.
  intros (tier & Hl & Hin). destruct i as [|i]; simpl in Hl; [|done].
  injection Hl as <-. by apply elem_of_nil in Hin.
Qed.

End DeclaredFacts.

(** C1, as amended.  Let no two tables of the working set differ by case
    only, and let the foreign keys that the rows of the catalog within the
    working set declare (a row of a table of the working set whose foreign
    key, if any, refers to a table of the working set; self references
    removed) have no cycle.  Then the resolver returns a tier list, the
    same for every order in which polars lists the groups.  The tier list
    names tables in lower case; no table is listed twice; the tables listed
    are exactly the tables the catalog has such a row for and the tables
    such a row refers to, each in exactly one tier; every foreign key of a
    table of tier [i] refers to a table of a tier [j < i]; and every table
    listed is a table of the working set, in lower case.  A table of the
    working set without such a row that no such row refers to is in no
    tier. *)
Theorem resolver_partitions_acyclic_graph (self : EtlBase.t) (tables : list string) :
  Spelling.case_unique tables →
  Declared.acyclic (EtlBase._df_omop_fields self) tables →
  ∃ tiers,
    EtlBase._build_fk_dependency_tree_of_tables tables self = (Some (Return tiers), self) ∧
    (∀ groups,
        groups ≡ₚ Resolver.grouped (EtlBase._df_omop_fields self) tables →
        Resolver.build_tree_from groups = Some (Return tiers)) ∧
    NoDup (mjoin tiers) ∧
    (∀ t, Declared.listed (EtlBase._df_omop_fields self) tables t ↔
          ∃ i, Graph.in_tier tiers i t) ∧
    (∀ t i j, Graph.in_tier tiers i t → Graph.in_tier tiers j t → i = j) ∧
    (∀ i a b,
        Graph.in_tier tiers i a →
        Declared.foreign_key (EtlBase._df_omop_fields self) tables a b →
        ∃ j, j < i ∧ Graph.in_tier tiers j b) ∧
    (∀ i t, Graph.in_tier tiers i t → ∃ t0, t0 ∈ tables ∧ PyStr.lower t0 = t).
Proof.
  intros Hu Hac. apply declared_acyclic_graph in Hac.
  destruct (resolve_graph_acyclic _ Hac) as [tiers Hr].
  exists tiers. destruct (resolve_graph_return _ _ Hr) as [[Hnd Hfk Hvx] Hall].
  assert (∀ t, t ∈ dom (Resolver.fk_graph (EtlBase._df_omop_fields self) tables) →
               ∃ i, Graph.in_tier tiers i t) as Hkeys.
  { intros t Ht. by apply placed_in_tier, Hall. }
  split_and!.
  - unfold EtlBase._build_fk_dependency_tree_of_tables, Resolver.build_tree.
    by rewrite Hr.
  - intros groups Hp. unfold Resolver.build_tree_from.
    by rewrite (lowered_listing _ _ _ Hu Hp).
  - done.
  - intros t. rewrite listed_vertex by done. split.
    + intros [Hd|[k He]]; [by apply Hkeys|].
      pose proof He as (s & Hs & _)%edge_lookup.
      destruct (Hkeys k) as [i Hi]; [apply elem_of_dom; eauto|].
      destruct (Hfk i k t Hi He) as (j & _ & Hj). eauto.
    + intros [i Hi]. by eapply Hvx.
  - intros t i j. by apply in_tier_unique.
  - intros i a b Hi Hab. eapply Hfk; [done|]. by apply foreign_key_edge.
  - intros i t Hi. eapply vertex_fk_graph. by eapply Hvx.
Qed.

Lemma resolver_partitions_acyclic_graph_witness :
  ∃ tiers,
    EtlBase._build_fk_dependency_tree_of_tables scenario_A_tables scenario_A_self
    = (Some (Return tiers), scenario_A_self) ∧
    NoDup (mjoin tiers) ∧
    (∀ t, Declared.listed (EtlBase._df_omop_fields scenario_A_self) scenario_A_tables t ↔
          ∃ i, Graph.in_tier tiers i t) ∧
    (∀ t i j, Graph.in_tier tiers i t → Graph.in_tier tiers j t → i = j) ∧
    (∀ i a b,
        Graph.in_tier tiers i a →
        Declared.foreign_key (EtlBase._df_omop_fields scenario_A_self)
          scenario_A_tables a b →
        ∃ j, j < i ∧ Graph.in_tier tiers j b).
Proof.
  assert (Spelling.case_unique scenario_A_tables) as Hu.
  { apply (bool_decide_unpack _). vm_compute. exact I. }
  destruct (resolver_partitions_acyclic_graph scenario_A_self scenario_A_tables Hu)
    as (tiers & Hbuild & _ & Hnd & Hall & Huniq & Hfk & _).
  - apply graph_acyclic_declared; [exact Hu|].
    apply (resolve_graph_return_acyclic _
             [["person"]; ["visit_occurrence"]; ["condition_occurrence"]]).
    vm_compute. reflexivity.
  - exists tiers. by split_and!.
Defined.

(** C1, as stated, fails: the only row of table A refers to a table outside
    the working set, so the catalog has no row within the working set; the
    declared foreign keys have no cycle, the resolver returns one empty
    tier, and table A of the working set is in no tier. *)
Lemma resolver_leaves_out_table_without_row :
  "A" ∈ outside_tables ∧
  Spelling.case_unique outside_tables ∧
  Declared.acyclic (EtlBase._df_omop_fields outside_self) outside_tables ∧
  ∃ tiers,
    EtlBase._build_fk_dependency_tree_of_tables outside_tables outside_self
    = (Some (Return tiers), outside_self) ∧
    ∀ i t, ¬ Graph.in_tier tiers i t.
Proof.
  split_and!.
  - apply (bool_decide_unpack _). vm_compute. exact I.
  - apply (bool_decide_unpack _). vm_compute. exact I.
  - intros x Htc.
    assert (∀ a b, ¬ Declared.foreign_key (EtlBase._df_omop_fields outside_self)
                       outside_tables a b) as Hnone.
    { intros a b (_ & r & fk & Hr & [_ Hw] & _ & Hfk & _).
      apply list_elem_of_singleton in Hr as ->. specialize (Hw _ Hfk).
      injection Hfk as <-. by apply list_elem_of_singleton in Hw. }
    destruct Htc as [? ? H|? ? ? H _]; by apply Hnone in H.
  - exists [[]]. split; [vm_compute; reflexivity|]. apply no_tier_of_empty_tree.
Qed.

(** C8, as amended.  For every order in which polars lists the groups, the
    resolver ends with a result, and each tier of a returned tier list is
    in ascending lexicographic order without repetition.  The resolver
    leaves the object, hence the catalog, unchanged, and the method storing
    the tier list leaves the two catalog data frames unchanged.  When no
    two tables of the working set differ by case only, the result does not
    depend on the order of the groups: resolving again gives the same
    result. *)
Theorem resolver_sorted_and_side_effect_free (self : EtlBase.t) (tables : list string) :
  (∀ groups,
      groups ≡ₚ Resolver.grouped (EtlBase._df_omop_fields self) tables →
      ∃ r,
        Resolver.build_tree_from groups = Some r ∧
        ∀ tiers tier, r = Return tiers → tier ∈ tiers →
                      StronglySorted String.le tier ∧ NoDup tier) ∧
  (EtlBase._build_fk_dependency_tree_of_tables tables self).2 = self ∧
  EtlBase._df_omop_fields (EtlBase._resolve_cdm_tables_fks_dependencies self).2
  = EtlBase._df_omop_fields self ∧
  EtlBase._df_omop_tables (EtlBase._resolve_cdm_tables_fks_dependencies self).2
  = EtlBase._df_omop_tables self ∧
  (Spelling.case_unique tables →
   ∀ groups1 groups2,
     groups1 ≡ₚ Resolver.grouped (EtlBase._df_omop_fields self) tables →
     groups2 ≡ₚ Resolver.grouped (EtlBase._df_omop_fields self) tables →
     Resolver.build_tree_from groups1 = Resolver.build_tree_from groups2 ∧
     (EtlBase._build_fk_dependency_tree_of_tables tables self).1
     = Resolver.build_tree_from groups1).
Proof.
  assert (EtlBase._df_omop_fields (EtlBase._resolve_cdm_tables_fks_dependencies self).2
          = EtlBase._df_omop_fields self
          ∧ EtlBase._df_omop_tables (EtlBase._resolve_cdm_tables_fks_dependencies self).2
            = EtlBase._df_omop_tables self) as Hframe.
  { unfold EtlBase._resolve_cdm_tables_fks_dependencies,
      EtlBase._build_fk_dependency_tree_of_tables.
    by destruct (Resolver.build_tree _ _) as [[?|?]|]. }
  split_and!; [|done|apply Hframe|apply Hframe|].
  - intros groups _. unfold Resolver.build_tree_from.
    destruct (resolve_graph_total (Resolver.lowered groups)) as [r Hr].
    exists r. split; [done|]. intros tiers tier -> Hin.
    apply resolve_graph_sorted in Hr. by apply (proj1 (Forall_forall _ _) Hr).
  - intros Hu groups1 groups2 Hp1 Hp2. unfold Resolver.build_tree_from.
    rewrite (lowered_listing _ _ _ Hu Hp1), (lowered_listing _ _ _ Hu Hp2).
    done.
Qed.

(** C8, as stated, fails on a working set with the tables A and a: when
    polars lists the group of A before the group of a, the resolver returns
    one tier; when it lists the group of a first, two tiers. *)
Lemma resolver_result_depends_on_group_order :
  ∃ groups1 groups2,
    groups1 ≡ₚ Resolver.grouped (EtlBase._df_omop_fields case_clash_self)
                 case_clash_tables ∧
    groups2 ≡ₚ Resolver.grouped (EtlBase._df_omop_fields case_clash_self)
                 case_clash_tables ∧
    Resolver.build_tree_from groups1 = Some (Return [["a"; "b"]]) ∧
    Resolver.build_tree_from groups2 = Some (Return [["b"]; ["a"]]).
Proof.
  exists [("A", ["B"]); ("a", []); ("B", [])], [("a", []); ("A", ["B"]); ("B", [])].
  split_and!.
  - reflexivity.
  - change (Resolver.grouped (EtlBase._df_omop_fields case_clash_self) case_clash_tables)
      with [("A", ["B"]); ("a", [] : list string); ("B", [])].
    apply Permutation_swap.
  - vm_compute. reflexivity.
  - vm_compute. reflexivity.
Qed.

(** ** The driver, table by table *)

Section DriverSegments.
Import Etl Observe.
Context {W : Type}.
Variable handler : ∀ c : call, W → W * result (answer c).
Variable infer : string → string → fk_columns → result fk_columns.

Lemma process_sql_file_calls_for_table t props columns auto f :
  calls_satisfy (fun c => call_table c = Some t)
    (process_sql_file handler infer t props columns auto f).
Proof.
  unfold process_sql_file.
  apply calls_bind; [by perform_ok|]. intros _.
  apply calls_bind.
  { apply calls_when. intros _. apply calls_bind; [apply calls_getattr|].
    intros pk. by perform_ok. }
  intros _. apply calls_bind.
  { case_bool_decide; [apply calls_lift|apply calls_ret]. }
  intros fks. by perform_ok.
Qed.

(** Every call made while a table is processed is a call for that table. *)
Lemma process_omop_folder_calls_for_table (self : t) t props :
  calls_satisfy (fun c => call_table c = Some t)
    (_process_omop_folder handler infer self t props).
Proof.
  unfold _process_omop_folder.
  apply calls_bind; [by perform_ok|]. intros columns.
  apply calls_bind; [by perform_ok|]. intros auto.
  apply calls_bind.
  { apply calls_when. intros _. apply calls_for. intros c _.
    apply calls_bind; [by perform_ok|]. intros _. by perform_ok. }
  intros _. apply calls_bind; [by perform_ok|]. intros sql.
  apply calls_bind; [by perform_ok|]. intros sql_jinja.
  apply calls_for. intros f _. apply process_sql_file_calls_for_table.
Qed.

Lemma process_omop_folder_head (self : t) t props (w : W) :
  ∃ tl, trace (_process_omop_folder handler infer self t props) w
        = _get_column_names t :: tl.
Proof.
  unfold _process_omop_folder. apply trace_bind_head.
  intros w0. rewrite trace_perform. eauto.
Qed.

(** The calls of a loop that returns are the calls of its iterations, one
    iteration after the other. *)
Lemma for_Return_segments {A} (l : list A) (body : A → M unit) (w w' : W) tr :
  for_ l body w = (w', tr, Return tt) →
  ∃ trs, tr = mjoin trs ∧
         Forall2 (fun x tr_x => ∃ w1 w2, body x w1 = (w2, tr_x, Return tt)) l trs.
Proof.
  revert w tr. induction l as [|x l IH]; intros w tr; simpl.
  - intros (_ & -> & _)%ret_inv. by exists [].
  - intros (w1 & tr1 & [] & tr2 & Hx & Hl & ->)%bind_Return_inv.
    apply IH in Hl as (trs & -> & Hall). exists (tr1 :: trs). split; [done|].
    constructor; [eauto|done].
Qed.



(** *** The order of the calls *)

Lemma omap_mjoin {A B} (f : A → option B) (ls : list (list A)) :
  omap f (mjoin ls) = mjoin (omap f <$> ls).
Proof.
  induction ls as [|l ls IH]; [done|]. simpl. by rewrite omap_app, IH.
Qed.

Lemma table_sequence_of_table tr t :
  Forall (fun c => call_table c = Some t) tr → Forall (eq t) (table_sequence tr).
Proof.
  unfold table_sequence. induction 1 as [|c tr Hc _ IH]; simpl; [done|].
  rewrite Hc. by constructor.
Qed.

Lemma segments_elem_of (names : list string) (segs : list (list string)) x :
  Forall2 (fun n seg => Forall (eq n) seg) names segs →
  x ∈ mjoin segs → x ∈ names.
Proof.
  induction 1 as [|n seg names segs Hseg _ IH]; simpl; [done|].
  intros [Hx|Hx]%elem_of_app.
  - rewrite Forall_forall in Hseg. rewrite (Hseg x Hx). by left.
  - right. by apply IH.
Qed.

(** In a sequence made of one block per name, the names being distinct,
    the block of an earlier name is before the block of a later one. *)
Lemma segments_precede (names : list string) (segs : list (list string)) :
  Forall2 (fun n seg => Forall (eq n) seg) names segs →
  NoDup names →
  ∀ i j t1 t2,
    names !! i = Some t1 → names !! j = Some t2 → i < j →
    precedes t1 t2 (mjoin segs).
Proof.
  induction 1 as [|n seg names segs Hseg Hall IH]; [done|].
  intros [Hn Hnd]%NoDup_cons i j t1 t2 Hi Hj Hij p q Hp Hq. simpl in Hp, Hq.
  assert (∀ k x, seg !! k = Some x → x = n) as Hblock.
  { intros k x Hk. rewrite Forall_forall in Hseg. symmetry. apply Hseg.
    by eapply list_elem_of_lookup_2. }
  assert (∀ k x, mjoin segs !! k = Some x → x ≠ n) as Hrest.
  { intros k x Hk ->. apply Hn. eapply segments_elem_of; [done|].
    by eapply list_elem_of_lookup_2. }
  destruct j as [|j]; [lia|]. simpl in Hj.
  assert (t2 ≠ n) as Ht2.
  { intros ->. apply Hn. by eapply list_elem_of_lookup_2. }
  apply lookup_app_Some in Hp as [Hp|[Hlen Hp]]; [by apply Hblock in Hp|].
  destruct i as [|i]; simpl in Hi.
  - injection Hi as <-.
    apply lookup_app_Some in Hq as [Hq|[_ Hq]]; [|by apply Hrest in Hq].
    apply lookup_lt_Some in Hq. lia.
  - assert (t1 ≠ n) as Ht1.
    { intros ->. apply Hn. by eapply list_elem_of_lookup_2. }
    apply lookup_app_Some in Hq as [Hq|[Hlen' Hq]]; [by apply Hblock in Hq|].
    assert (q - length seg < p - length seg); [|lia].
    apply (IH Hnd i j t1 t2 Hi Hj); [lia|done|done].
Qed.

End DriverSegments.

(** C4, as amended.  The driver processes the tables one after the other,
    in the order of the schema file; it runs no two tables concurrently and
    has no tiers.  The calls of a run over the whole schema file that
    returns are: the reading of the date; then, for each table of the
    schema file in turn, the calls of processing that table, which start
    with the reading of its columns and are all made for that table; then
    the closing update of SOURCE_TO_CONCEPT_MAP.  So every call for a table
    is made before every call for a table listed later in the schema file,
    whatever the foreign keys between the two tables are. *)
Theorem run_processes_tables_one_after_the_other {W : Type}
    (handler : ∀ c : Etl.call, W → W * result (Etl.answer c))
    (infer : string → string → Etl.fk_columns → result Etl.fk_columns)
    (object_attribute : string → bool)
    (self : Etl.t) (w w' : W) (tr : list Etl.call) :
  Etl.truthy_str (Etl._only_omop_table self) = false →
  Etl.run handler infer object_attribute self w = (w', tr, Return tt) →
  ∃ etl_start trs,
    tr = Etl.date_today :: mjoin trs
         ++ [Etl._source_to_concept_map_update_invalid_reason etl_start] ∧
    Forall2 (fun kv tr_t =>
               (∃ w1 w2, Etl._process_omop_folder handler infer self kv.1 kv.2 w1
                         = (w2, tr_t, Return tt)) ∧
               head tr_t = Some (Etl._get_column_names kv.1) ∧
               Forall (fun c => Observe.call_table c = Some kv.1) tr_t)
            (Etl._omop_tables self) trs ∧
    (NoDup (fst <$> Etl._omop_tables self) →
     ∀ i j t1 t2,
       (fst <$> Etl._omop_tables self) !! i = Some t1 →
       (fst <$> Etl._omop_tables self) !! j = Some t2 →
       i < j →
       Observe.precedes t1 t2 (Observe.table_sequence tr)).
Proof.
  intros Honly. unfold Etl.run. rewrite Honly.
  intros (w0 & tr0 & etl_start & tr1 & Htoday & Hrest & ->)%bind_Return_inv.
  apply (perform_inv handler Etl.date_today) in Htoday as [Htoday ->].
  apply bind_Return_inv in Hrest as (w1 & tr2 & [] & tr3 & Hloop & Hclose & ->).
  apply (perform_inv handler (Etl._source_to_concept_map_update_invalid_reason etl_start))
    in Hclose as [_ ->].
  apply for_Return_segments in Hloop as (trs & -> & Hsegs).
  assert (Forall2 (fun kv tr_t =>
                     (∃ w1 w2, Etl._process_omop_folder handler infer self kv.1 kv.2 w1
                               = (w2, tr_t, Return tt)) ∧
                     head tr_t = Some (Etl._get_column_names kv.1) ∧
                     Forall (fun c => Observe.call_table c = Some kv.1) tr_t)
                  (Etl._omop_tables self) trs) as Hall.
  { eapply Forall2_impl; [exact Hsegs|]. intros kv tr_t (wa & wb & Hkv).
    split_and!; [eauto| |].
    - destruct (process_omop_folder_head handler infer self kv.1 kv.2 wa) as [tl Htl].
      rewrite (trace_eq _ _ _ _ _ Hkv) in Htl. by rewrite Htl.
    - rewrite <- (trace_eq _ _ _ _ _ Hkv).
      apply process_omop_folder_calls_for_table. }
  exists etl_start, trs. split_and!; [done|done|].
  intros Hnd i j t1 t2 Hi Hj Hij.
  replace (Observe.table_sequence
             ([Etl.date_today]
              ++ mjoin trs ++ [Etl._source_to_concept_map_update_invalid_reason etl_start]))
    with (mjoin (Observe.table_sequence <$> trs)).
  - apply (segments_precede (fst <$> Etl._omop_tables self)) with i j; try done.
    apply Forall2_fmap. eapply Forall2_impl; [exact Hall|].
    intros kv tr_t (_ & _ & Hcalls). by apply table_sequence_of_table.
  - unfold Observe.table_sequence. rewrite !omap_app, omap_mjoin. simpl.
    by rewrite app_nil_r.
Qed.

Lemma NoDup_example_omop_tables : NoDup (fst <$> Etl._omop_tables (example_etl None)).
Proof. apply (bool_decide_unpack _). vm_compute. exact I. Defined.

Lemma run_processes_tables_one_after_the_other_witness :
  ∃ etl_start trs,
    Etl.trace (Etl.run (Etl.example_handler example_columns example_auto_numbering
                          example_files [] no_failure)
                 Etl.example_infer Etl.example_object_attribute (example_etl None)) tt
    = Etl.date_today :: mjoin trs
      ++ [Etl._source_to_concept_map_update_invalid_reason etl_start] ∧
    Forall2 (fun kv tr_t =>
               (∃ w1 w2,
                  Etl._process_omop_folder
                    (Etl.example_handler example_columns example_auto_numbering
                       example_files [] no_failure)
                    Etl.example_infer (example_etl None) kv.1 kv.2 w1
                  = (w2, tr_t, Return tt)) ∧
               head tr_t = Some (Etl._get_column_names kv.1) ∧
               Forall (fun c => Observe.call_table c = Some kv.1) tr_t)
            example_omop_tables trs ∧
    Observe.precedes "person" "visit_occurrence"
      (Observe.table_sequence
         (Etl.trace (Etl.run (Etl.example_handler example_columns example_auto_numbering
                                example_files [] no_failure)
                       Etl.example_infer Etl.example_object_attribute (example_etl None))
            tt)).
Proof.
  destruct (run_processes_tables_one_after_the_other
              (Etl.example_handler example_columns example_auto_numbering example_files []
                 no_failure)
              Etl.example_infer Etl.example_object_attribute (example_etl None) tt tt
              (Etl.trace (Etl.run (Etl.example_handler example_columns
                                     example_auto_numbering example_files [] no_failure)
                            Etl.example_infer Etl.example_object_attribute
                            (example_etl None)) tt))
    as (etl_start & trs & Htr & Hall & Hprec).
  - reflexivity.
  - vm_compute. reflexivity.
  - exists etl_start, trs. split_and!; [exact Htr|exact Hall|].
    apply (Hprec (NoDup_example_omop_tables) 0 2); [reflexivity|reflexivity|lia].
Defined.

(** C4, as stated, fails.  In the schema file of the example,
    visit_occurrence has a foreign key to person and is listed before it
    (the resolver places person in the first tier and visit_occurrence in
    the second): the run returns, and all its calls for visit_occurrence
    are made before its first call for person. *)
Lemma run_starts_dependent_table_first :
  Observe.depends_on dependent_first_etl "visit_occurrence" "person" ∧
  (EtlBase._build_fk_dependency_tree_of_tables scenario_A_tables scenario_A_self).1
  = Some (Return [["person"]; ["visit_occurrence"]; ["condition_occurrence"]]) ∧
  Etl.outcome (Etl.run (Etl.example_handler example_columns example_auto_numbering
                          example_files [] no_failure)
                 Etl.example_infer Etl.example_object_attribute dependent_first_etl) tt
  = Return tt ∧
  Observe.table_sequence
    (Etl.trace (Etl.run (Etl.example_handler example_columns example_auto_numbering
                           example_files [] no_failure)
                  Etl.example_infer Etl.example_object_attribute dependent_first_etl) tt)
  = replicate 12 "visit_occurrence" ++ replicate 12 "person" ∧
  ¬ Observe.precedes "person" "visit_occurrence"
      (Observe.table_sequence
         (Etl.trace (Etl.run (Etl.example_handler example_columns example_auto_numbering
                                example_files [] no_failure)
                       Etl.example_infer Etl.example_object_attribute
                       dependent_first_etl) tt)).
Proof.
  split_and!.
  - exists (Etl.mk_props (Some "visit_occurrence_id")
              (Some [("person_id", ("person", "person_id"))]) None),
      "person_id", "person_id".
    split; [by left|]. by left.
  - vm_compute. reflexivity.
  - vm_compute. reflexivity.
  - vm_compute. reflexivity.
  - intros Hprec. specialize (Hprec 0 12).
    assert (12 < 0); [|lia]. apply Hprec; vm_compute; reflexivity.
Qed.



